(** * Forma / Dynamo extension: graph-execution client and spatial-data assembly

    A shallow embedding of [src/service/dynamo.ts] (the graph-execution
    client) and of the model-walking and input-materialising functions of
    [src/pages/LocalScript.tsx], followed by the properties established
    about them.

    Conventions of the embedding.
    - JavaScript values are the inductive [jsval]; an object is an
      association list in insertion order.  Numbers are exact integers
      ([Z]): every number the properties below depend on is an integer, on
      which IEEE doubles agree with [Z] below 2^53; non-finite numbers are
      not modelled.
    - A promise is the [Outcome] it settles to: [Ret] (resolved), [Throw]
      (rejected) or [OutOfFuel] for a loop or recursion cut by the model's
      fuel.  The reads of the host platform are deterministic; when
      several callbacks of a [Promise.all] reject, which rejection settles
      first is for the host to say ([settles_first]).
    - The network is a deterministic [Server] answering each request from
      the history of events; what the client does is recorded in a trace. *)

From Stdlib Require Import ZArith String Ascii List Lia Bool.
From Stdlib Require Import DecimalString DecimalZ DecimalPos.
From stdpp Require Import gmap strings list.

Local Open Scope Z_scope.

#[local] Set Warnings "-register-all".
#[local] Arguments String.append !_ _ / : simpl nomatch.

(** ** JavaScript values *)

Inductive jsval : Type :=
| VUndef
| VNull
| VBool (b : bool)
| VNum (n : Z)
| VStr (s : string)
| VArr (items : list jsval)
| VObj (fields : list (string * jsval)).

(** Errors that the modelled code throws or lets through. *)
Inductive Exn : Type :=
| FetchError (message : string) (status : Z)
| Error (message : string)
| TypeError (message : string)
| SyntaxError (message : string)
| HostError (message : string).

(** [err.message] and [err.status] as the callers read them. *)
Definition exn_message (e : Exn) : string :=
  match e with
  | FetchError m _ | Error m | TypeError m | SyntaxError m | HostError m => m
  end.

Definition exn_status (e : Exn) : option Z :=
  match e with
  | FetchError _ st => Some st
  | _ => None
  end.

Inductive Outcome (A : Type) : Type :=
| Ret (a : A)
| Throw (e : Exn)
| OutOfFuel.

Arguments Ret {A} a.
Arguments Throw {A} e.
Arguments OutOfFuel {A}.

Definition obind {A B} (m : Outcome A) (k : A -> Outcome B) : Outcome B :=
  match m with
  | Ret a => k a
  | Throw e => Throw e
  | OutOfFuel => OutOfFuel
  end.

Declare Scope outcome_scope.
Delimit Scope outcome_scope with out.
Notation "x <- m ;; k" := (obind m (fun x => k))
  (at level 100, m at next level, right associativity) : outcome_scope.

(** [Promise.all(xs.map(f))].  Every callback is started.  When all of
    them fulfil, the results come in the order of [xs].  When some reject,
    [Promise.all] rejects with the rejection that settles first, which is
    for the platform to decide: [settles_first] gives its position among
    the rejections taken in list order (a position past the end stands
    for the first of them).  The model answers once every callback has
    been given enough fuel to settle. *)
Definition rejection {B} (o : Outcome B) : option Exn :=
  match o with
  | Throw e => Some e
  | _ => None
  end.

Definition fulfilment {B} (o : Outcome B) : option B :=
  match o with
  | Ret b => Some b
  | _ => None
  end.

Definition pending {B} (o : Outcome B) : bool :=
  match o with
  | OutOfFuel => true
  | _ => false
  end.

Definition Promise_all {A B} (settles_first : list Exn -> nat)
           (f : A -> Outcome B) (xs : list A) : Outcome (list B) :=
  let outcomes := map f xs in
  if existsb pending outcomes then OutOfFuel
  else
    match omap rejection outcomes with
    | [] => Ret (omap fulfilment outcomes)
    | e :: es => Throw (nth (settles_first (e :: es)) (e :: es) e)
    end.

(** Truthiness, as [||], [!] and [if] test it. *)
Definition truthy (v : jsval) : bool :=
  match v with
  | VUndef | VNull => false
  | VBool b => b
  | VNum n => negb (n =? 0)
  | VStr s => negb (String.eqb s "")
  | VArr _ | VObj _ => true
  end.

(** [a || b] *)
Definition js_or (a b : jsval) : jsval := if truthy a then a else b.

Fixpoint assoc (k : string) (fs : list (string * jsval)) : option jsval :=
  match fs with
  | [] => None
  | (k', v) :: fs' => if String.eqb k' k then Some v else assoc k fs'
  end.

(** [v?.k]: a property read that tolerates [undefined] and [null]; a
    property that is not there reads as [undefined]. *)
Definition opt_prop (v : jsval) (k : string) : jsval :=
  match v with
  | VObj fs => default VUndef (assoc k fs)
  | _ => VUndef
  end.

(** [v.k], and the destructuring [const { k } = v]: a TypeError on
    [undefined] and [null]. *)
Definition prop (v : jsval) (k : string) : Outcome jsval :=
  match v with
  | VUndef | VNull => Throw (TypeError "Cannot read properties of undefined")
  | _ => Ret (opt_prop v k)
  end.

(** [obj[k] = v] on an object's own fields. *)
Fixpoint obj_set (k : string) (v : jsval) (fs : list (string * jsval))
  : list (string * jsval) :=
  match fs with
  | [] => [(k, v)]
  | (k', v') :: fs' =>
      if String.eqb k' k then (k', v) :: fs' else (k', v') :: obj_set k v fs'
  end.

(** [v === s] for a string literal [s]. *)
Definition is_str (v : jsval) (s : string) : bool :=
  match v with
  | VStr t => String.eqb t s
  | _ => false
  end.

Definition string_of_Z (z : Z) : string := NilZero.string_of_int (Z.to_int z).

Fixpoint join (sep : string) (parts : list string) : string :=
  match parts with
  | [] => ""
  | [p] => p
  | p :: ps => p +:+ sep +:+ join sep ps
  end.

(** [String(v)], which is also what a template literal does to [v]. *)
Fixpoint js_to_string (v : jsval) : string :=
  match v with
  | VUndef => "undefined"
  | VNull => "null"
  | VBool b => if b then "true" else "false"
  | VNum n => string_of_Z n
  | VStr s => s
  | VArr l =>
      join "," (map (fun x => match x with
                              | VUndef | VNull => ""
                              | _ => js_to_string x
                              end) l)
  | VObj _ => "[object Object]"
  end.

(** ** JSON text *)

Definition dquote : ascii := "034".
Definition backslash : ascii := "092".

Definition hex_digit (n : nat) : ascii :=
  match n with
  | 0 => "0" | 1 => "1" | 2 => "2" | 3 => "3" | 4 => "4" | 5 => "5"
  | 6 => "6" | 7 => "7" | 8 => "8" | 9 => "9" | 10 => "a" | 11 => "b"
  | 12 => "c" | 13 => "d" | 14 => "e" | _ => "f"
  end%nat%char.

(** How [JSON.stringify] writes one character of a string. *)
Definition escape_char (c : ascii) : string :=
  if Ascii.eqb c dquote then String backslash (String dquote "")
  else if Ascii.eqb c backslash then String backslash (String backslash "")
  else if Ascii.eqb c "008" then "\b"
  else if Ascii.eqb c "012" then "\f"
  else if Ascii.eqb c "010" then "\n"
  else if Ascii.eqb c "013" then "\r"
  else if Ascii.eqb c "009" then "\t"
  else if (nat_of_ascii c <? 32)%nat then
    "\u00" +:+ String (hex_digit (nat_of_ascii c / 16))
                 (String (hex_digit (nat_of_ascii c mod 16)) "")
  else String c "".

Fixpoint quote_body (s : string) : string :=
  match s with
  | EmptyString => ""
  | String c s' => escape_char c +:+ quote_body s'
  end.

Definition quote (s : string) : string :=
  String dquote (quote_body s +:+ String dquote "").

(** The text of a value; [None] is [undefined], which [JSON.stringify]
    returns for [undefined] itself, writes as [null] inside an array and
    leaves out of an object. *)
Fixpoint ser (v : jsval) : option string :=
  match v with
  | VUndef => None
  | VNull => Some "null"
  | VBool b => Some (if b then "true" else "false")
  | VNum n => Some (string_of_Z n)
  | VStr s => Some (quote s)
  | VArr l =>
      Some ("[" +:+ join "," (map (fun x => default "null" (ser x)) l) +:+ "]")
  | VObj fs =>
      Some ("{" +:+
            join "," (flat_map (fun kv => match ser (snd kv) with
                                          | Some t => [quote (fst kv) +:+ ":" +:+ t]
                                          | None => []
                                          end) fs) +:+ "}")
  end.

(** [JSON.stringify(v)] *)
Definition JSON_stringify (v : jsval) : jsval :=
  match ser v with
  | Some s => VStr s
  | None => VUndef
  end.

(** ** The element model of the host platform *)

(** A 4x4 homogeneous matrix as the 16 numbers the platform hands out;
    [transform[i]] is [tget transform i]. *)
Definition Transform : Type := list Z.

Definition tget (t : Transform) (i : nat) : Z := nth i t 0.

Definition identityTransform : Transform :=
  [1; 0; 0; 0; 0; 1; 0; 0; 0; 0; 1; 0; 0; 0; 0; 1].

(** A 2.5D volume feature: [id], [properties.height], the optional
    [properties.elevation] and [geometry.coordinates]. *)
Record Volume25D : Type := {
  f_id : string;
  f_height : Z;
  f_elevation : option Z;
  f_coordinates : list jsval
}.

Record FeatureCollection : Type := { features : list Volume25D }.

(** [RepresentationSelection]: the [type] tag is kept as the string (or
    the absence) found at run time. *)
Record RepresentationSelection : Type := {
  sel_type : option string;
  sel_value : string
}.

Inductive Representation : Type :=
| Linked (blobId : string) (selection : option RepresentationSelection)
| EmbeddedJson (data : option FeatureCollection)
               (selection : option RepresentationSelection)
| OtherRepresentation (type : string)
                      (selection : option RepresentationSelection).

Definition rep_selection (r : Representation) : option RepresentationSelection :=
  match r with
  | Linked _ s | EmbeddedJson _ s | OtherRepresentation _ s => s
  end.

Record Child : Type := { key : string; child_urn : string }.

Record Representations : Type := {
  volume25DCollection : option Representation
}.

Record Element : Type := {
  urn : string;
  children : option (list Child);
  representations : option Representations;
  (** the other members of the element object *)
  members : list (string * jsval)
}.

(** What the extension consumes from the host ([Forma.*]).  Each read is
    the outcome its promise settles to. *)
Record Host : Type := {
  (** [Forma.proposal.getRootUrn()] *)
  getRootUrn : Outcome string;
  (** [Forma.elements.get({ urn, recursive: true })], its [elements] *)
  elements_get : string -> Outcome (gmap string Element);
  (** [Forma.elements.getByPath({ path, recursive })]: [element] and
      [elements] *)
  getByPath : string -> bool -> Outcome (option Element * gmap string Element);
  (** [Forma.elements.getWorldTransform({ path })], its [transform] *)
  getWorldTransform : string -> Outcome Transform;
  (** [Forma.elements.blobs.get({ blobId })], decoded and parsed as a
      volume collection *)
  blob_volume25D : string -> Outcome (option FeatureCollection);
  (** [Forma.geometry.getTriangles({ urn, path })], [urn] being optional:
      the numbers of the typed array *)
  getTriangles : option string -> string -> Outcome (option (list Z));
  (** [Forma.geometry.getFootprint({ urn, path })]: the [coordinates] of
      the polygon *)
  getFootprint : option string -> string -> Outcome (option (list jsval));
  (** [Forma.geometry.getPathsByCategory({ category })] *)
  getPathsByCategory : string -> Outcome (list string);
  (** [Forma.areaMetrics.calculate({ paths })] *)
  areaMetrics_calculate : jsval -> Outcome jsval;
  (** [Forma.project.get()] *)
  project_get : Outcome jsval;
  (** [Forma.getRegion()] and [Forma.getProjectId()] *)
  getRegion : string;
  getProjectId : string;
  (** which of several rejected reads settles first (see [Promise_all]) *)
  settles_first : list Exn -> nat
}.

(** ** Volume collection loader ([LocalScript.tsx]) *)

(** [element.representations?.volume25DCollection] *)
Definition volume25DCollectionRep (el : Element) : option Representation :=
  representations el ≫= volume25DCollection.

Definition js_of_selection (s : RepresentationSelection) : jsval :=
  VObj [("type", match sel_type s with Some t => VStr t | None => VUndef end);
        ("value", VStr (sel_value s))].

(** [createSelectionPredicate]: the predicate, or the error thrown for a
    selection whose [type] is none of the three cases. *)
Definition createSelectionPredicate (selection : option RepresentationSelection)
  : Outcome (string -> bool) :=
  match selection with
  | None => Ret (fun _ => true)
  | Some sel =>
      match sel_type sel with
      | None => Ret (fun _ => true)
      | Some t =>
          if String.eqb t "equals" then
            Ret (fun value => String.eqb value (sel_value sel))
          else if String.eqb t "startsWith" then
            Ret (fun value => String.prefix (sel_value sel) value)
          else
            Throw (Error ("Invalid selection: " +:+
                          js_to_string (JSON_stringify (js_of_selection sel))))
      end
  end.

Section Loader.

Variable host : Host.

(** [transformCoordinates] of [utils/transformCoordinates.ts], which
    re-projects one entry of [geometry.coordinates]; its code is not
    part of the sources at hand, and nothing below depends on what it
    computes. *)
Variable transformCoordinates : Transform -> jsval -> jsval.

Definition loadVolume25Collection (representation : option Representation)
  : Outcome (option FeatureCollection) :=
  match representation with
  | None => Ret None
  | Some (Linked blobId _) => blob_volume25D host blobId
  | Some (EmbeddedJson data _) => Ret data
  | Some (OtherRepresentation _ _) => Ret None
  end.

(** The callback mapped over the retained features. *)
Definition transformFeature (transform : Transform) (feature : Volume25D)
  : Volume25D :=
  {| f_id := f_id feature;
     f_height := f_height feature * tget transform 10;
     f_elevation :=
       Some (default (0 * tget transform 10) (f_elevation feature)
             + tget transform 14);
     f_coordinates :=
       map (transformCoordinates transform) (f_coordinates feature) |}.

Section Walk.

Variable elements : gmap string Element.

(** [element?.children ?? []] *)
Definition children_or_empty (element : option Element) : list Child :=
  match element with
  | Some el => default [] (children el)
  | None => []
  end.

(** The [while (stack.length)] loop.  The stack is kept with its top
    first, so pushing the children in order leaves the last child on
    top, as [push] and [pop] do.  One unit of fuel is one iteration. *)
Fixpoint walk (fuel : nat) (stack : list (string * option Element))
         (collections : list FeatureCollection)
  : Outcome (list FeatureCollection) :=
  match stack with
  | [] => Ret collections
  | (path, element) :: rest =>
      match fuel with
      | O => OutOfFuel
      | S fuel' =>
          let stack' :=
            rev (map (fun child =>
                        (path +:+ "/" +:+ key child,
                         elements !! child_urn child))
                     (children_or_empty element)) ++ rest in
          match element with
          | None =>
              Throw (TypeError "Cannot read properties of undefined")
          | Some el =>
              (volume25DCollection <-
                 loadVolume25Collection (volume25DCollectionRep el) ;;
               match volume25DCollection with
               | None => walk fuel' stack' collections
               | Some collection =>
                   transform <- getWorldTransform host path ;;
                   selectionPredicate <-
                     createSelectionPredicate
                       (volume25DCollectionRep el ≫= rep_selection) ;;
                   let filtered :=
                     List.filter (fun f => selectionPredicate (f_id f))
                                 (features collection) in
                   walk fuel' stack'
                        (collections ++
                         [ {| features :=
                                map (transformFeature transform) filtered |} ])
               end)%out
          end
      end
  end.

End Walk.

(** [getVolume25DForSubTree]: [Some] is the object it returns; the type
    leaves room for the absent value that a caller may expect. *)
Definition getVolume25DForSubTree (fuel : nat) (path : string)
  : Outcome (option FeatureCollection) :=
  (got <- getByPath host path true ;;
   collections <- walk (snd got) fuel [(path, fst got)] [] ;;
   Ret (Some {| features := concat (map features collections) |}))%out.

End Loader.

(** ** Full-model path enumeration ([getAllPaths]) *)

(** [s.split(sep)] for a one-character separator. *)
Fixpoint split (sep : ascii) (s : string) : list string :=
  match s with
  | EmptyString => [EmptyString]
  | String c s' =>
      if Ascii.eqb c sep then EmptyString :: split sep s'
      else match split sep s' with
           | [] => [String c EmptyString]
           | w :: ws => String c w :: ws
           end
  end.

(** [for (const x of xs) paths.push(...f(x))] *)
Fixpoint push_all {A} (f : A -> Outcome (list string)) (xs : list A)
         (paths : list string) : Outcome (list string) :=
  match xs with
  | [] => Ret paths
  | x :: xs' => (sub <- f x ;; push_all f xs' (paths ++ sub))%out
  end.

Section Paths.

Variable rootUrn : string.
Variable elements : gmap string Element.

(** The [for (const key of keys)] loop of [getElementsByPath]. *)
Fixpoint descend (path : string) (element : option Element)
         (keys : list string) : Outcome (option Element) :=
  match keys with
  | [] => Ret element
  | k :: keys' =>
      match element with
      | None => Throw (TypeError "Cannot read properties of undefined")
      | Some el =>
          match List.find (fun child => String.eqb (key child) k)
                          (default [] (children el)) with
          | None => Throw (Error ("Element not found at path " +:+ path))
          | Some child => descend path (elements !! child_urn child) keys'
          end
      end
  end.

Definition getElementsByPath (path : string) : Outcome (option Element) :=
  if String.eqb path "root" then Ret (elements !! rootUrn)
  else descend path (elements !! rootUrn) (tail (split "/" path)).

Fixpoint findAllPaths (fuel : nat) (path : string) : Outcome (list string) :=
  match fuel with
  | O => OutOfFuel
  | S fuel' =>
      (element <- getElementsByPath path ;;
       match element with
       | None => Throw (TypeError "Cannot read properties of undefined")
       | Some el =>
           push_all (fun child => findAllPaths fuel' (path +:+ "/" +:+ key child))
                    (default [] (children el)) [path]
       end)%out
  end.

End Paths.

Definition getAllPaths (host : Host) (fuel : nat) : Outcome (list string) :=
  (urn <- getRootUrn host ;;
   elements <- elements_get host urn ;;
   findAllPaths urn elements fuel "root")%out.

(** ** Graph-execution client ([service/dynamo.ts]) *)

Record Request : Type := {
  req_url : string;
  req_method : string;
  req_headers : list (string * string);
  req_body : option string
}.

(** A response: [status], [statusText] and what [response.json()] settles
    to. *)
Record Response : Type := {
  status : Z;
  statusText : string;
  json : Outcome jsval
}.

Inductive Event : Type :=
| Fetched (request : Request)
| Slept (ms : Z).

(** The service and the network: the answer to a request, given all that
    happened before it. *)
Definition Server : Type := list Event -> Request -> Outcome Response.

(** Client code: it extends the trace of events and settles. *)
Definition Net (A : Type) : Type := list Event -> Outcome A * list Event.

Definition nret {A} (a : A) : Net A := fun tr => (Ret a, tr).

Definition lift {A} (o : Outcome A) : Net A := fun tr => (o, tr).

Definition nthrow {A} (e : Exn) : Net A := lift (Throw e).

Definition nbind {A B} (m : Net A) (k : A -> Net B) : Net B :=
  fun tr =>
    match m tr with
    | (Ret a, tr') => k a tr'
    | (Throw e, tr') => (Throw e, tr')
    | (OutOfFuel, tr') => (OutOfFuel, tr')
    end.

Declare Scope net_scope.
Delimit Scope net_scope with net.
Notation "x <- m ;; k" := (nbind m (fun x => k))
  (at level 100, m at next level, right associativity) : net_scope.

Record RequestInit : Type := {
  method : option string;
  headers : list (string * string);
  body : option string
}.

Definition init_of (m : string) (b : option string) : RequestInit :=
  {| method := Some m; headers := []; body := b |}.

(** Header names compare without regard to case, as [Headers] does. *)
Definition lower_char (c : ascii) : ascii :=
  let n := nat_of_ascii c in
  if ((65 <=? n) && (n <=? 90))%nat then ascii_of_nat (n + 32) else c.

Fixpoint lower (s : string) : string :=
  match s with
  | EmptyString => EmptyString
  | String c s' => String (lower_char c) (lower s')
  end.

Definition same_header (a b : string) : bool := String.eqb (lower a) (lower b).

Definition headers_has (hs : list (string * string)) (name : string) : bool :=
  existsb (fun h => same_header (fst h) name) hs.

Definition headers_get (hs : list (string * string)) (name : string)
  : option string :=
  snd <$> List.find (fun h => same_header (fst h) name) hs.

Definition headers_set (hs : list (string * string)) (name value : string)
  : list (string * string) :=
  List.filter (fun h => negb (same_header (fst h) name)) hs ++ [(name, value)].

Record RunInput : Type := { nodeId : string; value : jsval }.

Definition js_of_input (i : RunInput) : jsval :=
  VObj [("nodeId", VStr (nodeId i)); ("value", value i)].

(** The body of the run request and of the job payload. *)
Definition run_body (target : jsval) (inputs : list RunInput) : option string :=
  ser (VObj [("target", target);
             ("ignoreInputs", VBool false);
             ("getImage", VBool false);
             ("getGeometry", VBool false);
             ("getContents", VBool false);
             ("inputs", VArr (map js_of_input inputs))]).

(** The [job] object literal that stands in [runAsync] where the answer
    of the results endpoint would be. *)
Definition crlf : string := String "013" (String "010" "").

Definition sample_elements_json : string :=
  "[{" +:+ quote "urn" +:+ ":" +:+
  quote "urn:adsk-forma-elements:integrate:pro_brv2lm8dmg:0a8429ef-2a63-41f8-bb52-89d9f46d6505:1728643644867"
  +:+ "," +:+ quote "transform" +:+
  ":[1.0,0.0,0.0,0.0,0.0,1.0,0.0,0.0,0.0,0.0,1.0,0.0,0.0,0.0,0.0,1.0]}]".

Definition job_literal_result : jsval :=
  VObj [("info", VObj [
    ("issues", VArr [
       VObj [("nodeId", VStr "3071764a-815e-4e04-8b4d-2ce9e8ae81d1");
             ("nodeName", VStr "Integrate.ByRepresentations");
             ("type", VStr "WARNING");
             ("message",
              VStr ("Integrate.ByRepresentations operation failed. " +:+ crlf +:+
                    "Object reference not set to an instance of an object."))];
       VObj [("nodeId", VStr "d9e5d783-b951-42e8-9bac-9d6c12aed9d1");
             ("nodeName", VStr "TerrainShape.ByCurve");
             ("type", VStr "WARNING");
             ("message",
              VStr ("TerrainShape.ByCurve operation failed. " +:+ crlf +:+
                    "Unable to cast object of type 'System.String' to type 'System.Byte[]'."))]]);
    ("status", VStr "WARNINGS");
    ("outputs", VArr [
       VObj [("id", VStr "eecab10a-c774-4ee3-ae63-3ee6121e7fc4");
             ("name", VStr "SendElementsToForma");
             ("value", VArr [VStr sample_elements_json; VNull]);
             ("valueString", VObj [
                ("count", VNum 0);
                ("value", VStr "List");
                ("items", VObj [
                   ("0", VObj [("path", VArr [VStr "0"]);
                               ("count", VNum 0);
                               ("value", VStr sample_elements_json)]);
                   ("1", VObj [("path", VArr [VStr "1"]);
                               ("count", VNum 0)])])]);
             ("type", VStr "SendElementsToForma")]]);
    ("id", VStr "");
    ("name", VStr "")])].

Definition job_literal : jsval :=
  VObj [("status", VStr "COMPLETE"); ("result", job_literal_result)].

(** [path.replaceAll(/\\/g, "\\\\")]: every backslash written twice. *)
Fixpoint double_backslashes (s : string) : string :=
  match s with
  | EmptyString => EmptyString
  | String c s' =>
      if Ascii.eqb c backslash
      then String backslash (String backslash (double_backslashes s'))
      else String c (double_backslashes s')
  end.

(** The body of the info request. *)
Definition info_body (target : jsval) : option string :=
  ser (VObj [("target", target);
             ("data", VObj [("metadata", VBool true);
                            ("issues", VBool true);
                            ("status", VBool true);
                            ("inputs", VBool true);
                            ("outputs", VBool true);
                            ("dependencies", VBool true)])]).

Record Dynamo : Type := {
  url : string;
  (** the token provider, when one is configured, as the outcome its call
      settles to *)
  authProvider : option (Outcome string)
}.

Section Client.

Variable srv : Server.
(** the module constant [runSync], read from the page's query string *)
Variable runSync : bool.
Variable self : Dynamo.

(** The platform's [fetch]. *)
Definition fetch (input : string) (init : option RequestInit) : Net Response :=
  fun tr =>
    let request :=
      {| req_url := input;
         req_method := default "GET" (init ≫= method);
         req_headers := from_option headers [] init;
         req_body := init ≫= body |} in
    (srv tr request, tr ++ [Fetched request]).

Definition sleep (ms : Z) : Net unit := fun tr => (Ret tt, tr ++ [Slept ms]).

Definition _fetch (input : string) (init : option RequestInit) : Net Response :=
  match authProvider self, init with
  | Some provider, Some i =>
      if negb (headers_has (headers i) "Authorization") then
        (authzString <- lift provider ;;
         fetch input
               (Some {| method := method i;
                        headers := headers_set (headers i) "Authorization" authzString;
                        body := body i |}))%net
      else fetch input init
  | _, _ => fetch input init
  end.

(** The [while (true)] loop of [runAsync]; one unit of fuel is one
    iteration. *)
Fixpoint await_job (fuel : nat) : Net jsval :=
  match fuel with
  | O => lift OutOfFuel
  | S fuel' =>
      let job := job_literal in
      if is_str (opt_prop job "status") "SUCCESS"
         || is_str (opt_prop job "status") "COMPLETE"
      then nret (opt_prop job "result")
      else if is_str (opt_prop job "status") "FAILED"
      then nthrow (FetchError "Job failed" 500)
      else (_ <- sleep 200 ;; await_job fuel')%net
  end.

Definition runAsync (fuel : nat) (target : jsval) (inputs : list RunInput)
  : Net jsval :=
  (createJob <- _fetch (url self +:+ "/v1/graph/job/create")
                       (Some (init_of "GET" None)) ;;
   if negb (status createJob =? 200) then
     nthrow (FetchError (statusText createJob) (status createJob))
   else
     created <- lift (json createJob) ;;
     jobId <- lift (prop created "jobId") ;;
     uploadUrl <- lift (prop created "uploadUrl") ;;
     _ <- fetch (js_to_string uploadUrl)
                (Some (init_of "PUT" (run_body target inputs))) ;;
     response <- _fetch (url self +:+ "/v1/graph/job/" +:+ js_to_string jobId
                         +:+ "/run?passtoken=1")
                        (Some (init_of "POST" None)) ;;
     if negb (status response =? 200) then
       nthrow (FetchError (statusText response) (status response))
     else await_job fuel)%net.

Definition run (fuel : nat) (target : jsval) (inputs : list RunInput)
  : Net jsval :=
  if negb runSync && negb (String.prefix "http://localhost" (url self)) then
    runAsync fuel target inputs
  else
    (response <- _fetch (url self +:+ "/v1/graph/run")
                        (Some (init_of "POST" (run_body target inputs))) ;;
     lift (json response))%net.

Definition folder (path : string) : Net jsval :=
  (res <- _fetch (url self +:+ "/v1/graph-folder/info")
                 (Some (init_of "POST"
                          (ser (VObj [("path", VStr (double_backslashes path))])))) ;;
   lift (json res))%net.

Definition info (target : jsval) : Net jsval :=
  (response <- _fetch (url self +:+ "/v1/graph/info")
                      (Some (init_of "POST" (info_body target))) ;;
   if status response =? 200 then lift (json response)
   else
     body <- lift (json response) ;;
     nthrow (FetchError
               (js_to_string (js_or (opt_prop body "title")
                                    (VStr (statusText response))))
               (status response)))%net.

Definition trust (path : string) : Net jsval :=
  (response <- _fetch (url self +:+ "/v1/settings/trusted-folder")
                      (Some (init_of "POST" (ser (VObj [("path", VStr path)])))) ;;
   lift (json response))%net.

Definition serverInfo : Net jsval :=
  (response <- _fetch (url self +:+ "/v1/server-info") None ;;
   lift (json response))%net.

End Client.

(** ** Loading a script ([useScript] of [LocalScript.tsx]) *)

Inductive Script : Type :=
| FolderGraph (id : string)
| JSONGraph (graph : jsval).

Inductive ScriptResult : Type :=
| SInit
| SLoading
| SError (data : jsval)
| SLoaded (data : jsval).

Definition script_target (script : Script) : jsval :=
  match script with
  | JSONGraph graph => VObj [("type", VStr "JsonGraphTarget"); ("graph", graph)]
  | FolderGraph id => VObj [("path", VStr id); ("type", VStr "PathGraphTarget")]
  end.

(** The state that the [then] or the [catch] handler of [reload] sets;
    while the promise is pending the state stays [loading]. *)
Definition settle (o : Outcome jsval) : ScriptResult :=
  match o with
  | Ret data => SLoaded data
  | Throw err =>
      if bool_decide (exn_status err = Some 500)
         && String.eqb (exn_message err) "Graph is not trusted."
      then SError (VStr "GRAPH_NOT_TRUSTED")
      else SError (VStr (exn_message err))
  | OutOfFuel => SLoading
  end.

Definition reload (srv : Server) (dynamo : Dynamo) (script : Script)
  : Net ScriptResult :=
  fun tr =>
    let r := info srv dynamo (script_target script) tr in
    (Ret (settle (fst r)), snd r).

(** ** Input materializer (the [code.inputs.map] callback of [onRun]) *)

Record Input : Type := {
  input_id : string;
  input_name : string;
  input_type : string
}.

(** The objects behind the typed records, as [JSON.stringify] meets them,
    with the members that the records keep. *)
Definition js_of_transform (t : Transform) : jsval := VArr (map VNum t).

Definition js_of_feature (f : Volume25D) : jsval :=
  VObj [("id", VStr (f_id f));
        ("properties",
         VObj [("height", VNum (f_height f));
               ("elevation", match f_elevation f with
                             | Some e => VNum e
                             | None => VUndef
                             end)]);
        ("geometry", VObj [("coordinates", VArr (f_coordinates f))])].

Definition js_of_collection (fc : FeatureCollection) : jsval :=
  VObj [("type", VStr "FeatureCollection");
        ("features", VArr (map js_of_feature (features fc)))].

Definition js_of_option {A} (f : A -> jsval) (o : option A) : jsval :=
  match o with
  | Some a => f a
  | None => VUndef
  end.

Definition js_of_representation (r : Representation) : jsval :=
  match r with
  | Linked blobId sel =>
      VObj [("type", VStr "linked"); ("blobId", VStr blobId);
            ("selection", js_of_option js_of_selection sel)]
  | EmbeddedJson data sel =>
      VObj [("type", VStr "embedded-json");
            ("data", js_of_option js_of_collection data);
            ("selection", js_of_option js_of_selection sel)]
  | OtherRepresentation t sel =>
      VObj [("type", VStr t); ("selection", js_of_option js_of_selection sel)]
  end.

Definition js_of_child (c : Child) : jsval :=
  VObj [("key", VStr (key c)); ("urn", VStr (child_urn c))].

Definition js_of_element (el : Element) : jsval :=
  VObj ([("urn", VStr (urn el));
         ("children", js_of_option (fun cs => VArr (map js_of_child cs)) (children el));
         ("representations",
          js_of_option
            (fun reps => VObj [("volume25DCollection",
                                js_of_option js_of_representation
                                             (volume25DCollection reps))])
            (representations el))]
        ++ members el).

(** One entry of what [readElementsByPaths] returns. *)
Record PathBundle : Type := {
  b_element : option Element;
  b_triangles : option (list Z);
  b_footprints : option (list jsval);
  b_volume25DCollection : option FeatureCollection
}.

Definition js_of_bundle (b : PathBundle) : jsval :=
  VObj [("element", js_of_option js_of_element (b_element b));
        ("triangles", js_of_option (fun t => VArr (map VNum t)) (b_triangles b));
        ("footprints", js_of_option VArr (b_footprints b));
        ("volume25DCollection",
         js_of_option js_of_collection (b_volume25DCollection b))].

(** [(v as string[])]: the paths held by the UI state.  A value that is
    not an array has no [map] (TypeError); an entry that is not a string
    is taken to be refused in the same way. *)
Fixpoint strings_of (l : list jsval) : Outcome (list string) :=
  match l with
  | [] => Ret []
  | VStr s :: l' => (ss <- strings_of l' ;; Ret (s :: ss))%out
  | _ :: _ => Throw (TypeError "path is not a string")
  end.

Definition as_paths (v : jsval) : Outcome (list string) :=
  match v with
  | VArr l => strings_of l
  | _ => Throw (TypeError "value.map is not a function")
  end.

(** [const [path] = paths]; with no path at all the host would be asked
    about an undefined path, which is taken to reject. *)
Definition first_path (paths : list string) : Outcome string :=
  match paths with
  | p :: _ => Ret p
  | [] => Throw (HostError "path is undefined")
  end.

(** [[...x]] of a value that may be absent. *)
Definition spread {A} (x : option (list A)) : Outcome (list A) :=
  match x with
  | Some l => Ret l
  | None => Throw (TypeError "undefined is not iterable")
  end.

Section Materializer.

Variable host : Host.
Variable transformCoordinates : Transform -> jsval -> jsval.
(** fuel handed to the two tree walks *)
Variable fuel : nat.
(** the UI state: [state[id]] *)
Variable state : gmap string jsval.

Definition readElementsByPaths (paths : list string) : Outcome (list PathBundle) :=
  (elements <- Promise_all (settles_first host)
                 (fun path => got <- getByPath host path false ;; Ret (fst got))
                 paths ;;
   triangles <- Promise_all (settles_first host)
                  (fun path => getTriangles host None path) paths ;;
   footprints <- Promise_all (settles_first host)
                   (fun path => getFootprint host None path) paths ;;
   volume25DCollections <-
     Promise_all (settles_first host)
       (getVolume25DForSubTree host transformCoordinates fuel) paths ;;
   Ret (imap (fun index _ =>
                {| b_element := mjoin (elements !! index);
                   b_triangles := mjoin (triangles !! index);
                   b_footprints := mjoin (footprints !! index);
                   b_volume25DCollection := mjoin (volume25DCollections !! index) |})
             paths))%out.

Definition element_entry (path : string) : Outcome (string * jsval) :=
  (got <- getByPath host path false ;;
   worldTransform <-
     (if String.eqb path "root" then Ret identityTransform
      else getWorldTransform host path) ;;
   Ret (match fst got with
        | Some el => urn el
        | None => "undefined"
        end, js_of_transform worldTransform))%out.

(** [urn] is the root URN read once at the start of [onRun]. *)
Definition materialize (urn0 : string) (input : Input) : Outcome RunInput :=
  let id := input_id input in
  let type := input_type input in
  let name := input_name input in
  let value := default VUndef (state !! id) in
  let region := VStr (getRegion host) in
  (if String.eqb type "SelectElementsExperimental" then
     paths <- as_paths (js_or value (VArr [])) ;;
     elements <- Promise_all (settles_first host) element_entry paths ;;
     let elementMap :=
       fold_left (fun m e => obj_set (fst e) (snd e) m) elements [] in
     Ret {| nodeId := id;
            value := JSON_stringify
                       (VObj [("elements", VObj elementMap); ("region", region)]) |}
   else if String.eqb type "GetAllElementsExperimental" then
     urn <- getRootUrn host ;;
     Ret {| nodeId := id;
            value := JSON_stringify (VObj [("urn", VStr urn); ("region", region)]) |}
   else if String.eqb type "GetProjectExperimental" then
     Ret {| nodeId := id;
            value := JSON_stringify
                       (VObj [("projectId", VStr (getProjectId host));
                              ("region", region)]) |}
   else if String.eqb type "GetTerrainExperimental" then
     paths <- getPathsByCategory host "terrain" ;;
     path <- first_path paths ;;
     got <- getByPath host path false ;;
     transform <- getWorldTransform host path ;;
     match fst got with
     | None => Throw (TypeError "Cannot read properties of undefined")
     | Some element =>
         Ret {| nodeId := id;
                value := JSON_stringify
                           (VObj [("elements",
                                   VObj [(urn element, js_of_transform transform)]);
                                  ("region", region)]) |}
     end
   else if String.eqb type "FormaSelectElements"
           || String.eqb type "FormaSelectElement"
           || String.eqb type "SelectElements" then
     paths <- as_paths (js_or value (VArr [])) ;;
     elements <- readElementsByPaths paths ;;
     Ret {| nodeId := id;
            value := JSON_stringify (VArr (map js_of_bundle elements)) |}
   else if String.eqb name "GetFormaElements"
           || String.eqb type "GetAllElements" then
     paths <- getAllPaths host fuel ;;
     elements <- readElementsByPaths paths ;;
     Ret {| nodeId := id;
            value := JSON_stringify (VArr (map js_of_bundle elements)) |}
   else if String.eqb type "FormaTerrain" then
     paths <- getPathsByCategory host "terrain" ;;
     path <- first_path paths ;;
     found <- getTriangles host None path ;;
     triangles <- spread found ;;
     Ret {| nodeId := id;
            value := JSON_stringify (VArr [VArr (map VNum triangles)]) |}
   else if String.eqb type "GetTerrain" then
     paths <- getPathsByCategory host "terrain" ;;
     elements <- readElementsByPaths paths ;;
     Ret {| nodeId := id;
            value := JSON_stringify
                       (js_of_option js_of_bundle (head elements)) |}
   else if String.eqb type "FormaProject" || String.eqb type "GetProject" then
     project <- project_get host ;;
     Ret {| nodeId := id; value := JSON_stringify project |}
   else if String.eqb name "Triangles"
           || String.eqb type "FormaSelectGeometry" then
     paths <- as_paths value ;;
     triangles <- Promise_all (settles_first host)
                    (fun path => found <- getTriangles host (Some urn0) path ;;
                                 spread found) paths ;;
     Ret {| nodeId := id;
            value := JSON_stringify
                       (VArr (map (fun t => VArr (map VNum t)) triangles)) |}
   else if String.eqb name "Footprint"
           || String.eqb type "FormaSelectFootprints" then
     paths <- as_paths value ;;
     footprints <- Promise_all (settles_first host)
                     (fun path => found <- getFootprint host (Some urn0) path ;;
                                  spread found) paths ;;
     Ret {| nodeId := id;
            value := JSON_stringify (VArr (map VArr footprints)) |}
   else if String.eqb name "Metrics"
           || String.eqb type "FormaSelectMetrics"
           || String.eqb type "SelectMetrics" then
     metrics <- areaMetrics_calculate host value ;;
     Ret {| nodeId := id; value := JSON_stringify metrics |}
   else
     Ret {| nodeId := id; value := value |})%out.

(** [const urn = await Forma.proposal.getRootUrn()] followed by
    [Promise.all(code.inputs.map(...))] *)
Definition materialize_inputs (inputs : list Input) : Outcome (list RunInput) :=
  (urn <- getRootUrn host ;;
   Promise_all (settles_first host) (materialize urn) inputs)%out.

End Materializer.

(** ** Reading JSON text

    [JSON.parse] for the texts built from the values of [jsval]: numbers
    are integers in the decimal form [JSON.stringify] gives them, a
    [\u] escape must denote a character below 256, and the members of an
    object are kept in the order of the text. *)

Definition is_ws (c : ascii) : bool :=
  Ascii.eqb c " " || Ascii.eqb c "009" || Ascii.eqb c "010" || Ascii.eqb c "013".

Fixpoint skip_ws (s : string) : string :=
  match s with
  | EmptyString => EmptyString
  | String c s' => if is_ws c then skip_ws s' else s
  end.

Definition unescape (e : ascii) : option ascii :=
  if Ascii.eqb e dquote then Some dquote
  else if Ascii.eqb e backslash then Some backslash
  else if Ascii.eqb e "/" then Some "/"%char
  else if Ascii.eqb e "b" then Some "008"%char
  else if Ascii.eqb e "f" then Some "012"%char
  else if Ascii.eqb e "n" then Some "010"%char
  else if Ascii.eqb e "r" then Some "013"%char
  else if Ascii.eqb e "t" then Some "009"%char
  else None.

Definition unhex (c : ascii) : option nat :=
  let n := nat_of_ascii c in
  if ((48 <=? n) && (n <=? 57))%nat then Some (n - 48)%nat
  else if ((97 <=? n) && (n <=? 102))%nat then Some (n - 87)%nat
  else if ((65 <=? n) && (n <=? 70))%nat then Some (n - 55)%nat
  else None.

(** The characters of a string literal, after its opening quote, up to
    the closing one. *)
Fixpoint parse_chars (s : string) : option (string * string) :=
  match s with
  | EmptyString => None
  | String c s' =>
      if Ascii.eqb c dquote then Some (EmptyString, s')
      else if Ascii.eqb c backslash then
        match s' with
        | EmptyString => None
        | String e s'' =>
            if Ascii.eqb e "u" then
              match s'' with
              | String h1 (String h2 (String h3 (String h4 s3))) =>
                  match unhex h1, unhex h2, unhex h3, unhex h4 with
                  | Some O, Some O, Some a, Some b =>
                      match parse_chars s3 with
                      | Some (r, rest) =>
                          Some (String (ascii_of_nat (16 * a + b)) r, rest)
                      | None => None
                      end
                  | _, _, _, _ => None
                  end
              | _ => None
              end
            else
              match unescape e with
              | Some ch =>
                  match parse_chars s'' with
                  | Some (r, rest) => Some (String ch r, rest)
                  | None => None
                  end
              | None => None
              end
        end
      else if (nat_of_ascii c <? 32)%nat then None
      else
        match parse_chars s' with
        | Some (r, rest) => Some (String c r, rest)
        | None => None
        end
  end.

Definition is_num_char (c : ascii) : bool :=
  Ascii.eqb c "-" || ((48 <=? nat_of_ascii c) && (nat_of_ascii c <=? 57))%nat.

Fixpoint take_number (s : string) : string * string :=
  match s with
  | EmptyString => (EmptyString, EmptyString)
  | String c s' =>
      if is_num_char c
      then let (ds, rest) := take_number s' in (String c ds, rest)
      else (EmptyString, s)
  end.

(** A number: the longest run of sign and digits, which must be the
    decimal form of the integer it denotes. *)
Definition parse_number (s : string) : option (Z * string) :=
  let (ds, rest) := take_number s in
  match NilZero.int_of_string ds with
  | Some d =>
      if String.eqb (string_of_Z (Z.of_int d)) ds
      then Some (Z.of_int d, rest)
      else None
  | None => None
  end.

(** [s] starts with [word]: what follows it. *)
Fixpoint expect (word s : string) : option string :=
  match word with
  | EmptyString => Some s
  | String w word' =>
      match s with
      | String c s' => if Ascii.eqb c w then expect word' s' else None
      | EmptyString => None
      end
  end.

(** The next character that is not white space, and what follows it. *)
Definition peek (s : string) : option (ascii * string) :=
  match skip_ws s with
  | EmptyString => None
  | String c rest => Some (c, rest)
  end.

Fixpoint parse_value (fuel : nat) (s : string) : option (jsval * string) :=
  match fuel with
  | O => None
  | S fuel' =>
      match peek s with
      | None => None
      | Some (c, rest) =>
          if Ascii.eqb c "n" then
            match expect "ull" rest with
            | Some r => Some (VNull, r)
            | None => None
            end
          else if Ascii.eqb c "t" then
            match expect "rue" rest with
            | Some r => Some (VBool true, r)
            | None => None
            end
          else if Ascii.eqb c "f" then
            match expect "alse" rest with
            | Some r => Some (VBool false, r)
            | None => None
            end
          else if Ascii.eqb c dquote then
            match parse_chars rest with
            | Some (str, r) => Some (VStr str, r)
            | None => None
            end
          else if Ascii.eqb c "[" then
            match peek rest with
            | None => None
            | Some (c', r) =>
                if Ascii.eqb c' "]" then Some (VArr [], r)
                else
                  match parse_items fuel' rest with
                  | Some (vs, r') => Some (VArr vs, r')
                  | None => None
                  end
            end
          else if Ascii.eqb c "{" then
            match peek rest with
            | None => None
            | Some (c', r) =>
                if Ascii.eqb c' "}" then Some (VObj [], r)
                else
                  match parse_members fuel' rest with
                  | Some (fs, r') => Some (VObj fs, r')
                  | None => None
                  end
            end
          else if is_num_char c then
            match parse_number (String c rest) with
            | Some (n, r) => Some (VNum n, r)
            | None => None
            end
          else None
      end
  end

with parse_items (fuel : nat) (s : string) : option (list jsval * string) :=
  match fuel with
  | O => None
  | S fuel' =>
      match parse_value fuel' s with
      | None => None
      | Some (v, r) =>
          match peek r with
          | None => None
          | Some (c, r') =>
              if Ascii.eqb c "," then
                match parse_items fuel' r' with
                | Some (vs, r'') => Some (v :: vs, r'')
                | None => None
                end
              else if Ascii.eqb c "]" then Some ([v], r')
              else None
          end
      end
  end

with parse_members (fuel : nat) (s : string)
  : option (list (string * jsval) * string) :=
  match fuel with
  | O => None
  | S fuel' =>
      match peek s with
      | None => None
      | Some (c, r0) =>
          if Ascii.eqb c dquote then
            match parse_chars r0 with
            | None => None
            | Some (k, r1) =>
                match peek r1 with
                | None => None
                | Some (c1, r2) =>
                    if Ascii.eqb c1 ":" then
                      match parse_value fuel' r2 with
                      | None => None
                      | Some (v, r3) =>
                          match peek r3 with
                          | None => None
                          | Some (c3, r4) =>
                              if Ascii.eqb c3 "," then
                                match parse_members fuel' r4 with
                                | Some (fs, r5) => Some ((k, v) :: fs, r5)
                                | None => None
                                end
                              else if Ascii.eqb c3 "}" then Some ([(k, v)], r4)
                              else None
                          end
                      end
                    else None
                end
            end
          else None
      end
  end.

(** [JSON.parse(s)] *)
Definition JSON_parse (s : string) : Outcome jsval :=
  match parse_value (S (String.length s)) s with
  | Some (v, rest) =>
      match skip_ws rest with
      | EmptyString => Ret v
      | _ => Throw (SyntaxError "Unexpected non-whitespace character after JSON")
      end
  | None => Throw (SyntaxError "Unexpected token in JSON")
  end.

(** The text of an array entry. *)
Definition text_of (v : jsval) : string := default "null" (ser v).

(** What comes back from writing a value and reading the text: inside an
    array an undefined entry has become [null], and an object has lost
    its undefined members. *)
Definition fill (v : jsval) : jsval :=
  match v with
  | VUndef => VNull
  | _ => v
  end.

Fixpoint norm (v : jsval) : jsval :=
  match v with
  | VArr l => VArr (map (fun x => match x with
                                  | VUndef => VNull
                                  | _ => norm x
                                  end) l)
  | VObj fs =>
      VObj (flat_map (fun kv => match snd kv with
                                | VUndef => []
                                | _ => [(fst kv, norm (snd kv))]
                                end) fs)
  | _ => v
  end.

(** ** Default values of the inputs ([getDefaultValues] of [LocalScript.tsx]) *)

(** A declared input of the graph info, with the [value] it declares; an
    absent value is falsy like the empty string. *)
Record DeclaredInput : Type := {
  declared : Input;
  declared_value : string
}.

(** The value that the loop of [getDefaultValues] stores for an input. *)
Definition default_value (input : DeclaredInput) : jsval :=
  if String.eqb (input_type (declared input)) "boolean" then
    VBool (String.eqb (declared_value input) "true")
  else if String.eqb (input_type (declared input)) "DSDropDownBase"
          || String.eqb (input_type (declared input)) "CustomSelection" then
    VStr (hd EmptyString (split ":" (declared_value input)))
  else VStr (declared_value input).

Section Defaults.

(** [isSelect] and [isGet] of [utils/node.js], whose code is not part of
    the sources at hand. *)
Variable isSelect : DeclaredInput -> bool.
Variable isGet : DeclaredInput -> bool.

(** The [for (const input of inputs)] loop, on the state built so far. *)
Fixpoint default_values (inputs : list DeclaredInput) (state : gmap string jsval)
  : gmap string jsval :=
  match inputs with
  | [] => state
  | input :: inputs' =>
      if isSelect input || isGet input then default_values inputs' state
      else if negb (String.eqb (declared_value input) "") then
        default_values inputs'
                       (<[input_id (declared input) := default_value input]> state)
      else default_values inputs' state
  end.

(** [scriptInfo] is [Some inputs] when its type is [loaded], [inputs]
    being [scriptInfo.data.inputs || []]. *)
Definition getDefaultValues (scriptInfo : option (list DeclaredInput))
  : gmap string jsval :=
  match scriptInfo with
  | Some inputs => default_values inputs ∅
  | None => ∅
  end.

End Defaults.

(** ** Running the graph ([onRun] of [LocalScript.tsx]) *)

(** The part of the loaded graph info that [onRun] reads. *)
Record GraphInfo : Type := {
  graph_id : string;
  graph_inputs : list Input
}.

Inductive RunResult : Type :=
| RunInit
| Running
| RunSuccess (data : jsval)
| RunError (data : Exn).

(** The target that [onRun] builds. *)
Definition run_target (script : Script) (code : GraphInfo) : jsval :=
  match script with
  | FolderGraph _ =>
      VObj [("type", VStr "PathGraphTarget"); ("path", VStr (graph_id code))]
  | JSONGraph graph =>
      VObj [("type", VStr "JsonGraphTarget"); ("contents", JSON_stringify graph)]
  end.

(** What [onRun] leaves behind: the [result] state and the exceptions
    handed to [captureException]. *)
Record RunReport : Type := {
  report_result : RunResult;
  captured : list Exn
}.

Section OnRun.

Variable host : Host.
Variable transformCoordinates : Transform -> jsval -> jsval.
Variable fuel : nat.
Variable srv : Server.
Variable runSync : bool.
Variable dynamo : Dynamo.

(** [scriptInfo] is [Some code] when its type is [loaded]; [result] is the
    state before the call.  While a promise is pending (the fuel of the
    model ran out) the state stays [running]. *)
Definition onRun (scriptInfo : option GraphInfo) (state : gmap string jsval)
           (script : Script) (result : RunResult)
  : list Event -> RunReport * list Event :=
  fun tr =>
    match scriptInfo with
    | None => ({| report_result := result; captured := [] |}, tr)
    | Some code =>
        match materialize_inputs host transformCoordinates fuel state
                                 (graph_inputs code) with
        | Ret inputs =>
            let r := run srv runSync dynamo fuel (run_target script code) inputs tr in
            match fst r with
            | Ret data => ({| report_result := RunSuccess data; captured := [] |}, snd r)
            | Throw e => ({| report_result := RunError e; captured := [e] |}, snd r)
            | OutOfFuel => ({| report_result := Running; captured := [] |}, snd r)
            end
        | Throw e => ({| report_result := RunError e; captured := [e] |}, tr)
        | OutOfFuel => ({| report_result := Running; captured := [] |}, tr)
        end
    end.

End OnRun.

(** ** Notions used to state the properties *)

Section Quiet.

Variable host : Host.
Variable elements : gmap string Element.

(** The node at [path] yields no feature: its representation resolves to
    no collection, or to a collection of which the selection keeps
    nothing. *)
Definition contributes_nothing (path : string) (el : Element) : Prop :=
  loadVolume25Collection host (volume25DCollectionRep el) = Ret None \/
  exists collection transform selectionPredicate,
    loadVolume25Collection host (volume25DCollectionRep el) = Ret (Some collection) /\
    getWorldTransform host path = Ret transform /\
    createSelectionPredicate (volume25DCollectionRep el ≫= rep_selection)
    = Ret selectionPredicate /\
    List.filter (fun f => selectionPredicate (f_id f)) (features collection) = [].

(** The subtree below [path], of depth less than [depth], is all there
    in the store and none of its nodes yields a feature. *)
Fixpoint quiet (depth : nat) (path : string) (element : option Element) : Prop :=
  match depth with
  | O => False
  | S depth' =>
      exists el,
        element = Some el /\
        contributes_nothing path el /\
        Forall (fun child =>
                  quiet depth' (path +:+ "/" +:+ key child)
                        (elements !! child_urn child))
               (default [] (children el))
  end.

End Quiet.

Definition featureless (cs : list FeatureCollection) : Prop :=
  Forall (fun c => features c = []) cs.

(** Walking [entries] off the top of the stack takes some number of
    iterations and adds only collections without features. *)
Definition consumed (host : Host) (tc : Transform -> jsval -> jsval)
           (elements : gmap string Element)
           (entries : list (string * option Element)) : Prop :=
  forall rest cols,
  exists k cs,
    featureless cs /\
    forall fuel,
      walk host tc elements (k + fuel) (entries ++ rest) cols
      = walk host tc elements fuel rest (cols ++ cs).

(** A selection rule of kind [t] with value [v]. *)
Definition rule (t v : string) : option RepresentationSelection :=
  Some {| sel_type := Some t; sel_value := v |}.

(** The statement that a subtree yielding no feature makes the loader
    return no collection. *)
Definition absent_when_quiet (host : Host) (tc : Transform -> jsval -> jsval)
           (path : string) : Prop :=
  forall got depth,
    getByPath host path true = Ret got ->
    quiet host (snd got) depth path (fst got) ->
    exists fuel0, forall fuel, (fuel0 <= fuel)%nat ->
      getVolume25DForSubTree host tc fuel path = Ret None.

(** *** Paths of the element hierarchy *)

Fixpoint slash_free (s : string) : bool :=
  match s with
  | EmptyString => true
  | String c s' => negb (Ascii.eqb c "/") && slash_free s'
  end.

Section Hierarchy.

Variable rootUrn : string.
Variable elements : gmap string Element.

Definition kids (el : Element) : list Child := default [] (children el).

(** [p] is reached from the root by following child keys; [u] is the URN
    it lands on. *)
Inductive reaches : string -> string -> Prop :=
| reaches_root : reaches "root" rootUrn
| reaches_child p u el child :
    reaches p u ->
    elements !! u = Some el ->
    In child (kids el) ->
    reaches (p +:+ "/" +:+ key child) (child_urn child).

Definition reachable (p : string) : Prop := exists u, reaches p u.

(** The store below [u] is an element tree of depth at most [depth]:
    every element referred to is there, and the children of an element
    have distinct keys, none of which holds the path delimiter. *)
Fixpoint tree_like (depth : nat) (u : string) : bool :=
  match depth with
  | O => false
  | S depth' =>
      match elements !! u with
      | None => false
      | Some el =>
          bool_decide (NoDup (map key (kids el)))
          && forallb (fun child => slash_free (key child)
                                   && tree_like depth' (child_urn child))
                     (kids el)
      end
  end.

(** Pre-order listing of the paths below [u], itself reached as [path]:
    the node first, then the subtrees of its children in order. *)
Fixpoint preorder (depth : nat) (u : string) (path : string) : list string :=
  match depth with
  | O => []
  | S depth' =>
      match elements !! u with
      | None => []
      | Some el =>
          path :: flat_map (fun child =>
                              preorder depth' (child_urn child)
                                       (path +:+ "/" +:+ key child))
                           (kids el)
      end
  end.

(** The same listing as key sequences relative to [u]. *)
Fixpoint key_walk (depth : nat) (u : string) : list (list string) :=
  match depth with
  | O => []
  | S depth' =>
      match elements !! u with
      | None => []
      | Some el =>
          [] :: flat_map (fun child =>
                            map (cons (key child))
                                (key_walk depth' (child_urn child)))
                         (kids el)
      end
  end.

(** Following the key sequence [ks] from [u] lands on [u']. *)
Inductive follows : string -> list string -> string -> Prop :=
| follows_nil u : follows u [] u
| follows_cons u el child ks u' :
    elements !! u = Some el ->
    In child (kids el) ->
    follows (child_urn child) ks u' ->
    follows u (key child :: ks) u'.

End Hierarchy.

(** [base/k1/.../kn] *)
Definition extend (base : string) (ks : list string) : string :=
  fold_left (fun p k => p +:+ "/" +:+ k) ks base.

Definition render (ks : list string) : string := extend "root" ks.

(** *** Requests of the client *)

(** The operations of the [DynamoService] interface. *)
Inductive Call : Type :=
| CallRun (fuel : nat) (target : jsval) (inputs : list RunInput)
| CallFolder (path : string)
| CallInfo (target : jsval)
| CallTrust (path : string)
| CallServerInfo.

Definition perform (srv : Server) (runSync : bool) (dynamo : Dynamo) (c : Call)
  : Net jsval :=
  match c with
  | CallRun fuel target inputs => run srv runSync dynamo fuel target inputs
  | CallFolder path => folder srv dynamo path
  | CallInfo target => info srv dynamo target
  | CallTrust path => trust srv dynamo path
  | CallServerInfo => serverInfo srv dynamo
  end.

Definition is_server_info (c : Call) : bool :=
  match c with
  | CallServerInfo => true
  | _ => false
  end.

(** The requests of a trace, in the order they were sent. *)
Fixpoint requests (tr : list Event) : list Request :=
  match tr with
  | [] => []
  | Fetched r :: tr' => r :: requests tr'
  | Slept _ :: tr' => requests tr'
  end.

Definition sleeps (tr : list Event) : nat :=
  length (List.filter (fun e => match e with Slept _ => true | _ => false end) tr).

(** The request carries the Authorization header [token]. *)
Definition stamped (token : string) (r : Request) : Prop :=
  headers_get (req_headers r) "Authorization" = Some token.

(** The statement that, with a token provider configured, every request
    of a call is stamped. *)
Definition all_stamped (srv : Server) (runSync : bool) (dynamo : Dynamo)
           (c : Call) : Prop :=
  forall token,
    authProvider dynamo = Some (Ret token) ->
    forall r, In r (requests (snd (perform srv runSync dynamo c []))) ->
              stamped token r.

(** The server [srv], except that the upload is answered by [r]. *)
Definition with_upload_response (r : Response) (srv : Server) : Server :=
  fun tr request =>
    if String.eqb (req_method request) "PUT" then Ret r else srv tr request.

Definition plain_request (m u : string) (b : option string) : Request :=
  {| req_url := u; req_method := m; req_headers := []; req_body := b |}.

Definition polls (base jobId : string) (tr : list Event) : nat :=
  length (List.filter
            (fun r => String.eqb (req_url r) (base +:+ "/v1/graph/results/" +:+ jobId))
            (requests tr)).

(** *** Failure of the info request *)

(** The message that the statement under test expects on the error: the
    title of the body, or the status text when there is none. *)
Definition title_or_statusText (response : Response) : string :=
  match json response with
  | Ret body =>
      match opt_prop body "title" with
      | VUndef | VNull => statusText response
      | title => js_to_string title
      end
  | _ => statusText response
  end.

Definition info_throws_titled (srv : Server) (dynamo : Dynamo) (target : jsval)
  : Prop :=
  forall response,
    fst (_fetch srv dynamo (url dynamo +:+ "/v1/graph/info")
                (Some (init_of "POST" (info_body target))) []) = Ret response ->
    status response <> 200 ->
    fst (info srv dynamo target [])
    = Throw (FetchError (title_or_statusText response) (status response)).

(** *** JSON text *)

(** What may follow the text of a number. *)
Definition number_safe (rest : string) : Prop :=
  match rest with
  | EmptyString => True
  | String c _ => is_num_char c = false
  end.

(** A character on which a value can start. *)
Definition starts_value (c : ascii) : bool :=
  negb (is_ws c) && negb (Ascii.eqb c "]") && negb (Ascii.eqb c "}").

Definition member_text (m : string * jsval) : string :=
  quote (fst m) +:+ ":" +:+ text_of (snd m).

Definition defined (v : jsval) : bool :=
  match v with
  | VUndef => false
  | _ => true
  end.

(** The members that [JSON.stringify] writes. *)
Definition present (fs : list (string * jsval)) : list (string * jsval) :=
  List.filter (fun kv => defined (snd kv)) fs.

(** Reading back, with [fuel], the text of a value, of the entries of an
    array and of the members of an object. *)
Definition reads_values (fuel : nat) : Prop :=
  forall v t rest,
    ser v = Some t ->
    (String.length t < fuel)%nat ->
    number_safe rest ->
    parse_value fuel (t +:+ rest) = Some (norm v, rest).

Definition reads_items (fuel : nat) : Prop :=
  forall x l rest,
    (String.length (join "," (map text_of (x :: l))) + 1 < fuel)%nat ->
    parse_items fuel (join "," (map text_of (x :: l)) +:+ String "]" rest)
    = Some (map (fun y => norm (fill y)) (x :: l), rest).

Definition reads_members (fuel : nat) : Prop :=
  forall m ms rest,
    Forall (fun m => defined (snd m) = true) (m :: ms) ->
    (String.length (join "," (map member_text (m :: ms))) + 1 < fuel)%nat ->
    parse_members fuel (join "," (map member_text (m :: ms)) +:+ String "}" rest)
    = Some (map (fun m => (fst m, norm (snd m))) (m :: ms), rest).

(** *** Materialized inputs *)

(** The extraction strategies of the materializer, one for each test of
    the callback of [onRun], in the order of the tests. *)
Inductive Strategy : Type :=
| ElementSelection
| WholeModel
| ProjectOnly
| TerrainElement
| PathSelection
| AllElements
| TerrainTriangles
| TerrainBundle
| Project
| SelectedTriangles
| SelectedFootprints
| Metrics.

(** The strategy that the type and the name of an input select; none for
    an input that falls through. *)
Definition strategy_of (input : Input) : option Strategy :=
  let type := input_type input in
  let name := input_name input in
  if String.eqb type "SelectElementsExperimental" then Some ElementSelection
  else if String.eqb type "GetAllElementsExperimental" then Some WholeModel
  else if String.eqb type "GetProjectExperimental" then Some ProjectOnly
  else if String.eqb type "GetTerrainExperimental" then Some TerrainElement
  else if String.eqb type "FormaSelectElements"
          || String.eqb type "FormaSelectElement"
          || String.eqb type "SelectElements" then Some PathSelection
  else if String.eqb name "GetFormaElements"
          || String.eqb type "GetAllElements" then Some AllElements
  else if String.eqb type "FormaTerrain" then Some TerrainTriangles
  else if String.eqb type "GetTerrain" then Some TerrainBundle
  else if String.eqb type "FormaProject" || String.eqb type "GetProject"
  then Some Project
  else if String.eqb name "Triangles"
          || String.eqb type "FormaSelectGeometry" then Some SelectedTriangles
  else if String.eqb name "Footprint"
          || String.eqb type "FormaSelectFootprints" then Some SelectedFootprints
  else if String.eqb name "Metrics"
          || String.eqb type "FormaSelectMetrics"
          || String.eqb type "SelectMetrics" then Some Metrics
  else None.

Section LogicalValue.

Variable host : Host.
Variable transformCoordinates : Transform -> jsval -> jsval.
Variable fuel : nat.
Variable state : gmap string jsval.

(** The logical value of a strategy: what it extracts from the host and
    from the value held for the input, before any encoding.  [held] is
    [state[id]] and [urn0] the root URN read at the start of [onRun]. *)
Definition logical_value (urn0 : string) (input : Input) (s : Strategy)
  : Outcome jsval :=
  let held := default VUndef (state !! input_id input) in
  let region := VStr (getRegion host) in
  let bundles paths :=
    (elements <- readElementsByPaths host transformCoordinates fuel paths ;;
     Ret (map js_of_bundle elements))%out in
  match s with
  | ElementSelection =>
      (* the world transform of each selected path under the URN of its
         element, a later path replacing an earlier one of the same URN *)
      (paths <- as_paths (js_or held (VArr [])) ;;
       entries <- Promise_all (settles_first host) (element_entry host) paths ;;
       Ret (VObj [("elements",
                   VObj (fold_left (fun m e => obj_set (fst e) (snd e) m)
                                   entries []));
                  ("region", region)]))%out
  | WholeModel =>
      (urn <- getRootUrn host ;;
       Ret (VObj [("urn", VStr urn); ("region", region)]))%out
  | ProjectOnly =>
      Ret (VObj [("projectId", VStr (getProjectId host)); ("region", region)])
  | TerrainElement =>
      (paths <- getPathsByCategory host "terrain" ;;
       path <- first_path paths ;;
       got <- getByPath host path false ;;
       transform <- getWorldTransform host path ;;
       match fst got with
       | None => Throw (TypeError "Cannot read properties of undefined")
       | Some element =>
           Ret (VObj [("elements",
                       VObj [(urn element, js_of_transform transform)]);
                      ("region", region)])
       end)%out
  | PathSelection =>
      (paths <- as_paths (js_or held (VArr [])) ;;
       elements <- bundles paths ;;
       Ret (VArr elements))%out
  | AllElements =>
      (paths <- getAllPaths host fuel ;;
       elements <- bundles paths ;;
       Ret (VArr elements))%out
  | TerrainTriangles =>
      (paths <- getPathsByCategory host "terrain" ;;
       path <- first_path paths ;;
       found <- getTriangles host None path ;;
       triangles <- spread found ;;
       Ret (VArr [VArr (map VNum triangles)]))%out
  | TerrainBundle =>
      (paths <- getPathsByCategory host "terrain" ;;
       elements <- bundles paths ;;
       Ret (default VUndef (head elements)))%out
  | Project => project_get host
  | SelectedTriangles =>
      (paths <- as_paths held ;;
       triangles <- Promise_all (settles_first host)
                      (fun path => found <- getTriangles host (Some urn0) path ;;
                                   spread found) paths ;;
       Ret (VArr (map (fun t => VArr (map VNum t)) triangles)))%out
  | SelectedFootprints =>
      (paths <- as_paths held ;;
       footprints <- Promise_all (settles_first host)
                       (fun path => found <- getFootprint host (Some urn0) path ;;
                                    spread found) paths ;;
       Ret (VArr (map VArr footprints)))%out
  | Metrics => areaMetrics_calculate host held
  end.

End LogicalValue.

(** [v] is a string, the JSON text of some value, and reading the text
    gives that value back (without its undefined members). *)
Definition json_encoded (v : jsval) : Prop :=
  exists text payload,
    v = VStr text /\
    ser payload = Some text /\
    JSON_parse text = Ret (norm payload).

(** The statement that whatever [materialize] produces for an input has a
    JSON-encoded value. *)
Definition value_always_json (host : Host) (tc : Transform -> jsval -> jsval)
           (fuel : nat) (state : gmap string jsval) (urn0 : string)
           (input : Input) : Prop :=
  forall ri,
    materialize host tc fuel state urn0 input = Ret ri ->
    json_encoded (value ri).

(** *** Order of the volume collections *)

(** [f] over [xs], all results put end to end; nothing if one is missing. *)
Fixpoint gather {A} (f : A -> option (list FeatureCollection)) (xs : list A)
  : option (list FeatureCollection) :=
  match xs with
  | [] => Some []
  | x :: xs' =>
      match f x, gather f xs' with
      | Some a, Some b => Some (a ++ b)
      | _, _ => None
      end
  end.

Section Traversal.

Variable host : Host.
Variable tc : Transform -> jsval -> jsval.
Variable elements : gmap string Element.

(** What the node at [path] adds to the collections: nothing when its
    representation resolves to no collection, otherwise its selected
    features under the world transform of [path]. *)
Definition node_collections (path : string) (el : Element)
  : Outcome (list FeatureCollection) :=
  (loaded <- loadVolume25Collection host (volume25DCollectionRep el) ;;
   match loaded with
   | None => Ret []
   | Some collection =>
       transform <- getWorldTransform host path ;;
       selectionPredicate <-
         createSelectionPredicate (volume25DCollectionRep el ≫= rep_selection) ;;
       Ret [ {| features :=
                  map (transformFeature tc transform)
                      (List.filter (fun f => selectionPredicate (f_id f))
                                   (features collection)) |} ]
   end)%out.

(** The collections of the subtree below [path], of depth less than
    [depth]: those of the node, then those of the subtrees of its
    children, the last child first. *)
Fixpoint subtree_collections (depth : nat) (path : string)
         (element : option Element) : option (list FeatureCollection) :=
  match depth with
  | O => None
  | S depth' =>
      match element with
      | None => None
      | Some el =>
          match node_collections path el with
          | Ret own =>
              match gather (fun child =>
                              subtree_collections depth'
                                (path +:+ "/" +:+ key child)
                                (elements !! child_urn child))
                           (rev (default [] (children el))) with
              | Some below => Some (own ++ below)
              | None => None
              end
          | _ => None
          end
      end
  end.

(** The node [el] at [p] lies in the subtree below [path], fewer than
    [depth] levels down. *)
Fixpoint in_subtree (depth : nat) (path : string) (element : option Element)
         (p : string) (el : Element) : Prop :=
  match depth with
  | O => False
  | S depth' =>
      match element with
      | None => False
      | Some e =>
          (p = path /\ el = e) \/
          exists child,
            In child (default [] (children e)) /\
            in_subtree depth' (path +:+ "/" +:+ key child)
                       (elements !! child_urn child) p el
      end
  end.

(** The loader meets [feature] at the node [el] at [p]: the volume
    collection of the node loads, [feature] is in it and the selection of
    the representation accepts its id; [transform] is the world transform
    of [p]. *)
Definition loads_feature (p : string) (el : Element) (transform : Transform)
           (feature : Volume25D) : Prop :=
  exists collection accepts,
    loadVolume25Collection host (volume25DCollectionRep el) = Ret (Some collection) /\
    getWorldTransform host p = Ret transform /\
    createSelectionPredicate (volume25DCollectionRep el ≫= rep_selection)
    = Ret accepts /\
    In feature (features collection) /\
    accepts (f_id feature) = true.

(** Walking [entries] off the top of the stack takes some number of
    iterations and adds the collections [cs]. *)
Definition walked (entries : list (string * option Element))
           (cs : list FeatureCollection) : Prop :=
  forall rest cols,
  exists k,
    forall fuel,
      walk host tc elements (k + fuel) (entries ++ rest) cols
      = walk host tc elements fuel rest (cols ++ cs).

End Traversal.

(** *** Calls that do not look at the status *)

(** [folder], [trust], [serverInfo], and [run] in its synchronous mode. *)
Definition status_unchecked (runSync : bool) (dynamo : Dynamo) (c : Call) : bool :=
  match c with
  | CallRun _ _ _ => runSync || String.prefix "http://localhost" (url dynamo)
  | CallInfo _ => false
  | CallFolder _ | CallTrust _ | CallServerInfo => true
  end.

(** The provider is absent or yields a token. *)
Definition provider_ready (dynamo : Dynamo) : Prop :=
  authProvider dynamo = None \/ exists token, authProvider dynamo = Some (Ret token).

Fixpoint count_char (c : ascii) (s : string) : nat :=
  match s with
  | EmptyString => O
  | String d s' => ((if Ascii.eqb d c then 1 else 0) + count_char c s')%nat
  end.

(** The upload request of [runAsync] for the created job [created]. *)
Definition upload_request (created target : jsval) (inputs : list RunInput)
  : Request :=
  plain_request "PUT" (js_to_string (opt_prop created "uploadUrl"))
                (run_body target inputs).

(** What [runAsync] does after job creation. *)
Definition after_creation (srv : Server) (dynamo : Dynamo) (fuel : nat)
           (created target : jsval) (inputs : list RunInput) : Net jsval :=
  (_ <- fetch srv (js_to_string (opt_prop created "uploadUrl"))
              (Some (init_of "PUT" (run_body target inputs))) ;;
   response <- _fetch srv dynamo
                      (url dynamo +:+ "/v1/graph/job/"
                       +:+ js_to_string (opt_prop created "jobId")
                       +:+ "/run?passtoken=1")
                      (Some (init_of "POST" None)) ;;
   if negb (status response =? 200) then
     nthrow (FetchError (statusText response) (status response))
   else await_job fuel)%net.

(** *** Bundles *)

(** The bundle [b] holds what the host and the loader answer for [path]. *)
Definition bundle_of (host : Host) (tc : Transform -> jsval -> jsval)
           (fuel : nat) (path : string) (b : PathBundle) : Prop :=
  (exists got, getByPath host path false = Ret got /\ b_element b = fst got) /\
  getTriangles host None path = Ret (b_triangles b) /\
  getFootprint host None path = Ret (b_footprints b) /\
  getVolume25DForSubTree host tc fuel path = Ret (b_volume25DCollection b) /\
  b_volume25DCollection b <> None.

(** *** Default values *)

(** The declaration [input] stores a default under the id [k]. *)
Definition stores_default (isSelect isGet : DeclaredInput -> bool) (k : string)
           (input : DeclaredInput) : bool :=
  negb (isSelect input || isGet input)
  && negb (String.eqb (declared_value input) "")
  && String.eqb (input_id (declared input)) k.

(** ** Concrete models used by the examples *)

(** Vertical scale 2 (entry 10) and vertical translation 5 (entry 14). *)
Definition lifted_transform : Transform :=
  [1; 0; 0; 0;  0; 1; 0; 0;  0; 0; 2; 0;  0; 0; 5; 1].

Definition raised_feature : Volume25D :=
  {| f_id := "a"; f_height := 10; f_elevation := Some 3; f_coordinates := [] |}.

Definition ground_feature : Volume25D :=
  {| f_id := "b"; f_height := 10; f_elevation := None; f_coordinates := [] |}.

Definition keep_coordinates : Transform -> jsval -> jsval := fun _ c => c.

(** A host serving one snapshot of the element store; of several
    rejections the first in list order settles first. *)
Definition store_host (rootUrn : string) (elements : gmap string Element)
           (transform : Transform) : Host :=
  {| getRootUrn := Ret rootUrn;
     elements_get := fun _ => Ret elements;
     getByPath := fun path _ =>
       (element <- getElementsByPath rootUrn elements path ;;
        Ret (element, elements))%out;
     getWorldTransform := fun _ => Ret transform;
     blob_volume25D := fun _ => Ret None;
     getTriangles := fun _ _ => Ret None;
     getFootprint := fun _ _ => Ret None;
     getPathsByCategory := fun _ => Ret [];
     areaMetrics_calculate := fun _ => Ret (VObj []);
     project_get := Ret (VObj []);
     getRegion := "EMEA";
     getProjectId := "pro_demo";
     settles_first := fun _ => 0%nat |}.

Definition leaf (u : string) : Element :=
  {| urn := u; children := None; representations := None; members := [] |}.

Definition bare_store : gmap string Element := {[ "urn:root" := leaf "urn:root" ]}.

Definition bare_host : Host := store_host "urn:root" bare_store identityTransform.

(** A model whose root carries, embedded, a collection of two features,
    one with an elevation and one without, under [lifted_transform]. *)
Definition volume_store : gmap string Element :=
  {[ "urn:root" :=
       {| urn := "urn:root";
          children := None;
          representations :=
            Some {| volume25DCollection :=
                      Some (EmbeddedJson
                              (Some {| features := [raised_feature; ground_feature] |})
                              None) |};
          members := [] |} ]}.

Definition volume_host : Host := store_host "urn:root" volume_store lifted_transform.

(** A model of depth three in which every inner element has two children. *)
Definition node (u : string) (cs : list (string * string)) : Element :=
  {| urn := u;
     children := Some (map (fun c => {| key := fst c; child_urn := snd c |}) cs);
     representations := None;
     members := [] |}.

Definition family_store : gmap string Element :=
  list_to_map
    [("urn:root", node "urn:root" [("a", "urn:a"); ("b", "urn:b")]);
     ("urn:a", node "urn:a" [("a1", "urn:a1"); ("a2", "urn:a2")]);
     ("urn:b", node "urn:b" [("b1", "urn:b1"); ("b2", "urn:b2")]);
     ("urn:a1", leaf "urn:a1"); ("urn:a2", leaf "urn:a2");
     ("urn:b1", leaf "urn:b1"); ("urn:b2", leaf "urn:b2")].

Definition family_host : Host := store_host "urn:root" family_store identityTransform.

(** *** Services *)

Definition ok_response (body : jsval) : Response :=
  {| status := 200; statusText := "OK"; json := Ret body |}.

Definition daas : Dynamo :=
  {| url := "https://daas.example"; authProvider := None |}.

Definition daas_with_token : Dynamo :=
  {| url := "https://daas.example"; authProvider := Some (Ret "Bearer t0") |}.

(** The result that the scripted job finishes with. *)
Definition scripted_result : jsval :=
  VObj [("info", VObj [("id", VStr "g1"); ("name", VStr "demo");
                       ("status", VStr "OK");
                       ("outputs", VArr []); ("issues", VArr [])])].

(** A service that creates job [j1] with upload location [https://x],
    accepts the trigger, and reports the job as running on the first two
    polls and as complete, with [scripted_result], from the third. *)
Definition scripted_service : Server :=
  fun tr request =>
    let u := req_url request in
    if String.eqb u "https://daas.example/v1/graph/job/create" then
      Ret (ok_response (VObj [("jobId", VStr "j1"); ("uploadUrl", VStr "https://x")]))
    else if String.eqb u "https://x" then
      Ret (ok_response VNull)
    else if String.eqb u "https://daas.example/v1/graph/job/j1/run?passtoken=1" then
      Ret (ok_response VNull)
    else if String.eqb u "https://daas.example/v1/graph/results/j1" then
      if (polls "https://daas.example" "j1" tr <? 2)%nat
      then Ret (ok_response (VObj [("status", VStr "RUNNING")]))
      else Ret (ok_response (VObj [("status", VStr "COMPLETE");
                                   ("result", scripted_result)]))
    else if String.eqb u "https://daas.example/v1/server-info" then
      Ret (ok_response (VObj [("apiVersion", VStr "1");
                              ("dynamoVersion", VStr "3");
                              ("playerVersion", VStr "1")]))
    else
      Ret {| status := 404; statusText := "Not Found"; json := Ret (VObj []) |}.

(** A gateway in front of the service answering with a page that is not
    JSON. *)
Definition bad_gateway : Server :=
  fun _ _ =>
    Ret {| status := 502; statusText := "Bad Gateway";
           json := Throw (SyntaxError "Unexpected token < in JSON") |}.

(** A service that refuses every request as untrusted. *)
Definition untrusting_service : Server :=
  fun _ _ =>
    Ret {| status := 500; statusText := "Internal Server Error";
           json := Ret (VObj [("title", VStr "Graph is not trusted.")]) |}.

Definition demo_target : jsval := script_target (FolderGraph "C:\graphs\demo.dyn").

Definition demo_script : Script := FolderGraph "C:\graphs\demo.dyn".

Definition untrusted_response : Response :=
  {| status := 500; statusText := "Internal Server Error";
     json := Ret (VObj [("title", VStr "Graph is not trusted.")]) |}.

(** A service whose error body has an empty title. *)
Definition untitled_service : Server :=
  fun _ _ =>
    Ret {| status := 500; statusText := "Internal Server Error";
           json := Ret (VObj [("title", VStr "")]) |}.

Definition rejected_upload : Response :=
  {| status := 403; statusText := "Forbidden";
     json := Throw (SyntaxError "Unexpected token < in JSON") |}.

(** *** Inputs *)

(** A boolean input, which matches none of the extraction strategies. *)
Definition toggle_input : Input :=
  {| input_id := "n1"; input_name := "Toggle"; input_type := "boolean" |}.

Definition label_input : Input :=
  {| input_id := "n2"; input_name := "Label"; input_type := "string" |}.

Definition project_input : Input :=
  {| input_id := "n3"; input_name := "Project"; input_type := "GetProjectExperimental" |}.

Definition ui_state : gmap string jsval :=
  {[ "n1" := VBool true; "n2" := VStr "hello" ]}.

Definition terrain_input : Input :=
  {| input_id := "n4"; input_name := "Terrain"; input_type := "GetTerrain" |}.

Definition project_run_input : RunInput :=
  {| nodeId := "n3";
     value := JSON_stringify (VObj [("projectId", VStr "pro_demo");
                                    ("region", VStr "EMEA")]) |}.

(** *** Further models *)

Definition feature_of (name : string) (h : Z) : Volume25D :=
  {| f_id := name; f_height := h; f_elevation := Some 0; f_coordinates := [] |}.

Definition holder (u : string) (f : Volume25D)
           (sel : option RepresentationSelection) : Element :=
  {| urn := u;
     children := None;
     representations :=
       Some {| volume25DCollection :=
                 Some (EmbeddedJson (Some {| features := [f] |}) sel) |};
     members := [] |}.

(** A root without volumes and two children, [a] and [b], holding one
    feature each. *)
Definition sibling_store : gmap string Element :=
  list_to_map
    [("urn:root", node "urn:root" [("a", "urn:a"); ("b", "urn:b")]);
     ("urn:a", holder "urn:a" (feature_of "fa" 1) None);
     ("urn:b", holder "urn:b" (feature_of "fb" 3) None)].

Definition sibling_host : Host := store_host "urn:root" sibling_store lifted_transform.

Definition sibling_collections : list FeatureCollection :=
  [ {| features := [ {| f_id := "fb"; f_height := 6; f_elevation := Some 5;
                        f_coordinates := [] |} ] |};
    {| features := [ {| f_id := "fa"; f_height := 2; f_elevation := Some 5;
                        f_coordinates := [] |} ] |} ].

Definition odd_selection : RepresentationSelection :=
  {| sel_type := Some "contains"; sel_value := "f" |}.

(** A root holding a feature under a selection of an unknown kind. *)
Definition odd_store : gmap string Element :=
  {[ "urn:root" := holder "urn:root" (feature_of "fa" 1) (Some odd_selection) ]}.

Definition odd_host : Host := store_host "urn:root" odd_store identityTransform.

(** A root whose only child refers to an element that the store lacks. *)
Definition dangling_store : gmap string Element :=
  {[ "urn:root" := node "urn:root" [("gone", "urn:gone")] ]}.

Definition dangling_host : Host := store_host "urn:root" dangling_store identityTransform.

(** *** Further services and requests *)

Definition failing_provider : Dynamo :=
  {| url := "https://daas.example";
     authProvider := Some (Throw (HostError "no session")) |}.

Definition signed_init : RequestInit :=
  {| method := Some "POST"; headers := [("authorization", "Basic abc")];
     body := None |}.

(** A service that refuses to create jobs. *)
Definition busy_service : Server :=
  fun _ _ =>
    Ret {| status := 503; statusText := "Service Unavailable"; json := Ret VNull |}.

(** The scripted service, except that the trigger is refused. *)
Definition untriggered_service : Server :=
  fun tr request =>
    if String.eqb (req_method request) "POST"
    then Ret {| status := 409; statusText := "Conflict"; json := Ret VNull |}
    else scripted_service tr request.

(** The scripted service behind a network that drops the upload. *)
Definition dropping_service : Server :=
  fun tr request =>
    if String.eqb (req_method request) "PUT"
    then Throw (TypeError "Failed to fetch")
    else scripted_service tr request.

Definition error_body : jsval := VObj [("title", VStr "Folder not found")].

Definition failing_service : Server :=
  fun _ _ =>
    Ret {| status := 500; statusText := "Internal Server Error";
           json := Ret error_body |}.

Definition localhost : Dynamo :=
  {| url := "http://localhost:55100"; authProvider := None |}.

Definition created_j1 : jsval :=
  VObj [("jobId", VStr "j1"); ("uploadUrl", VStr "https://x")].

Definition create_request : Request :=
  plain_request "GET" "https://daas.example/v1/graph/job/create" None.

Definition trigger_request : Request :=
  plain_request "POST" "https://daas.example/v1/graph/job/j1/run?passtoken=1" None.

Definition conflict : Response :=
  {| status := 409; statusText := "Conflict"; json := Ret VNull |}.

(** A service that answers every request with a graph info. *)
Definition graph_service : Server := fun _ _ => Ret (ok_response scripted_result).

(** *** Declared inputs *)

Definition declare (id name type v : string) : DeclaredInput :=
  {| declared := {| input_id := id; input_name := name; input_type := type |};
     declared_value := v |}.

Definition selects_by_type (input : DeclaredInput) : bool :=
  String.prefix "FormaSelect" (input_type (declared input)).

Definition gets_by_type (input : DeclaredInput) : bool :=
  String.prefix "Get" (input_type (declared input)).

Definition demo_graph : GraphInfo :=
  {| graph_id := "g1";
     graph_inputs := [toggle_input;
                      {| input_id := "n6"; input_name := "Triangles";
                         input_type := "FormaSelectGeometry" |};
                      project_input] |}.

(** *** A host that refuses two reads *)

(** The bare model on a host that refuses to give triangles and the
    project; of several rejections, the one at position [first] settles
    first. *)
Definition refusing_host (first : nat) : Host :=
  {| getRootUrn := Ret "urn:root";
     elements_get := fun _ => Ret bare_store;
     getByPath := fun path _ =>
       (element <- getElementsByPath "urn:root" bare_store path ;;
        Ret (element, bare_store))%out;
     getWorldTransform := fun _ => Ret identityTransform;
     blob_volume25D := fun _ => Ret None;
     getTriangles := fun _ _ => Throw (HostError "no triangles");
     getFootprint := fun _ _ => Ret None;
     getPathsByCategory := fun _ => Ret [];
     areaMetrics_calculate := fun _ => Ret (VObj []);
     project_get := Throw (HostError "no project");
     getRegion := "EMEA";
     getProjectId := "pro_demo";
     settles_first := fun _ => first |}.

Definition triangles_input : Input :=
  {| input_id := "n6"; input_name := "Triangles";
     input_type := "FormaSelectGeometry" |}.

Definition racing_graph : GraphInfo :=
  {| graph_id := "g2";
     graph_inputs := [triangles_input;
                      {| input_id := "n10"; input_name := "Project";
                         input_type := "FormaProject" |}] |}.

Definition racing_state : gmap string jsval :=
  {[ "n6" := VArr [VStr "root"] ]}.

(** *** A host that answers every read *)

(** The two siblings under [lifted_transform], on a host where [root/a]
    is the terrain and every path has one triangle and a footprint. *)
Definition survey_host : Host :=
  {| getRootUrn := Ret "urn:root";
     elements_get := fun _ => Ret sibling_store;
     getByPath := fun path _ =>
       (element <- getElementsByPath "urn:root" sibling_store path ;;
        Ret (element, sibling_store))%out;
     getWorldTransform := fun _ => Ret lifted_transform;
     blob_volume25D := fun _ => Ret None;
     getTriangles := fun _ _ => Ret (Some [0; 0; 0;  1; 0; 0;  0; 1; 0]);
     getFootprint := fun _ _ =>
       Ret (Some [VArr [VNum 0; VNum 0]; VArr [VNum 1; VNum 0];
                  VArr [VNum 0; VNum 1]]);
     getPathsByCategory := fun _ => Ret ["root/a"];
     areaMetrics_calculate := fun _ =>
       Ret (VObj [("builtInMetrics", VObj [("grossFloorArea", VNum 120)])]);
     project_get := Ret (VObj [("name", VStr "Demo"); ("srid", VNum 3857)]);
     getRegion := "EMEA";
     getProjectId := "pro_demo";
     settles_first := fun _ => 0%nat |}.

(** A state holding the selection [root/b] under the id [sel]. *)
Definition survey_state : gmap string jsval :=
  {[ "sel" := VArr [VStr "root/b"] ]}.

Definition probe (name type : string) : Input :=
  {| input_id := "sel"; input_name := name; input_type := type |}.

(** What the host gives for a path holding the feature [f]. *)
Definition survey_bundle (u : string) (f out : Volume25D) : PathBundle :=
  {| b_element := Some (holder u f None);
     b_triangles := Some [0; 0; 0;  1; 0; 0;  0; 1; 0];
     b_footprints := Some [VArr [VNum 0; VNum 0]; VArr [VNum 1; VNum 0];
                           VArr [VNum 0; VNum 1]];
     b_volume25DCollection := Some {| features := [out] |} |}.

(** The value materialized for [input] on the survey host is a string,
    and reading it as JSON gives [logical]. *)
Definition reads_back (input : Input) (logical : jsval) : Prop :=
  exists text,
    materialize survey_host keep_coordinates 3 survey_state "urn:root" input
    = Ret {| nodeId := "sel"; value := VStr text |} /\
    JSON_parse text = Ret logical.

Definition lifted (name : string) (h : Z) : Volume25D :=
  {| f_id := name; f_height := h; f_elevation := Some 5; f_coordinates := [] |}.

Definition root_bundle : PathBundle :=
  {| b_element := Some (node "urn:root" [("a", "urn:a"); ("b", "urn:b")]);
     b_triangles := Some [0; 0; 0;  1; 0; 0;  0; 1; 0];
     b_footprints := Some [VArr [VNum 0; VNum 0]; VArr [VNum 1; VNum 0];
                           VArr [VNum 0; VNum 1]];
     b_volume25DCollection :=
       Some {| features := [lifted "fb" 6; lifted "fa" 2] |} |}.

(** * Properties *)

(** ** Transform of a volume feature *)

Lemma elevation_present_unscaled tc (transform : Transform) (feature : Volume25D) e :
  f_elevation feature = Some e ->
  f_elevation (transformFeature tc transform feature) = Some (e + tget transform 14).
Proof. intros He. unfold transformFeature. simpl. now rewrite He. Qed.

(** C1.  The code at a feature with elevation 3 under vertical scale 2 and
    vertical translation 5: the transformed elevation is 3 + 5 = 8, the
    scale is not applied, whereas scale × elevation + translation is 11.
    The loader run on a model carrying that feature returns it so. *)
Theorem elevation_present_ignores_scale :
  forall tc : Transform -> jsval -> jsval,
    tget lifted_transform 10 = 2 /\
    tget lifted_transform 14 = 5 /\
    f_elevation raised_feature = Some 3 /\
    f_elevation (transformFeature tc lifted_transform raised_feature) = Some 8 /\
    Some 8 <> Some (tget lifted_transform 10 * 3 + tget lifted_transform 14) /\
    getVolume25DForSubTree volume_host tc 1 "root"
    = Ret (Some {| features :=
                     [ {| f_id := "a"; f_height := 20; f_elevation := Some 8;
                          f_coordinates := [] |};
                       {| f_id := "b"; f_height := 20; f_elevation := Some 5;
                          f_coordinates := [] |} ] |}).
Proof.
  intros tc. repeat split; try reflexivity. simpl. discriminate.
Qed.

Lemma elevation_absent_unscaled tc (transform : Transform) (feature : Volume25D) :
  f_elevation feature = None ->
  f_elevation (transformFeature tc transform feature) = Some (tget transform 14).
Proof. intros He. unfold transformFeature; simpl. now rewrite He. Qed.

(** ** Selection predicate *)

Lemma prefix_begins (v id : string) :
  String.prefix v id = true <-> exists rest, id = v +:+ rest.
Proof.
  revert id. induction v as [|c v IH]; intros id.
  - split; [intros _; now exists id | intros _; now destruct id].
  - destruct id as [|d id]; simpl.
    + split; [discriminate | intros [rest H]; discriminate].
    + destruct (Ascii.ascii_dec c d) as [->|Hne].
      * rewrite IH. split; intros [rest H]; exists rest.
        -- now rewrite H.
        -- now inversion H.
      * split; [discriminate |].
        intros [rest H]. inversion H. congruence.
Qed.

(** C7.  [equals(v)] accepts exactly [v]; [startsWith(v)] accepts exactly
    the ids that begin with [v], so [startsWith("ab")] accepts ["abc"] and
    not ["xab"]; a missing rule accepts every id; a rule of any other kind
    makes the construction throw. *)
Theorem selection_predicate_cases :
  (forall v, exists p,
      createSelectionPredicate (rule "equals" v) = Ret p /\
      forall id, p id = true <-> id = v) /\
  (forall v, exists p,
      createSelectionPredicate (rule "startsWith" v) = Ret p /\
      forall id, p id = true <-> exists rest, id = v +:+ rest) /\
  (exists p,
      createSelectionPredicate (rule "startsWith" "ab") = Ret p /\
      p "abc" = true /\ p "xab" = false) /\
  (exists p,
      createSelectionPredicate None = Ret p /\ forall id, p id = true) /\
  (forall t v, t <> "equals" -> t <> "startsWith" ->
      exists message,
        createSelectionPredicate (rule t v) = Throw (Error message)).
Proof.
  repeat split.
  - intros v. eexists; split; [reflexivity |].
    intros id. apply String.eqb_eq.
  - intros v. eexists; split; [reflexivity |].
    intros id. apply prefix_begins.
  - eexists; split; [reflexivity | split; reflexivity].
  - eexists; split; [reflexivity | reflexivity].
  - intros t v H1 H2. unfold createSelectionPredicate, rule; simpl.
    apply String.eqb_neq in H1, H2. rewrite H1, H2.
    eexists; reflexivity.
Qed.

Lemma selection_predicate_cases_witness :
  "contains" <> "equals" /\ "contains" <> "startsWith" /\
  exists message,
    createSelectionPredicate (rule "contains" "a") = Throw (Error message).
Proof.
  split; [discriminate | split; [discriminate |]].
  apply (proj2 (proj2 (proj2 (proj2 selection_predicate_cases))) "contains" "a");
    discriminate.
Defined.

(** ** Volume collection loader *)

Section WalkQuiet.

Variable host : Host.
Variable tc : Transform -> jsval -> jsval.
Variable elements : gmap string Element.

Abbreviation consumed := (consumed host tc elements).

Lemma consumed_nil : consumed [].
Proof.
  intros rest cols. exists 0%nat, []. split; [constructor |].
  intros fuel. now rewrite app_nil_r.
Qed.

Lemma consumed_app es1 es2 : consumed es1 -> consumed es2 -> consumed (es1 ++ es2).
Proof.
  intros H1 H2 rest cols.
  destruct (H1 (es2 ++ rest) cols) as (k1 & cs1 & F1 & E1).
  destruct (H2 rest (cols ++ cs1)) as (k2 & cs2 & F2 & E2).
  exists (k1 + k2)%nat, (cs1 ++ cs2). split.
  - now apply Forall_app.
  - intros fuel. rewrite <- app_assoc, <- Nat.add_assoc, E1, E2.
    now rewrite app_assoc.
Qed.

Lemma consumed_all es : Forall (fun e => consumed [e]) es -> consumed es.
Proof.
  induction 1 as [|e es He _ IH]; [apply consumed_nil |].
  change (e :: es) with ([e] ++ es). now apply consumed_app.
Qed.

Lemma quiet_consumed depth :
  forall path element,
    quiet host elements depth path element -> consumed [(path, element)].
Proof.
  induction depth as [|depth IH]; intros path element Hq; [destruct Hq |].
  destruct Hq as (el & -> & Hnone & Hkids).
  assert (Hstack : consumed
            (rev (map (fun child => (path +:+ "/" +:+ key child,
                                     elements !! child_urn child))
                      (children_or_empty (Some el))))).
  { apply consumed_all. apply List.Forall_rev. apply List.Forall_map.
    simpl. eapply List.Forall_impl; [| exact Hkids].
    intros child Hc. now apply IH. }
  intros rest cols.
  destruct Hnone as [Hload | (coll & t & p & Hload & Ht & Hp & Hf)].
  - destruct (Hstack rest cols) as (k & cs & Fcs & E).
    exists (S k), cs. split; [exact Fcs |].
    intros fuel. simpl. rewrite Hload. simpl. apply E.
  - destruct (Hstack rest
                (cols ++ [ {| features := map (transformFeature tc t) [] |} ]))
      as (k & cs & Fcs & E).
    exists (S k), ({| features := map (transformFeature tc t) [] |} :: cs).
    split; [constructor; [reflexivity | exact Fcs] |].
    intros fuel. simpl. rewrite Hload. simpl. rewrite Ht. simpl.
    rewrite Hp. simpl. rewrite Hf.
    rewrite E. now rewrite <- app_assoc.
Qed.

End WalkQuiet.

Lemma featureless_concat cs :
  featureless cs -> concat (map features cs) = [].
Proof.
  induction 1 as [|c cs Hc _ IH]; [reflexivity |].
  simpl. now rewrite Hc, IH.
Qed.

(** C8, as the code has it.  For every requested path whose subtree yields
    no feature, the loader, given enough fuel, returns a feature
    collection whose list of features is empty, not the absence of a
    collection. *)
Theorem quiet_subtree_gives_empty_collection :
  forall host tc path got depth,
    getByPath host path true = Ret got ->
    quiet host (snd got) depth path (fst got) ->
    exists fuel0, forall fuel, (fuel0 <= fuel)%nat ->
      getVolume25DForSubTree host tc fuel path = Ret (Some {| features := [] |}).
Proof.
  intros host tc path got depth Hgot Hq.
  destruct (quiet_consumed host tc (snd got) depth path (fst got) Hq [] [])
    as (k & cs & Fcs & E).
  exists k. intros fuel Hle.
  unfold getVolume25DForSubTree. rewrite Hgot. simpl.
  replace fuel with (k + (fuel - k))%nat by lia.
  change [(path, fst got)] with ([(path, fst got)] ++ []).
  rewrite E. destruct (fuel - k)%nat; simpl; now rewrite featureless_concat.
Qed.


Lemma bare_root_quiet :
  quiet bare_host bare_store 1 "root" (Some (leaf "urn:root")).
Proof.
  simpl. exists (leaf "urn:root"). split; [reflexivity | split].
  - left. reflexivity.
  - constructor.
Qed.

Lemma quiet_subtree_gives_empty_collection_witness :
  getByPath bare_host "root" true = Ret (Some (leaf "urn:root"), bare_store) /\
  quiet bare_host bare_store 1 "root" (Some (leaf "urn:root")) /\
  exists fuel0, forall fuel, (fuel0 <= fuel)%nat ->
    getVolume25DForSubTree bare_host keep_coordinates fuel "root"
    = Ret (Some {| features := [] |}).
Proof.
  split; [reflexivity | split; [exact bare_root_quiet |]].
  apply (quiet_subtree_gives_empty_collection bare_host keep_coordinates "root"
           (Some (leaf "urn:root"), bare_store) 1);
    [reflexivity | exact bare_root_quiet].
Defined.

(** C8, as stated, fails on a model made of a root element alone, which
    has no representation: the loader returns an empty collection. *)
Lemma absent_when_quiet_fails :
  ~ absent_when_quiet bare_host keep_coordinates "root".
Proof.
  intros H.
  destruct (H (Some (leaf "urn:root"), bare_store) 1%nat eq_refl bare_root_quiet)
    as (fuel0 & Hnone).
  specialize (Hnone (S fuel0) ltac:(lia)).
  destruct fuel0; vm_compute in Hnone; discriminate Hnone.
Qed.

(** ** Full-model path enumeration *)

Lemma append_assoc (a b c : string) : (a +:+ b) +:+ c = a +:+ (b +:+ c).
Proof. induction a as [|x a IH]; simpl; [reflexivity | now rewrite IH]. Qed.

Lemma split_nonempty sep s : split sep s <> [].
Proof.
  destruct s as [|c s]; simpl; [discriminate |].
  destruct (Ascii.eqb c sep); [discriminate |].
  destruct (split sep s); discriminate.
Qed.

Lemma split_slash_free k : slash_free k = true -> split "/" k = [k].
Proof.
  induction k as [|c k IH]; simpl; [reflexivity |].
  intros H. apply andb_prop in H as [Hc Hk].
  apply negb_true_iff in Hc. rewrite Hc, (IH Hk). reflexivity.
Qed.

Lemma split_snoc p k :
  slash_free k = true ->
  split "/" (p +:+ "/" +:+ k) = split "/" p ++ [k].
Proof.
  intros Hk. change ("/" +:+ k) with (String "/" k).
  induction p as [|c p IH]; simpl.
  - now rewrite (split_slash_free k Hk).
  - destruct (Ascii.eqb c "/").
    + now rewrite IH.
    + rewrite IH. destruct (split "/" p) eqn:E; [| reflexivity].
      now apply split_nonempty in E.
Qed.

Lemma extend_cons base k ks :
  extend base (k :: ks) = extend (base +:+ "/" +:+ k) ks.
Proof. reflexivity. Qed.

Lemma split_extend base ks :
  Forall (fun k => slash_free k = true) ks ->
  split "/" (extend base ks) = split "/" base ++ ks.
Proof.
  intros H. revert base. induction H as [|k ks Hk _ IH]; intros base.
  - simpl. now rewrite app_nil_r.
  - rewrite extend_cons, IH, split_snoc by exact Hk.
    now rewrite <- app_assoc.
Qed.

Lemma split_render ks :
  Forall (fun k => slash_free k = true) ks ->
  split "/" (render ks) = "root" :: ks.
Proof. intros H. unfold render. now rewrite split_extend. Qed.

Lemma render_inj ks1 ks2 :
  Forall (fun k => slash_free k = true) ks1 ->
  Forall (fun k => slash_free k = true) ks2 ->
  render ks1 = render ks2 -> ks1 = ks2.
Proof.
  intros H1 H2 E. apply (f_equal (split "/")) in E.
  rewrite !split_render in E by assumption. now inversion E.
Qed.

Lemma extend_snoc base ks k :
  extend base (ks ++ [k]) = extend base ks +:+ "/" +:+ k.
Proof. unfold extend. now rewrite fold_left_app. Qed.

Lemma push_all_ret {A} (f : A -> Outcome (list string)) (g : A -> list string) xs :
  (forall x, In x xs -> f x = Ret (g x)) ->
  forall paths, push_all f xs paths = Ret (paths ++ flat_map g xs).
Proof.
  induction xs as [|x xs IH]; intros H paths; simpl.
  - now rewrite app_nil_r.
  - rewrite (H x) by now left. simpl.
    rewrite IH by (intros y Hy; apply H; now right).
    now rewrite <- app_assoc.
Qed.

Section PathsFacts.

Variable rootUrn : string.
Variable elements : gmap string Element.

Abbreviation sf := (Forall (fun k => slash_free k = true)).

Lemma tree_like_inv depth u :
  tree_like elements (S depth) u = true ->
  exists el,
    elements !! u = Some el /\
    NoDup (map key (kids el)) /\
    forall child, In child (kids el) ->
      slash_free (key child) = true /\
      tree_like elements depth (child_urn child) = true.
Proof.
  simpl. destruct (elements !! u) as [el|]; [| discriminate].
  intros H. apply andb_prop in H as [Hnd Hall].
  exists el. split; [reflexivity | split].
  - now apply bool_decide_eq_true in Hnd.
  - intros child Hin. rewrite forallb_forall in Hall.
    specialize (Hall child Hin). now apply andb_prop in Hall.
Qed.

Lemma find_child_unique el child :
  NoDup (map key (kids el)) ->
  In child (kids el) ->
  List.find (fun c => String.eqb (key c) (key child)) (kids el) = Some child.
Proof.
  induction (kids el) as [|c cs IH]; intros Hnd Hin; [destruct Hin |].
  simpl in *. inversion Hnd as [|? ? Hnotin Hnd']; subst.
  destruct Hin as [-> | Hin].
  - now rewrite String.eqb_refl.
  - destruct (String.eqb (key c) (key child)) eqn:E.
    + apply String.eqb_eq in E. exfalso. apply Hnotin. rewrite E.
      apply list_elem_of_In. now apply in_map.
    + now apply IH.
Qed.

Lemma descend_app path element ks1 ks2 mid :
  descend elements path element ks1 = Ret mid ->
  descend elements path element (ks1 ++ ks2) = descend elements path mid ks2.
Proof.
  revert element. induction ks1 as [|k ks1 IH]; intros element H; simpl in *.
  - now inversion H.
  - destruct element as [el|]; [| discriminate].
    destruct (List.find _ _) as [child|]; [| discriminate].
    now apply IH.
Qed.

Lemma getElementsByPath_render ks :
  sf ks ->
  getElementsByPath rootUrn elements (render ks)
  = descend elements (render ks) (elements !! rootUrn) ks.
Proof.
  intros Hsf. unfold getElementsByPath.
  rewrite (split_render ks Hsf). simpl.
  destruct (String.eqb (render ks) "root") eqn:E; [| reflexivity].
  apply String.eqb_eq in E.
  assert (Hks : ks = []) by (apply render_inj; [assumption | constructor | exact E]).
  now subst ks.
Qed.

(** The recursion of the code, started on a node of a tree-like store,
    lists the subtree in pre-order. *)
Lemma findAllPaths_preorder depth :
  forall u ks fuel,
    tree_like elements depth u = true ->
    sf ks ->
    (forall path, descend elements path (elements !! rootUrn) ks
                  = Ret (elements !! u)) ->
    (depth <= fuel)%nat ->
    findAllPaths rootUrn elements fuel (render ks)
    = Ret (preorder elements depth u (render ks)).
Proof.
  induction depth as [|depth IH]; intros u ks fuel Ht Hsf Hd Hle;
    [discriminate |].
  destruct fuel as [|fuel]; [lia |].
  destruct (tree_like_inv _ _ Ht) as (el & Hel & Hnd & Hkids).
  simpl. rewrite (getElementsByPath_render ks Hsf), Hd, Hel. simpl.
  fold (kids el).
  rewrite (push_all_ret _
             (fun child => preorder elements depth (child_urn child)
                                    (render ks +:+ "/" +:+ key child))).
  - reflexivity.
  - intros child Hin. destruct (Hkids child Hin) as [Hs Hc].
    unfold render.
    change (extend "root" ks +:+ String "/" (key child))
      with (extend "root" ks +:+ "/" +:+ key child).
    rewrite <- extend_snoc.
    apply (IH (child_urn child) (ks ++ [key child]) fuel).
    + exact Hc.
    + apply Forall_app. split; [exact Hsf | now constructor].
    + intros path. rewrite (descend_app _ _ ks [key child] _ (Hd path)).
      rewrite Hel. simpl. fold (kids el).
      now rewrite (find_child_unique el child Hnd Hin).
    + lia.
Qed.

End PathsFacts.

Lemma map_flat_map {A B C} (g : B -> C) (f : A -> list B) (l : list A) :
  map g (flat_map f l) = flat_map (fun x => map g (f x)) l.
Proof.
  induction l as [|x l IH]; simpl; [reflexivity |].
  now rewrite map_app, IH.
Qed.

Section Enumeration.

Variable rootUrn : string.
Variable elements : gmap string Element.

Abbreviation sf := (Forall (fun k => slash_free k = true)).

Lemma preorder_key_walk depth :
  forall u path,
    preorder elements depth u path = map (extend path) (key_walk elements depth u).
Proof.
  induction depth as [|depth IH]; intros u path; simpl; [reflexivity |].
  destruct (elements !! u) as [el|]; [| reflexivity].
  simpl. f_equal. rewrite map_flat_map. apply flat_map_ext.
  intros child. rewrite map_map. rewrite IH. apply map_ext.
  intros ks. reflexivity.
Qed.

Lemma key_walk_sf depth :
  forall u ks,
    tree_like elements depth u = true ->
    In ks (key_walk elements depth u) -> sf ks.
Proof.
  induction depth as [|depth IH]; intros u ks Ht Hin; [destruct Hin |].
  destruct (tree_like_inv _ _ _ Ht) as (el & Hel & _ & Hkids).
  simpl in Hin. rewrite Hel in Hin. destruct Hin as [<- | Hin]; [constructor |].
  apply in_flat_map in Hin as (child & Hc & Hin).
  apply in_map_iff in Hin as (ks' & <- & Hin).
  destruct (Hkids child Hc) as [Hs Htc].
  constructor; [exact Hs | now apply (IH (child_urn child))].
Qed.

Lemma key_walk_follows depth :
  forall u ks,
    tree_like elements depth u = true ->
    (In ks (key_walk elements depth u) <-> exists u', follows elements u ks u').
Proof.
  induction depth as [|depth IH]; intros u ks Ht; [discriminate |].
  destruct (tree_like_inv _ _ _ Ht) as (el & Hel & _ & Hkids).
  simpl. rewrite Hel. split.
  - intros [<- | Hin]; [exists u; constructor |].
    apply in_flat_map in Hin as (child & Hc & Hin).
    apply in_map_iff in Hin as (ks' & <- & Hin).
    destruct (Hkids child Hc) as [_ Htc].
    apply (IH _ _ Htc) in Hin as [u' Hf].
    exists u'. now apply (follows_cons elements u el child).
  - intros [u' Hf]. inversion Hf as [|? el' child ks' ? Hel' Hc Hf']; subst.
    + now left.
    + right. rewrite Hel in Hel'. inversion Hel'; subst el'.
      apply in_flat_map. exists child. split; [exact Hc |].
      apply in_map. destruct (Hkids child Hc) as [_ Htc].
      apply (IH _ _ Htc). now exists u'.
Qed.

Lemma key_walk_NoDup depth :
  forall u, tree_like elements depth u = true -> NoDup (key_walk elements depth u).
Proof.
  induction depth as [|depth IH]; intros u Ht; [discriminate |].
  destruct (tree_like_inv _ _ _ Ht) as (el & Hel & Hnd & Hkids).
  simpl. rewrite Hel. apply NoDup_cons. split.
  - intros Hin. apply list_elem_of_In, in_flat_map in Hin as (child & _ & Hin).
    apply in_map_iff in Hin as (? & Hx & _). discriminate Hx.
  - revert Hnd Hkids. generalize (kids el). intros cs.
    induction cs as [|c cs IHcs]; intros Hnd Hkids; simpl; [constructor |].
    inversion Hnd as [|? ? Hfresh Hnd']; subst.
    apply NoDup_app. split; [| split].
    + apply (NoDup_fmap_2 (cons (key c))).
      apply IH. apply Hkids. now left.
    + intros ks Hin1 Hin2.
      apply list_elem_of_In, in_map_iff in Hin1 as (ks1 & <- & _).
      apply list_elem_of_In, in_flat_map in Hin2 as (c' & Hc' & Hin2).
      apply in_map_iff in Hin2 as (ks2 & E & _).
      inversion E; subst. apply Hfresh.
      apply list_elem_of_In. rewrite <- H0. now apply in_map.
    + apply IHcs; [exact Hnd' |]. intros child Hc. apply Hkids. now right.
Qed.

Lemma follows_snoc u0 ks u el child :
  follows elements u0 ks u ->
  elements !! u = Some el ->
  In child (kids el) ->
  follows elements u0 (ks ++ [key child]) (child_urn child).
Proof.
  intros Hf Hel Hc. induction Hf as [u | u0 el0 c0 ks u' Hel0 Hc0 _ IH].
  - simpl. apply (follows_cons elements u el child); [exact Hel | exact Hc |].
    constructor.
  - simpl. apply (follows_cons elements u0 el0 c0); [exact Hel0 | exact Hc0 |].
    now apply IH.
Qed.

Lemma reaches_follows p u :
  reaches rootUrn elements p u ->
  exists ks, p = render ks /\ follows elements rootUrn ks u.
Proof.
  induction 1 as [| p u el child _ (ks & -> & Hf) Hel Hc].
  - exists []. split; [reflexivity | constructor].
  - exists (ks ++ [key child]). split.
    + unfold render. now rewrite extend_snoc.
    + now apply (follows_snoc rootUrn ks u el child).
Qed.

Lemma follows_reaches u ks u' :
  follows elements u ks u' ->
  forall p, reaches rootUrn elements p u ->
            reaches rootUrn elements (extend p ks) u'.
Proof.
  induction 1 as [u | u el child ks u' Hel Hc _ IH]; intros p Hp.
  - exact Hp.
  - rewrite extend_cons. apply IH.
    now apply (reaches_child rootUrn elements p u el child).
Qed.

Lemma preorder_reachable depth p :
  tree_like elements depth rootUrn = true ->
  (In p (preorder elements depth rootUrn "root") <-> reachable rootUrn elements p).
Proof.
  intros Ht. rewrite preorder_key_walk. split.
  - intros Hin. apply in_map_iff in Hin as (ks & <- & Hin).
    apply (key_walk_follows depth _ _ Ht) in Hin as [u' Hf].
    exists u'. apply (follows_reaches _ _ _ Hf). constructor.
  - intros [u Hr]. apply reaches_follows in Hr as (ks & -> & Hf).
    apply in_map. apply (key_walk_follows depth _ _ Ht). now exists u.
Qed.

Lemma preorder_NoDup depth :
  tree_like elements depth rootUrn = true ->
  NoDup (preorder elements depth rootUrn "root").
Proof.
  intros Ht. rewrite preorder_key_walk.
  apply (NoDup_fmap_2_strong (extend "root")).
  - intros ks1 ks2 H1 H2 E. apply render_inj; [| | exact E].
    + apply (key_walk_sf depth rootUrn); [exact Ht | now apply list_elem_of_In].
    + apply (key_walk_sf depth rootUrn); [exact Ht | now apply list_elem_of_In].
  - now apply key_walk_NoDup.
Qed.

End Enumeration.

(** C6.  On an element tree, [getAllPaths] returns, given fuel for the
    depth of the tree, the pre-order listing of the paths from the root:
    it starts with the root path, repeats no path, and holds a path if and
    only if the path is reached from the root by following child keys. *)
Theorem all_paths_enumerated_once :
  forall host rootUrn elements depth,
    getRootUrn host = Ret rootUrn ->
    elements_get host rootUrn = Ret elements ->
    tree_like elements depth rootUrn = true ->
    exists paths,
      (forall fuel, (depth <= fuel)%nat -> getAllPaths host fuel = Ret paths) /\
      paths = preorder elements depth rootUrn "root" /\
      head paths = Some "root" /\
      NoDup paths /\
      (forall p, In p paths <-> reachable rootUrn elements p).
Proof.
  intros host rootUrn elements depth Hroot Hget Ht.
  exists (preorder elements depth rootUrn "root").
  split; [| split; [reflexivity | split; [| split]]].
  - intros fuel Hle. unfold getAllPaths. rewrite Hroot. simpl.
    rewrite Hget. simpl.
    apply (findAllPaths_preorder rootUrn elements depth rootUrn [] fuel);
      [exact Ht | constructor | reflexivity | exact Hle].
  - destruct depth as [|depth]; [discriminate |].
    destruct (tree_like_inv _ _ _ Ht) as (el & Hel & _).
    simpl. now rewrite Hel.
  - now apply preorder_NoDup.
  - intros p. now apply preorder_reachable.
Qed.

Lemma all_paths_enumerated_once_witness :
  getRootUrn family_host = Ret "urn:root" /\
  elements_get family_host "urn:root" = Ret family_store /\
  tree_like family_store 3 "urn:root" = true /\
  exists paths,
    (forall fuel, (3 <= fuel)%nat -> getAllPaths family_host fuel = Ret paths) /\
    paths = preorder family_store 3 "urn:root" "root" /\
    head paths = Some "root" /\
    NoDup paths /\
    (forall p, In p paths <-> reachable "urn:root" family_store p).
Proof.
  split; [reflexivity | split; [reflexivity | split; [vm_compute; reflexivity |]]].
  apply (all_paths_enumerated_once family_host "urn:root" family_store 3);
    [reflexivity | reflexivity | vm_compute; reflexivity].
Defined.

Example family_paths :
  getAllPaths family_host 3
  = Ret ["root"; "root/a"; "root/a/a1"; "root/a/a2";
         "root/b"; "root/b/b1"; "root/b/b2"].
Proof. vm_compute. reflexivity. Qed.

(** ** Graph-execution client *)

Lemma requests_app tr1 tr2 : requests (tr1 ++ tr2) = requests tr1 ++ requests tr2.
Proof.
  induction tr1 as [|[r|ms] tr1 IH]; simpl; [reflexivity | now rewrite IH | exact IH].
Qed.

Lemma _fetch_stamps srv dynamo token u m b tr :
  authProvider dynamo = Some (Ret token) ->
  _fetch srv dynamo u (Some (init_of m b)) tr
  = fetch srv u (Some {| method := Some m;
                         headers := [("Authorization", token)];
                         body := b |}) tr.
Proof. intros H. unfold _fetch. rewrite H. reflexivity. Qed.

Lemma _fetch_without_init srv dynamo u tr :
  _fetch srv dynamo u None tr = fetch srv u None tr.
Proof. unfold _fetch. now destruct (authProvider dynamo). Qed.

(** The loop of [runAsync] adds no event: it settles in its first
    iteration, on the object literal. *)
Lemma await_job_silent fuel tr : snd (await_job fuel tr) = tr.
Proof. destruct fuel; reflexivity. Qed.

(** C3.  Against the scripted service (job [j1], trigger accepted, two
    polls answered RUNNING and the third COMPLETE with an embedded
    result), [run] resolves with the object literal written in [runAsync],
    which is not the embedded result, and the trace holds no request to
    the results endpoint and no wait. *)
Theorem scripted_run_returns_literal :
  forall fuel,
    fst (run scripted_service false daas (S fuel) demo_target [] [])
    = Ret job_literal_result /\
    job_literal_result <> scripted_result /\
    polls "https://daas.example" "j1"
          (snd (run scripted_service false daas (S fuel) demo_target [] [])) = 0%nat /\
    sleeps (snd (run scripted_service false daas (S fuel) demo_target [] [])) = 0%nat.
Proof.
  intros fuel. repeat split; try reflexivity. discriminate.
Qed.

(** The scripted service does answer as the scenario says. *)
Example scripted_service_polls :
  let poll := plain_request "GET" "https://daas.example/v1/graph/results/j1" None in
  scripted_service [] poll
  = Ret (ok_response (VObj [("status", VStr "RUNNING")])) /\
  scripted_service [Fetched poll] poll
  = Ret (ok_response (VObj [("status", VStr "RUNNING")])) /\
  scripted_service [Fetched poll; Fetched poll] poll
  = Ret (ok_response (VObj [("status", VStr "COMPLETE"); ("result", scripted_result)])).
Proof. repeat split. Qed.

(** *** Authorization header *)

Ltac settle_fetches :=
  repeat (simpl in *;
          match goal with
          | |- context [match ?x with _ => _ end] => destruct x eqn:?
          | |- context [if ?b then _ else _] => destruct b eqn:?
          end);
  simpl in *.

Ltac settle_stamped Hp token :=
  repeat (simpl in *;
          first [ rewrite (_fetch_stamps _ _ token) by exact Hp; unfold fetch
                | match goal with
                  | |- context [match ?x with _ => _ end] => destruct x eqn:?
                  | |- context [if ?b then _ else _] => destruct b eqn:?
                  end ]);
  simpl in *.

Ltac each_request :=
  repeat match goal with
         | H : _ \/ _ |- _ => destruct H as [H | H]
         | H : False |- _ => destruct H
         | H : _ = ?r |- _ => is_var r; subst r
         end.

Ltac classify_request :=
  first [ left; split; reflexivity
        | right; left; split; reflexivity
        | right; right; split; [discriminate | split; [discriminate | reflexivity]] ].

Lemma requests_shape srv runSync dynamo c token :
  authProvider dynamo = Some (Ret token) ->
  forall r, In r (requests (snd (perform srv runSync dynamo c []))) ->
    (req_method r = "PUT" /\ req_headers r = []) \/
    (c = CallServerInfo /\ req_headers r = []) \/
    (req_method r <> "PUT" /\ c <> CallServerInfo /\
     req_headers r = [("Authorization", token)]).
Proof.
  intros Hp r.
  destruct c as [fuel target inputs | path | target | path | ];
    unfold perform, run, runAsync, folder, info, trust, serverInfo, nbind, nthrow,
           nret, lift.
  - destruct fuel;
      destruct (negb runSync && negb (String.prefix "http://localhost" (url dynamo)));
      settle_stamped Hp token;
      intros Hin; each_request; classify_request.
  - rewrite (_fetch_stamps _ _ token) by exact Hp. unfold fetch.
    settle_fetches; intros Hin; each_request; classify_request.
  - rewrite (_fetch_stamps _ _ token) by exact Hp. unfold fetch.
    settle_fetches; intros Hin; each_request; classify_request.
  - rewrite (_fetch_stamps _ _ token) by exact Hp. unfold fetch.
    settle_fetches; intros Hin; each_request; classify_request.
  - rewrite _fetch_without_init. unfold fetch.
    settle_fetches; intros Hin; each_request; classify_request.
Qed.

(** C9, as the code has it.  With a token provider configured, every
    request of a call carries the provider's Authorization header, except
    the upload of the job payload (the one PUT) and the server-info
    request, which are sent without any header. *)
Theorem requests_stamped_but_upload_and_server_info :
  forall srv runSync dynamo c token,
    authProvider dynamo = Some (Ret token) ->
    forall r, In r (requests (snd (perform srv runSync dynamo c []))) ->
      if String.eqb (req_method r) "PUT" || is_server_info c
      then req_headers r = []
      else stamped token r.
Proof.
  intros srv runSync dynamo c token Hp r Hin.
  destruct (requests_shape srv runSync dynamo c token Hp r Hin)
    as [[Hm Hh] | [[Hc Hh] | (Hm & Hc & Hh)]].
  - now rewrite Hm.
  - subst c. now rewrite orb_true_r.
  - apply String.eqb_neq in Hm. rewrite Hm.
    destruct c; unfold stamped; now rewrite Hh.
Qed.

Lemma requests_stamped_but_upload_and_server_info_witness :
  authProvider daas_with_token = Some (Ret "Bearer t0") /\
  forall r,
    In r (requests (snd (perform scripted_service false daas_with_token
                                 (CallRun 1 demo_target []) []))) ->
    if String.eqb (req_method r) "PUT" || false
    then req_headers r = []
    else stamped "Bearer t0" r.
Proof.
  split; [reflexivity |].
  apply (requests_stamped_but_upload_and_server_info scripted_service false
           daas_with_token (CallRun 1 demo_target []) "Bearer t0").
  reflexivity.
Defined.

Example scripted_run_requests :
  map (fun r => (req_method r, req_url r, req_headers r))
      (requests (snd (perform scripted_service false daas_with_token
                              (CallRun 1 demo_target []) [])))
  = [("GET", "https://daas.example/v1/graph/job/create",
      [("Authorization", "Bearer t0")]);
     ("PUT", "https://x", []);
     ("POST", "https://daas.example/v1/graph/job/j1/run?passtoken=1",
      [("Authorization", "Bearer t0")])].
Proof. reflexivity. Qed.

(** C9, as stated, fails on the server-info request: it leaves without an
    Authorization header although a provider is configured. *)
Lemma server_info_not_stamped :
  ~ all_stamped scripted_service false daas_with_token CallServerInfo.
Proof.
  intros H.
  specialize (H "Bearer t0" eq_refl
                (plain_request "GET" "https://daas.example/v1/server-info" None)).
  assert (Hin : In (plain_request "GET" "https://daas.example/v1/server-info" None)
                   (requests (snd (perform scripted_service false daas_with_token
                                           CallServerInfo []))))
    by (left; reflexivity).
  specialize (H Hin). discriminate H.
Qed.

(** The upload of the job payload is not stamped either. *)
Lemma upload_not_stamped :
  ~ all_stamped scripted_service false daas_with_token (CallRun 1 demo_target []).
Proof.
  intros H.
  specialize (H "Bearer t0" eq_refl
                (plain_request "PUT" "https://x" (run_body demo_target []))).
  assert (Hin : In (plain_request "PUT" "https://x" (run_body demo_target []))
                   (requests (snd (perform scripted_service false daas_with_token
                                           (CallRun 1 demo_target []) []))))
    by (right; left; reflexivity).
  specialize (H Hin). discriminate H.
Qed.

(** *** The upload of the job payload *)

Lemma with_upload_other r srv tr request :
  req_method request <> "PUT" ->
  with_upload_response r srv tr request = srv tr request.
Proof.
  intros H. unfold with_upload_response.
  apply String.eqb_neq in H. now rewrite H.
Qed.

Lemma _fetch_with_upload r srv dynamo u m tr :
  m <> "PUT" ->
  _fetch (with_upload_response r srv) dynamo u (Some (init_of m None)) tr
  = _fetch srv dynamo u (Some (init_of m None)) tr.
Proof.
  intros Hm. unfold _fetch.
  destruct (authProvider dynamo) as [[token | e |] |]; simpl;
    unfold nbind, lift, fetch; simpl;
    rewrite ?with_upload_other by exact Hm; reflexivity.
Qed.

Lemma nbind_ext {A B} (m1 m2 : Net A) (k1 k2 : A -> Net B) tr :
  m1 tr = m2 tr ->
  (forall a tr', k1 a tr' = k2 a tr') ->
  nbind m1 k1 tr = nbind m2 k2 tr.
Proof.
  intros Hm Hk. unfold nbind. rewrite Hm.
  destruct (m2 tr) as [[a | e |] tr']; [apply Hk | reflexivity | reflexivity].
Qed.

Lemma upload_response_unread srv dynamo fuel target inputs tr r1 r2 :
  runAsync (with_upload_response r1 srv) dynamo fuel target inputs tr
  = runAsync (with_upload_response r2 srv) dynamo fuel target inputs tr.
Proof.
  unfold runAsync.
  apply nbind_ext;
    [rewrite (_fetch_with_upload r1), (_fetch_with_upload r2) by discriminate;
     reflexivity |].
  intros createJob tr1. destruct (negb (status createJob =? 200)); [reflexivity |].
  apply nbind_ext; [reflexivity |]. intros created tr2.
  apply nbind_ext; [reflexivity |]. intros jobId tr3.
  apply nbind_ext; [reflexivity |]. intros uploadUrl tr4.
  unfold nbind at 1 3. unfold fetch at 1 2. simpl.
  apply nbind_ext;
    [rewrite (_fetch_with_upload r1), (_fetch_with_upload r2) by discriminate;
     reflexivity |].
  reflexivity.
Qed.

Lemma nbind_ret {A B} (m : Net A) (k : A -> Net B) tr a tr' :
  m tr = (Ret a, tr') -> nbind m k tr = k a tr'.
Proof. intros H. unfold nbind. now rewrite H. Qed.

(** If a stamped request went out, the provider is absent or yields a
    token, and every request made with an init object gets the same
    headers. *)
Lemma _fetch_headers srv dynamo u m b tr x tr1 :
  _fetch srv dynamo u (Some (init_of m b)) tr = (Ret x, tr1) ->
  exists hs,
    forall srv' u' m' b',
      _fetch srv' dynamo u' (Some (init_of m' b'))
      = fetch srv' u' (Some {| method := Some m'; headers := hs; body := b' |}).
Proof.
  unfold _fetch. destruct (authProvider dynamo) as [[token | e |] |]; simpl.
  - intros _. exists [("Authorization", token)]. reflexivity.
  - discriminate.
  - discriminate.
  - intros _. exists []. reflexivity.
Qed.

Lemma trigger_trace srv u init fuel tr :
  snd (nbind (fetch srv u init)
             (fun response =>
                if negb (status response =? 200)
                then nthrow (FetchError (statusText response) (status response))
                else await_job fuel) tr)
  = snd (fetch srv u init tr).
Proof.
  unfold nbind, fetch. simpl.
  destruct (srv tr _) as [response | e |]; simpl; try reflexivity.
  destruct (negb (status response =? 200)); simpl; [reflexivity |].
  apply await_job_silent.
Qed.

(** C10.  [runAsync] does not read the answer to the upload: against any
    service, answering the upload with [r1] or with [r2] leaves the
    outcome and the trace of [runAsync] the same; and once the job is
    created (status 200 and a body to take [jobId] and [uploadUrl] from),
    the upload is followed by the trigger request whatever the upload is
    answered. *)
Theorem upload_response_has_no_effect :
  forall srv dynamo fuel target inputs tr r1 r2,
    runAsync (with_upload_response r1 srv) dynamo fuel target inputs tr
    = runAsync (with_upload_response r2 srv) dynamo fuel target inputs tr /\
    (forall createJob created tr1,
        _fetch srv dynamo (url dynamo +:+ "/v1/graph/job/create")
               (Some (init_of "GET" None)) tr = (Ret createJob, tr1) ->
        status createJob = 200 ->
        json createJob = Ret created ->
        created <> VUndef -> created <> VNull ->
        exists trigger,
          requests (snd (runAsync (with_upload_response r1 srv) dynamo fuel
                                  target inputs tr))
          = requests tr1
            ++ [plain_request "PUT" (js_to_string (opt_prop created "uploadUrl"))
                              (run_body target inputs);
                trigger] /\
          req_method trigger = "POST" /\
          req_url trigger
          = url dynamo +:+ "/v1/graph/job/"
            +:+ js_to_string (opt_prop created "jobId") +:+ "/run?passtoken=1").
Proof.
  intros srv dynamo fuel target inputs tr r1 r2.
  split; [apply upload_response_unread |].
  intros createJob created tr1 Hc Hs Hj Hu Hn.
  destruct (_fetch_headers _ _ _ _ _ _ _ _ Hc) as [hs Hhs].
  assert (Hprop : forall k, prop created k = Ret (opt_prop created k))
    by (intros k; destruct created; try reflexivity; congruence).
  unfold runAsync.
  rewrite (nbind_ret _ _ tr createJob tr1)
    by (rewrite _fetch_with_upload by discriminate; exact Hc).
  cbv beta. rewrite Hs. change (negb (200 =? 200)) with false. cbv iota.
  rewrite (nbind_ret _ _ tr1 created tr1) by (unfold lift; now rewrite Hj).
  cbv beta.
  rewrite (nbind_ret _ _ tr1 (opt_prop created "jobId") tr1)
    by (unfold lift; now rewrite Hprop).
  cbv beta.
  rewrite (nbind_ret _ _ tr1 (opt_prop created "uploadUrl") tr1)
    by (unfold lift; now rewrite Hprop).
  cbv beta.
  rewrite (nbind_ret _ _ tr1 r1
             (tr1 ++ [Fetched (plain_request "PUT"
                                 (js_to_string (opt_prop created "uploadUrl"))
                                 (run_body target inputs))]))
    by reflexivity.
  cbv beta.
  rewrite Hhs.
  eexists. split; [| split].
  - rewrite trigger_trace. unfold fetch. simpl.
    rewrite !requests_app. simpl. rewrite <- app_assoc. reflexivity.
  - reflexivity.
  - reflexivity.
Qed.

Lemma upload_response_has_no_effect_witness :
  runAsync (with_upload_response rejected_upload scripted_service) daas 1
           demo_target [] []
  = runAsync (with_upload_response (ok_response VNull) scripted_service) daas 1
             demo_target [] [] /\
  fst (runAsync (with_upload_response rejected_upload scripted_service) daas 1
                demo_target [] []) = Ret job_literal_result /\
  exists trigger,
    requests (snd (runAsync (with_upload_response rejected_upload scripted_service)
                            daas 1 demo_target [] []))
    = [plain_request "GET" "https://daas.example/v1/graph/job/create" None;
       plain_request "PUT" "https://x" (run_body demo_target []);
       trigger] /\
    req_method trigger = "POST" /\
    req_url trigger = "https://daas.example/v1/graph/job/j1/run?passtoken=1".
Proof.
  destruct (upload_response_has_no_effect scripted_service daas 1 demo_target []
              [] rejected_upload (ok_response VNull)) as [Hsame Htrigger].
  split; [exact Hsame | split; [reflexivity |]].
  apply (Htrigger
           (ok_response (VObj [("jobId", VStr "j1"); ("uploadUrl", VStr "https://x")]))
           (VObj [("jobId", VStr "j1"); ("uploadUrl", VStr "https://x")])
           [Fetched (plain_request "GET" "https://daas.example/v1/graph/job/create"
                                   None)]);
    [reflexivity | reflexivity | reflexivity | discriminate | discriminate].
Defined.

(** *** Failure of the info request *)

(** C4, as the code has it.  When the info request is answered with a
    status other than 200 and a body that parses as JSON, [info] throws a
    [FetchError] carrying that status and, as message, the body's title
    when it is truthy and the status text otherwise.  When the body does
    not parse as JSON, [info] throws what reading the body throws, as it
    is: the status of the response is not carried.  In both cases
    [reload] ends in the untrusted-graph state exactly when what was
    thrown has status 500 with the message ["Graph is not trusted."], or
    when its message is itself the marker text of that state; a parse
    error, which has no status, ends there only in the second way. *)
Theorem info_failure_classified :
  forall srv dynamo script tr response tr1,
    _fetch srv dynamo (url dynamo +:+ "/v1/graph/info")
           (Some (init_of "POST" (info_body (script_target script)))) tr
    = (Ret response, tr1) ->
    status response <> 200 ->
    (forall body,
        json response = Ret body ->
        let message :=
          js_to_string (js_or (opt_prop body "title")
                              (VStr (statusText response))) in
        info srv dynamo (script_target script) tr
        = (Throw (FetchError message (status response)), tr1) /\
        (fst (reload srv dynamo script tr) = Ret (SError (VStr "GRAPH_NOT_TRUSTED"))
         <-> (status response = 500 /\ message = "Graph is not trusted.") \/
             message = "GRAPH_NOT_TRUSTED")) /\
    (forall e,
        json response = Throw e ->
        info srv dynamo (script_target script) tr = (Throw e, tr1) /\
        (fst (reload srv dynamo script tr) = Ret (SError (VStr "GRAPH_NOT_TRUSTED"))
         <-> (exn_status e = Some 500 /\ exn_message e = "Graph is not trusted.") \/
             exn_message e = "GRAPH_NOT_TRUSTED") /\
        (exn_status e = None ->
         fst (reload srv dynamo script tr) = Ret (SError (VStr (exn_message e))))).
Proof.
  intros srv dynamo script tr response tr1 Hf Hs.
  assert (Hclass : forall err,
             settle (Throw err) = SError (VStr "GRAPH_NOT_TRUSTED")
             <-> (exn_status err = Some 500
                  /\ exn_message err = "Graph is not trusted.") \/
                 exn_message err = "GRAPH_NOT_TRUSTED").
  { intros err. cbn [settle].
    destruct (bool_decide (exn_status err = Some 500)) eqn:E500.
    - apply bool_decide_eq_true in E500.
      destruct (String.eqb (exn_message err) "Graph is not trusted.") eqn:Em;
        simpl.
      + apply String.eqb_eq in Em.
        split; [intros _; left; now split | reflexivity].
      + apply String.eqb_neq in Em. split.
        * intros H. right. now inversion H.
        * intros [[_ H] | H]; [contradiction | now rewrite H].
    - apply bool_decide_eq_false in E500. simpl. split.
      + intros H. right. now inversion H.
      + intros [[H _] | H]; [contradiction | now rewrite H]. }
  apply Z.eqb_neq in Hs. split.
  - intros body Hj message.
    assert (Hinfo : info srv dynamo (script_target script) tr
                    = (Throw (FetchError message (status response)), tr1)).
    { unfold info. rewrite (nbind_ret _ _ tr response tr1) by exact Hf.
      cbv beta. rewrite Hs.
      rewrite (nbind_ret _ _ tr1 body tr1) by (unfold lift; now rewrite Hj).
      reflexivity. }
    split; [exact Hinfo |].
    unfold reload. rewrite Hinfo. cbn [fst snd].
    pose proof (Hclass (FetchError message (status response))) as Hc.
    cbn [exn_status exn_message] in Hc. split.
    + intros H. injection H as H. apply Hc in H.
      destruct H as [[H1 H2] | H]; [left; split; [now inversion H1 | exact H2] |].
      now right.
    + intros H. f_equal. apply Hc.
      destruct H as [[H1 H2] | H]; [left; split; [now rewrite H1 | exact H2] |].
      now right.
  - intros e Hj.
    assert (Hinfo : info srv dynamo (script_target script) tr = (Throw e, tr1)).
    { unfold info. rewrite (nbind_ret _ _ tr response tr1) by exact Hf.
      cbv beta. rewrite Hs. unfold nbind, lift. now rewrite Hj. }
    split; [exact Hinfo |].
    unfold reload. rewrite Hinfo. cbn [fst snd]. split.
    + rewrite <- (Hclass e).
      split; intros H; [now injection H | now rewrite H].
    + intros Hnone. cbn [settle]. rewrite Hnone.
      rewrite bool_decide_eq_false_2 by discriminate. reflexivity.
Qed.

Lemma info_failure_classified_witness :
  _fetch untrusting_service daas (url daas +:+ "/v1/graph/info")
         (Some (init_of "POST" (info_body (script_target demo_script)))) []
  = (Ret untrusted_response,
     [Fetched (plain_request "POST" "https://daas.example/v1/graph/info"
                             (info_body (script_target demo_script)))]) /\
  status untrusted_response <> 200 /\
  json untrusted_response = Ret (VObj [("title", VStr "Graph is not trusted.")]) /\
  fst (info untrusting_service daas (script_target demo_script) [])
  = Throw (FetchError "Graph is not trusted." 500) /\
  fst (reload untrusting_service daas demo_script [])
  = Ret (SError (VStr "GRAPH_NOT_TRUSTED")).
Proof.
  split; [reflexivity | split; [discriminate | split; [reflexivity |]]].
  destruct (proj1 (info_failure_classified untrusting_service daas demo_script []
                     untrusted_response
                     [Fetched (plain_request "POST"
                                 "https://daas.example/v1/graph/info"
                                 (info_body (script_target demo_script)))]
                     eq_refl ltac:(discriminate))
                  (VObj [("title", VStr "Graph is not trusted.")]) eq_refl)
    as [Hinfo Hstate].
  split.
  - now rewrite Hinfo.
  - apply Hstate. left. split; reflexivity.
Defined.

(** The same through a gateway that answers 502 with a page that is not
    JSON: [info] throws the parse error, and the state shows its message,
    the status being lost. *)
Example info_parse_error_surfaces :
  fst (info bad_gateway daas demo_target [])
  = Throw (SyntaxError "Unexpected token < in JSON") /\
  fst (reload bad_gateway daas demo_script [])
  = Ret (SError (VStr "Unexpected token < in JSON")).
Proof. split; reflexivity. Qed.

(** C4, as stated, fails when the body of the failure is not JSON: what
    [info] throws is the parse error, which carries neither the status
    text nor the status. *)
Lemma info_parse_error_not_titled :
  ~ info_throws_titled bad_gateway daas demo_target.
Proof.
  intros H.
  specialize (H {| status := 502; statusText := "Bad Gateway";
                   json := Throw (SyntaxError "Unexpected token < in JSON") |}
                eq_refl ltac:(discriminate)).
  discriminate H.
Qed.

(** It fails as well on a title that is there and empty: the message is
    the status text. *)
Lemma empty_title_not_carried :
  ~ info_throws_titled untitled_service daas demo_target.
Proof.
  intros H.
  specialize (H {| status := 500; statusText := "Internal Server Error";
                   json := Ret (VObj [("title", VStr "")]) |}
                eq_refl ltac:(discriminate)).
  vm_compute in H. discriminate H.
Qed.

(** A failure of any status whose title is the marker text ends in the
    untrusted-graph state too. *)
Example marker_title_conflated :
  settle (Throw (FetchError "GRAPH_NOT_TRUSTED" 404))
  = SError (VStr "GRAPH_NOT_TRUSTED").
Proof. reflexivity. Qed.

(** ** Writing and reading JSON *)

Lemma append_nil_r (s : string) : s +:+ "" = s.
Proof. induction s as [|c s IH]; simpl; [reflexivity | now rewrite IH]. Qed.

Lemma length_append (a b : string) :
  String.length (a +:+ b) = (String.length a + String.length b)%nat.
Proof. induction a as [|c a IH]; simpl; [reflexivity | now rewrite IH]. Qed.

(** *** String literals *)

Lemma parse_chars_escape (c : ascii) (tail : string) :
  parse_chars (escape_char c +:+ tail)
  = match parse_chars tail with
    | Some (r, rest) => Some (String c r, rest)
    | None => None
    end.
Proof.
  destruct c as [[] [] [] [] [] [] [] []]; reflexivity.
Qed.

Lemma parse_chars_quote_body (s rest : string) :
  parse_chars (quote_body s +:+ String dquote rest) = Some (s, rest).
Proof.
  induction s as [|c s IH]; [reflexivity |].
  change (quote_body (String c s)) with (escape_char c +:+ quote_body s).
  rewrite append_assoc, parse_chars_escape, IH. reflexivity.
Qed.

(** *** Numbers *)

Lemma take_number_safe rest :
  number_safe rest -> take_number rest = (EmptyString, rest).
Proof. destruct rest as [|c rest]; simpl; [reflexivity | now intros ->]. Qed.

Lemma take_number_uint d rest :
  number_safe rest ->
  take_number (NilEmpty.string_of_uint d +:+ rest)
  = (NilEmpty.string_of_uint d, rest).
Proof.
  intros Hs. induction d; simpl;
    [now apply take_number_safe | now rewrite IHd ..].
Qed.

Lemma string_of_uint_nonnil d :
  d <> Decimal.Nil -> NilZero.string_of_uint d = NilEmpty.string_of_uint d.
Proof. destruct d; [congruence | reflexivity ..]. Qed.

Lemma take_number_Z z rest :
  number_safe rest ->
  take_number (string_of_Z z +:+ rest) = (string_of_Z z, rest).
Proof.
  intros Hs. unfold string_of_Z.
  destruct z as [|p|p]; simpl.
  - now rewrite take_number_safe.
  - rewrite string_of_uint_nonnil by apply Unsigned.to_uint_nonnil.
    now apply take_number_uint.
  - rewrite string_of_uint_nonnil by apply Unsigned.to_uint_nonnil.
    now rewrite take_number_uint.
Qed.

Lemma parse_number_Z z rest :
  number_safe rest ->
  parse_number (string_of_Z z +:+ rest) = Some (z, rest).
Proof.
  intros Hs. unfold parse_number. rewrite (take_number_Z z rest Hs).
  unfold string_of_Z. rewrite NilZero.isi.
  - rewrite DecimalZ.of_to, String.eqb_refl. reflexivity.
  - destruct z as [|p|p]; simpl; try discriminate.
    intros H. inversion H as [E]. now apply Unsigned.to_uint_nonnil in E.
  - destruct z as [|p|p]; simpl; try discriminate.
    intros H. inversion H as [E]. now apply Unsigned.to_uint_nonnil in E.
Qed.

Lemma string_of_uint_start d :
  d <> Decimal.Nil ->
  exists c t, NilEmpty.string_of_uint d = String c t /\ is_num_char c = true.
Proof.
  destruct d; [congruence | intros _; eexists _, _; split; reflexivity ..].
Qed.

Lemma string_of_Z_start z :
  exists c t, string_of_Z z = String c t /\ is_num_char c = true.
Proof.
  unfold string_of_Z. destruct z as [|p|p]; simpl.
  - eexists _, _; split; reflexivity.
  - rewrite string_of_uint_nonnil by apply Unsigned.to_uint_nonnil.
    apply string_of_uint_start, Unsigned.to_uint_nonnil.
  - eexists _, _; split; reflexivity.
Qed.

Lemma num_char_starts_value c : is_num_char c = true -> starts_value c = true.
Proof.
  destruct c as [[] [] [] [] [] [] [] []]; intros H;
    first [reflexivity | discriminate H].
Qed.

Lemma parse_value_number fuel c s :
  is_num_char c = true ->
  parse_value (S fuel) (String c s)
  = match parse_number (String c s) with
    | Some (n, r) => Some (VNum n, r)
    | None => None
    end.
Proof.
  destruct c as [[] [] [] [] [] [] [] []]; intros H;
    first [discriminate H | reflexivity].
Qed.

(** *** Values *)

Lemma ser_fill x : ser (fill x) = Some (text_of x).
Proof. destruct x; reflexivity. Qed.

Lemma ser_defined v : defined v = true -> ser v = Some (text_of v).
Proof. destruct v; [discriminate | reflexivity ..]. Qed.

Lemma ser_start v t :
  ser v = Some t -> exists c t', t = String c t' /\ starts_value c = true.
Proof.
  destruct v as [| |b|n|s|l|fs]; simpl; intros H; inversion H; subst.
  - eexists _, _; split; reflexivity.
  - destruct b; eexists _, _; split; reflexivity.
  - destruct (string_of_Z_start n) as (c & t' & E & Hc).
    exists c, t'. split; [exact E | now apply num_char_starts_value].
  - eexists _, _; split; reflexivity.
  - eexists _, _; split; reflexivity.
  - eexists _, _; split; reflexivity.
Qed.

Lemma text_of_start x :
  exists c t', text_of x = String c t' /\ starts_value c = true.
Proof. apply (ser_start (fill x)), ser_fill. Qed.

Lemma join_two sep a b l : join sep (a :: b :: l) = a +:+ sep +:+ join sep (b :: l).
Proof. reflexivity. Qed.

Lemma join_start sep a l c t :
  a = String c t -> exists t', join sep (a :: l) = String c t'.
Proof.
  intros ->. destruct l as [|b l]; [now exists t |].
  rewrite join_two. eexists. reflexivity.
Qed.

Lemma peek_start c t : starts_value c = true -> peek (String c t) = Some (c, t).
Proof.
  unfold starts_value, peek. intros H.
  apply andb_prop in H as [H _]. apply andb_prop in H as [H _].
  apply negb_true_iff in H. simpl. now rewrite H.
Qed.

Lemma starts_value_not_closing c :
  starts_value c = true -> Ascii.eqb c "]" = false /\ Ascii.eqb c "}" = false.
Proof.
  unfold starts_value. intros H.
  apply andb_prop in H as [H H2]. apply andb_prop in H as [_ H1].
  now apply negb_true_iff in H1, H2.
Qed.

Lemma norm_array l : norm (VArr l) = VArr (map (fun y => norm (fill y)) l).
Proof.
  simpl. f_equal. apply map_ext. intros x. now destruct x.
Qed.

Lemma ser_array l :
  ser (VArr l) = Some ("[" +:+ join "," (map text_of l) +:+ "]").
Proof. reflexivity. Qed.

Lemma flat_map_step {A B} (f : A -> list B) x l :
  flat_map f (x :: l) = f x ++ flat_map f l.
Proof. reflexivity. Qed.

Lemma member_texts_present fs :
  flat_map (fun kv => match ser (snd kv) with
                      | Some t => [quote (fst kv) +:+ ":" +:+ t]
                      | None => []
                      end) fs
  = map member_text (present fs).
Proof.
  induction fs as [|[k v] fs IH]; [reflexivity |].
  rewrite flat_map_step, IH. destruct v; reflexivity.
Qed.

Lemma ser_object fs :
  ser (VObj fs) = Some ("{" +:+ join "," (map member_text (present fs)) +:+ "}").
Proof.
  rewrite <- member_texts_present. reflexivity.
Qed.

Lemma norm_members_present fs :
  flat_map (fun kv => match snd kv with
                      | VUndef => []
                      | _ => [(fst kv, norm (snd kv))]
                      end) fs
  = map (fun m => (fst m, norm (snd m))) (present fs).
Proof.
  induction fs as [|[k v] fs IH]; [reflexivity |].
  rewrite flat_map_step, IH. destruct v; reflexivity.
Qed.

Lemma norm_object fs :
  norm (VObj fs) = VObj (map (fun m => (fst m, norm (snd m))) (present fs)).
Proof.
  rewrite <- norm_members_present. reflexivity.
Qed.

Lemma present_defined fs : Forall (fun m => defined (snd m) = true) (present fs).
Proof.
  unfold present. apply List.Forall_forall. intros m Hin.
  now apply filter_In in Hin as [_ H].
Qed.

Lemma quote_length s : (2 <= String.length (quote s))%nat.
Proof. unfold quote. simpl. rewrite length_append. simpl. lia. Qed.

Lemma text_of_length x : (1 <= String.length (text_of x))%nat.
Proof.
  destruct (text_of_start x) as (c & t & -> & _). simpl. lia.
Qed.

#[local] Arguments join : simpl never.
#[local] Arguments text_of : simpl never.
#[local] Arguments member_text : simpl never.

Lemma reads_items_step fuel :
  reads_values fuel -> reads_items fuel -> reads_items (S fuel).
Proof.
  intros Hv Hi x l rest Hlen.
  destruct l as [|y l].
  - change (join "," (map text_of [x])) with (text_of x) in *.
    simpl parse_items.
    rewrite (Hv (fill x) (text_of x) (String "]" rest) (ser_fill x));
      [| lia | reflexivity].
    reflexivity.
  - assert (E : join "," (map text_of (x :: y :: l))
                = text_of x +:+ "," +:+ join "," (map text_of (y :: l)))
      by reflexivity.
    rewrite E in *. clear E.
    rewrite !length_append in Hlen. simpl in Hlen.
    pose proof (text_of_length x) as Hx.
    rewrite !append_assoc. simpl parse_items.
    rewrite (Hv (fill x) (text_of x) _ (ser_fill x)); [| lia | reflexivity].
    change ("," +:+ join "," (map text_of (y :: l)) +:+ String "]" rest)
      with (String "," (join "," (map text_of (y :: l)) +:+ String "]" rest)).
    rewrite peek_start by reflexivity.
    change (Ascii.eqb "," ",") with true. cbv iota.
    change (text_of y :: map text_of l) with (map text_of (y :: l)) in *.
    rewrite (Hi y l rest) by lia. reflexivity.
Qed.

Lemma reads_members_step fuel :
  reads_values fuel -> reads_members fuel -> reads_members (S fuel).
Proof.
  intros Hv Hm [k v] ms rest Hdef Hlen.
  inversion Hdef as [|? ? Hd Hdef']; subst. simpl in Hd.
  pose proof (quote_length k) as Hk.
  pose proof (text_of_length v) as Htv.
  assert (Hhead : forall tail,
             member_text (k, v) +:+ tail
             = String dquote (quote_body k +:+
                              String dquote (String ":" (text_of v +:+ tail)))).
  { intros tail. unfold member_text, quote. simpl fst. simpl snd.
    simpl. rewrite !append_assoc. reflexivity. }
  assert (Hmlen : String.length (member_text (k, v))
                  = (String.length (quote k) + 1 + String.length (text_of v))%nat).
  { unfold member_text. simpl fst. simpl snd. rewrite !length_append.
    simpl. lia. }
  destruct ms as [|m' ms].
  - change (join "," (map member_text [(k, v)])) with (member_text (k, v)) in *.
    rewrite Hhead. rewrite Hmlen in Hlen.
    simpl parse_members. rewrite parse_chars_quote_body. simpl.
    rewrite (Hv v (text_of v) (String "}" rest) (ser_defined v Hd));
      [| lia | reflexivity].
    reflexivity.
  - assert (E : join "," (map member_text ((k, v) :: m' :: ms))
                = member_text (k, v) +:+ "," +:+ join "," (map member_text (m' :: ms)))
      by reflexivity.
    rewrite E in *. clear E.
    rewrite !length_append in Hlen. rewrite Hmlen in Hlen. simpl in Hlen.
    rewrite append_assoc, Hhead.
    simpl parse_members. rewrite parse_chars_quote_body. simpl.
    rewrite (Hv v (text_of v) _ (ser_defined v Hd)); [| lia | reflexivity].
    simpl.
    change (member_text m' :: map member_text ms)
      with (map member_text (m' :: ms)) in *.
    rewrite (Hm m' ms rest Hdef') by lia. reflexivity.
Qed.

Lemma reads_values_step fuel :
  reads_items fuel -> reads_members fuel -> reads_values (S fuel).
Proof.
  intros Hi Hm v t rest Hser Hlen Hsafe.
  destruct v as [| |b|n|s|l|fs].
  - discriminate Hser.
  - inversion Hser; subst. reflexivity.
  - inversion Hser; subst. destruct b; reflexivity.
  - inversion Hser; subst.
    destruct (string_of_Z_start n) as (c & t' & E & Hc).
    assert (Hpv : parse_value (S fuel) (string_of_Z n +:+ rest)
                  = match parse_number (string_of_Z n +:+ rest) with
                    | Some (z, r) => Some (VNum z, r)
                    | None => None
                    end).
    { rewrite E. apply (parse_value_number fuel c (t' +:+ rest) Hc). }
    rewrite Hpv, (parse_number_Z n rest Hsafe). reflexivity.
  - inversion Hser; subst. unfold quote.
    change (String dquote (quote_body s +:+ String dquote "") +:+ rest)
      with (String dquote ((quote_body s +:+ String dquote "") +:+ rest)).
    rewrite append_assoc.
    change (String dquote "" +:+ rest) with (String dquote rest).
    simpl parse_value. rewrite parse_chars_quote_body. reflexivity.
  - rewrite ser_array in Hser. inversion Hser; subst. clear Hser.
    rewrite norm_array.
    destruct l as [|x l]; [reflexivity |].
    simpl in Hlen. rewrite ?length_append in Hlen. simpl in Hlen.
    destruct (text_of_start x) as (c & t' & Ex & Hc).
    destruct (join_start "," (text_of x) (map text_of l) c t' Ex) as [j Ej].
    change ("[" +:+ join "," (map text_of (x :: l)) +:+ "]")
      with (String "[" (join "," (map text_of (x :: l)) +:+ "]")).
    change (String "[" (join "," (map text_of (x :: l)) +:+ "]") +:+ rest)
      with (String "[" ((join "," (map text_of (x :: l)) +:+ "]") +:+ rest)).
    rewrite append_assoc.
    change ("]" +:+ rest) with (String "]" rest).
    simpl parse_value.
    change (text_of x :: map text_of l) with (map text_of (x :: l)) in *.
    assert (Hpeek : peek (join "," (map text_of (x :: l)) +:+ String "]" rest)
                    = Some (c, j +:+ String "]" rest)).
    { rewrite Ej. apply (peek_start c _ Hc). }
    rewrite Hpeek. destruct (starts_value_not_closing c Hc) as [Hb _].
    rewrite Hb. rewrite (Hi x l rest) by lia. reflexivity.
  - rewrite ser_object in Hser. inversion Hser; subst. clear Hser.
    rewrite norm_object.
    pose proof (present_defined fs) as Hdef.
    destruct (present fs) as [|[k v] ms]; [reflexivity |].
    simpl in Hlen. rewrite ?length_append in Hlen. simpl in Hlen.
    change ("{" +:+ join "," (map member_text ((k, v) :: ms)) +:+ "}")
      with (String "{" (join "," (map member_text ((k, v) :: ms)) +:+ "}")).
    change (String "{" (join "," (map member_text ((k, v) :: ms)) +:+ "}") +:+ rest)
      with (String "{" ((join "," (map member_text ((k, v) :: ms)) +:+ "}") +:+ rest)).
    rewrite append_assoc.
    change ("}" +:+ rest) with (String "}" rest).
    simpl parse_value.
    change (member_text (k, v) :: map member_text ms)
      with (map member_text ((k, v) :: ms)) in *.
    assert (Ej : exists j, join "," (map member_text ((k, v) :: ms))
                           = String dquote j).
    { apply (join_start "," (member_text (k, v)) (map member_text ms) dquote
               (quote_body k +:+ String dquote "" +:+ ":" +:+ text_of v)).
      unfold member_text, quote. simpl. now rewrite append_assoc. }
    destruct Ej as [j Ej].
    assert (Hpeek : peek (join "," (map member_text ((k, v) :: ms)) +:+ String "}" rest)
                    = Some (dquote, j +:+ String "}" rest)).
    { rewrite Ej. reflexivity. }
    rewrite Hpeek. change (Ascii.eqb dquote "}") with false. cbv iota.
    rewrite (Hm (k, v) ms rest Hdef) by lia. reflexivity.
Qed.

Lemma reads_all fuel : reads_values fuel /\ reads_items fuel /\ reads_members fuel.
Proof.
  induction fuel as [|fuel (Hv & Hi & Hm)].
  - repeat split.
    + intros v t rest _ Hlen. lia.
    + intros x l rest Hlen. lia.
    + intros m ms rest _ Hlen. lia.
  - split; [| split].
    + now apply reads_values_step.
    + now apply reads_items_step.
    + now apply reads_members_step.
Qed.

(** Reading the text that [JSON.stringify] wrote for a value gives the
    value back, without its undefined members. *)
Lemma parse_stringify v t : ser v = Some t -> JSON_parse t = Ret (norm v).
Proof.
  intros Hser. unfold JSON_parse.
  destruct (reads_all (S (String.length t))) as [Hv _].
  specialize (Hv v t EmptyString Hser ltac:(lia) I).
  rewrite append_nil_r in Hv. now rewrite Hv.
Qed.

Example parse_stringify_job : JSON_parse (text_of job_literal) = Ret job_literal.
Proof. vm_compute. reflexivity. Qed.

(** ** Input materializer *)

(** *** [Promise.all] *)

Lemma settled_outcomes {B} (os : list (Outcome B)) :
  existsb pending os = false ->
  omap rejection os = [] ->
  os = map Ret (omap fulfilment os).
Proof.
  induction os as [|o os IH]; [reflexivity |].
  destruct o as [b | e |]; try discriminate.
  intros Hp Hr.
  change (Ret b :: os = Ret b :: map Ret (omap fulfilment os)).
  f_equal. now apply IH.
Qed.

Lemma Promise_all_Forall2 {A B} settles_first (f : A -> Outcome B) xs ys :
  Promise_all settles_first f xs = Ret ys
  <-> Forall2 (fun x y => f x = Ret y) xs ys.
Proof.
  unfold Promise_all. split.
  - destruct (existsb pending (map f xs)) eqn:Ep; [discriminate |].
    destruct (omap rejection (map f xs)) as [|e es] eqn:Er; [| discriminate].
    intros H. inversion H; subst ys. clear H.
    pose proof (settled_outcomes _ Ep Er) as Hs.
    clear Ep Er. revert Hs. generalize (omap fulfilment (map f xs)).
    induction xs as [|x xs IH]; intros [|y ys] Hs; simpl in Hs;
      try discriminate; constructor.
    + now inversion Hs.
    + apply IH. now inversion Hs.
  - intros H.
    assert (Hs : map f xs = map Ret ys).
    { induction H as [|x y xs ys Hxy _ IH]; [reflexivity |].
      simpl. now rewrite Hxy, IH. }
    rewrite Hs. clear.
    assert (Hp : existsb pending (map (@Ret B) ys) = false)
      by (induction ys; simpl; auto).
    assert (Hr : omap rejection (map (@Ret B) ys) = [])
      by (induction ys; simpl; auto).
    assert (Hf : omap fulfilment (map (@Ret B) ys) = ys).
    { induction ys as [|y ys IH]; [reflexivity |]. simpl.
      change (y :: omap fulfilment (map Ret ys) = y :: ys). now rewrite IH. }
    now rewrite Hp, Hr, Hf.
Qed.

Lemma rejection_In {A B} (f : A -> Outcome B) xs e :
  In e (omap rejection (map f xs)) <-> exists x, In x xs /\ f x = Throw e.
Proof.
  induction xs as [|x xs IH]; simpl.
  - split; [intros [] | intros (x & [] & _)].
  - destruct (f x) as [b | e' |] eqn:E; simpl.
    + rewrite IH. split.
      * intros (y & Hy & Ey). exists y. split; [now right | exact Ey].
      * intros (y & [<- | Hy] & Ey); [congruence | now exists y].
    + change (In e (e' :: omap rejection (map f xs))
              <-> exists y, (x = y \/ In y xs) /\ f y = Throw e).
      simpl. rewrite IH. split.
      * intros [<- | (y & Hy & Ey)]; [exists x; split; [now left | exact E] |].
        exists y. split; [now right | exact Ey].
      * intros (y & [<- | Hy] & Ey); [left; congruence | right; now exists y].
    + rewrite IH. split.
      * intros (y & Hy & Ey). exists y. split; [now right | exact Ey].
      * intros (y & [<- | Hy] & Ey); [congruence | now exists y].
Qed.

(** What [Promise.all] rejects with is the rejection of one of the
    callbacks. *)
Lemma Promise_all_Throw {A B} settles_first (f : A -> Outcome B) xs e :
  Promise_all settles_first f xs = Throw e ->
  exists x, In x xs /\ f x = Throw e.
Proof.
  unfold Promise_all.
  destruct (existsb pending (map f xs)); [discriminate |].
  destruct (omap rejection (map f xs)) as [|e0 es] eqn:Er; [discriminate |].
  intros H. injection H as <-. apply rejection_In. rewrite Er.
  change (In (nth (settles_first (e0 :: es)) (e0 :: es) e0) (e0 :: es)).
  destruct (nth_in_or_default (settles_first (e0 :: es)) (e0 :: es) e0)
    as [Hin | Heq]; [exact Hin | rewrite Heq; now left].
Qed.

(** Once every callback has settled and one of them rejected,
    [Promise.all] rejects. *)
Lemma Promise_all_rejects {A B} settles_first (f : A -> Outcome B) xs x e :
  In x xs -> f x = Throw e ->
  Forall (fun y => f y <> OutOfFuel) xs ->
  exists e', Promise_all settles_first f xs = Throw e'.
Proof.
  intros Hx Ex Hs. unfold Promise_all.
  assert (Hp : existsb pending (map f xs) = false).
  { clear Hx. induction Hs as [|y ys Hy _ IH]; [reflexivity |].
    simpl. rewrite IH. now destruct (f y). }
  rewrite Hp.
  destruct (omap rejection (map f xs)) as [|e0 es] eqn:Er.
  - exfalso. assert (Hin : In e (omap rejection (map f xs)))
      by (apply rejection_In; now exists x).
    now rewrite Er in Hin.
  - eexists; reflexivity.
Qed.

Lemma stringify_reads_back payload :
  payload <> VUndef ->
  exists text,
    JSON_stringify payload = VStr text /\
    ser payload = Some text /\
    JSON_parse text = Ret (norm payload).
Proof.
  intros Hdef. unfold JSON_stringify.
  destruct (ser payload) as [text|] eqn:E.
  - exists text. repeat split. now apply parse_stringify.
  - destruct payload; simpl in E; congruence.
Qed.

Ltac settle_binds H :=
  repeat (simpl in H;
          match type of H with
          | obind ?m _ = Ret _ => destruct m eqn:?; simpl in H; try discriminate H
          | match ?x with _ => _ end = Ret _ =>
              destruct x eqn:?; simpl in H; try discriminate H
          end).

(** The callback of [onRun], strategy by strategy: the value of the pair
    is [JSON.stringify] of the logical value of the strategy selected. *)
Lemma materialize_by_strategy host tc fuel state urn0 input :
  materialize host tc fuel state urn0 input
  = match strategy_of input with
    | Some s =>
        (payload <- logical_value host tc fuel state urn0 input s ;;
         Ret {| nodeId := input_id input; value := JSON_stringify payload |})%out
    | None =>
        Ret {| nodeId := input_id input;
               value := default VUndef (state !! input_id input) |}
    end.
Proof.
  unfold materialize, strategy_of.
  repeat match goal with
         | |- context [String.eqb ?a ?b] =>
             destruct (String.eqb a b); cbn [orb];
             [ unfold logical_value; cbn [obind];
               repeat match goal with
                      | |- context [match fst ?x with Some _ => _ | None => _ end] =>
                          destruct (fst x); cbn [obind]
                      | |- context [obind ?m _] =>
                          lazymatch m with
                          | obind _ _ => fail
                          | _ => destruct m; cbn [obind]
                          end
                      end;
               try reflexivity;
               match goal with
               | |- context [head ?l] => destruct l; reflexivity
               end | ]
         end.
  reflexivity.
Qed.

(** C2, as the code has it.  For an input that selects one of the
    extraction strategies, the value produced is [JSON.stringify] of the
    logical value of that strategy: unless that value is undefined, it is
    a string, and reading it as JSON gives the logical value back (without
    its undefined members).  For an input that selects none, the value is
    the one held by the UI state, passed on as it is. *)
Theorem materialized_value_shape :
  forall host tc fuel state urn0 input ri,
    materialize host tc fuel state urn0 input = Ret ri ->
    nodeId ri = input_id input /\
    match strategy_of input with
    | Some s =>
        exists payload,
          logical_value host tc fuel state urn0 input s = Ret payload /\
          value ri = JSON_stringify payload /\
          (payload <> VUndef ->
           exists text,
             value ri = VStr text /\ JSON_parse text = Ret (norm payload))
    | None => value ri = default VUndef (state !! input_id input)
    end.
Proof.
  intros host tc fuel state urn0 input ri H.
  rewrite materialize_by_strategy in H.
  destruct (strategy_of input) as [s|].
  - destruct (logical_value host tc fuel state urn0 input s) as [payload | e |];
      simpl in H; try discriminate.
    inversion H; subst ri. clear H. simpl. split; [reflexivity |].
    exists payload. split; [reflexivity | split; [reflexivity |]].
    intros Hdef. destruct (stringify_reads_back _ Hdef) as (text & E1 & _ & E2).
    exists text. split; [exact E1 | exact E2].
  - inversion H; subst ri. split; reflexivity.
Qed.

Lemma materialized_value_shape_witness :
  materialize bare_host keep_coordinates 1 ui_state "urn:root" project_input
  = Ret project_run_input /\
  nodeId project_run_input = "n3" /\
  exists payload,
    logical_value bare_host keep_coordinates 1 ui_state "urn:root" project_input
                  ProjectOnly = Ret payload /\
    value project_run_input = JSON_stringify payload /\
    (payload <> VUndef ->
     exists text,
       value project_run_input = VStr text /\ JSON_parse text = Ret (norm payload)).
Proof.
  split; [reflexivity |].
  apply (materialized_value_shape bare_host keep_coordinates 1 ui_state "urn:root"
           project_input project_run_input).
  reflexivity.
Defined.

(** One input for each strategy, on a host that answers every read:
    the value is a string, and read as JSON it is the logical value of
    the strategy. *)
Example each_strategy_reads_back :
  reads_back (probe "x" "SelectElementsExperimental")
             (VObj [("elements",
                     VObj [("urn:b", js_of_transform lifted_transform)]);
                    ("region", VStr "EMEA")]) /\
  reads_back (probe "x" "GetAllElementsExperimental")
             (VObj [("urn", VStr "urn:root"); ("region", VStr "EMEA")]) /\
  reads_back (probe "x" "GetProjectExperimental")
             (VObj [("projectId", VStr "pro_demo"); ("region", VStr "EMEA")]) /\
  reads_back (probe "x" "GetTerrainExperimental")
             (VObj [("elements",
                     VObj [("urn:a", js_of_transform lifted_transform)]);
                    ("region", VStr "EMEA")]) /\
  reads_back (probe "x" "FormaSelectElements")
             (norm (VArr [js_of_bundle
                            (survey_bundle "urn:b" (feature_of "fb" 3)
                                           (lifted "fb" 6))])) /\
  reads_back (probe "GetFormaElements" "x")
             (norm (VArr (map js_of_bundle
                              [root_bundle;
                               survey_bundle "urn:a" (feature_of "fa" 1)
                                             (lifted "fa" 2);
                               survey_bundle "urn:b" (feature_of "fb" 3)
                                             (lifted "fb" 6)]))) /\
  reads_back (probe "x" "FormaTerrain")
             (VArr [VArr (map VNum [0; 0; 0;  1; 0; 0;  0; 1; 0])]) /\
  reads_back (probe "x" "GetTerrain")
             (norm (js_of_bundle (survey_bundle "urn:a" (feature_of "fa" 1)
                                                (lifted "fa" 2)))) /\
  reads_back (probe "x" "FormaProject")
             (VObj [("name", VStr "Demo"); ("srid", VNum 3857)]) /\
  reads_back (probe "Triangles" "x")
             (VArr [VArr (map VNum [0; 0; 0;  1; 0; 0;  0; 1; 0])]) /\
  reads_back (probe "Footprint" "x")
             (VArr [VArr [VArr [VNum 0; VNum 0]; VArr [VNum 1; VNum 0];
                          VArr [VNum 0; VNum 1]]]) /\
  reads_back (probe "Metrics" "x")
             (VObj [("builtInMetrics", VObj [("grossFloorArea", VNum 120)])]).
Proof.
  unfold reads_back.
  repeat match goal with |- _ /\ _ => split end;
    (eexists; split; [vm_compute; reflexivity | vm_compute; reflexivity]).
Qed.

(** C2, as stated, fails on the fall-through case: the boolean held by
    the UI state for an input of type [boolean] is passed on as a boolean,
    not as a string. *)
Lemma fall_through_not_encoded :
  ~ value_always_json bare_host keep_coordinates 1 ui_state "urn:root" toggle_input.
Proof.
  intros H.
  destruct (H {| nodeId := "n1"; value := VBool true |} eq_refl)
    as (text & payload & E & _).
  discriminate E.
Qed.

(** A string held by the UI state is passed on unquoted, which is not
    JSON text. *)
Lemma fall_through_string_not_json :
  ~ value_always_json bare_host keep_coordinates 1 ui_state "urn:root" label_input.
Proof.
  intros H.
  destruct (H {| nodeId := "n2"; value := VStr "hello" |} eq_refl)
    as (text & payload & E & _ & Hparse).
  inversion E; subst text. vm_compute in Hparse. discriminate Hparse.
Qed.

(** With no terrain path the [GetTerrain] strategy has an undefined
    logical value, and so has the pair. *)
Example terrain_without_path :
  materialize bare_host keep_coordinates 1 ui_state "urn:root" terrain_input
  = Ret {| nodeId := "n4"; value := VUndef |}.
Proof. reflexivity. Qed.

(** * Further properties *)

(** ** Volume collection loader: order and errors *)

Section WalkOrder.

Variable host : Host.
Variable tc : Transform -> jsval -> jsval.
Variable elements : gmap string Element.

Abbreviation walked := (walked host tc elements).

Lemma walked_nil : walked [] [].
Proof.
  intros rest cols. exists 0%nat. intros fuel. now rewrite app_nil_r.
Qed.

Lemma walked_app es1 es2 cs1 cs2 :
  walked es1 cs1 -> walked es2 cs2 -> walked (es1 ++ es2) (cs1 ++ cs2).
Proof.
  intros H1 H2 rest cols.
  destruct (H1 (es2 ++ rest) cols) as [k1 E1].
  destruct (H2 rest (cols ++ cs1)) as [k2 E2].
  exists (k1 + k2)%nat. intros fuel.
  rewrite <- List.app_assoc, <- Nat.add_assoc, E1, E2.
  now rewrite List.app_assoc.
Qed.

Lemma walked_gather {A} (entry : A -> string * option Element)
      (f : A -> option (list FeatureCollection)) xs :
  (forall x c, In x xs -> f x = Some c -> walked [entry x] c) ->
  forall cs, gather f xs = Some cs -> walked (map entry xs) cs.
Proof.
  induction xs as [|x xs IH]; intros Hx cs Hg; simpl in Hg.
  - inversion Hg. apply walked_nil.
  - destruct (f x) as [a|] eqn:Ea; [| discriminate].
    destruct (gather f xs) as [b|] eqn:Eb; [| discriminate].
    inversion Hg; subst.
    change (map entry (x :: xs)) with ([entry x] ++ map entry xs).
    apply walked_app.
    + apply Hx; [now left | exact Ea].
    + apply IH; [| reflexivity]. intros y c Hy. apply Hx. now right.
Qed.

(** One iteration on a node that is there and whose own collections are
    [own]. *)
Lemma walk_node fuel path el rest cols own :
  node_collections host tc path el = Ret own ->
  walk host tc elements (S fuel) ((path, Some el) :: rest) cols
  = walk host tc elements fuel
      (rev (map (fun child => (path +:+ "/" +:+ key child,
                               elements !! child_urn child))
                (default [] (children el))) ++ rest)
      (cols ++ own).
Proof.
  unfold node_collections. intros H. simpl.
  destruct (loadVolume25Collection host (volume25DCollectionRep el))
    as [[collection|] | e |]; simpl in *; try discriminate.
  - destruct (getWorldTransform host path) as [t | e |]; simpl in *;
      try discriminate.
    destruct (createSelectionPredicate _) as [p | e |]; simpl in *;
      try discriminate.
    now inversion H.
  - inversion H. now rewrite app_nil_r.
Qed.

Lemma subtree_walked depth :
  forall path element cs,
    subtree_collections host tc elements depth path element = Some cs ->
    walked [(path, element)] cs.
Proof.
  induction depth as [|depth IH]; intros path element cs H; [discriminate |].
  simpl in H. destruct element as [el|]; [| discriminate].
  destruct (node_collections host tc path el) as [own | e |] eqn:Eown;
    try discriminate.
  destruct (gather _ _) as [below|] eqn:Eg; [| discriminate].
  inversion H; subst cs. clear H.
  apply (walked_gather
           (fun child => (path +:+ "/" +:+ key child, elements !! child_urn child)))
    in Eg; [| intros child c _ Hc; now apply IH].
  rewrite map_rev in Eg.
  intros rest cols. destruct (Eg rest (cols ++ own)) as [k E].
  exists (S k). intros fuel.
  change (S k + fuel)%nat with (S (k + fuel)).
  change ([(path, Some el)] ++ rest) with ((path, Some el) :: rest).
  rewrite (walk_node _ _ _ _ _ own Eown), E.
  now rewrite List.app_assoc.
Qed.

(** *** The features that the loader returns *)

Lemma gather_defined {A} (f : A -> option (list FeatureCollection)) xs cs :
  gather f xs = Some cs -> forall x, In x xs -> exists c, f x = Some c.
Proof.
  revert cs. induction xs as [|y xs IH]; intros cs Hg x Hx; [destruct Hx |].
  simpl in Hg. destruct (f y) as [a|] eqn:Ea; [| discriminate].
  destruct (gather f xs) as [b|] eqn:Eb; [| discriminate].
  destruct Hx as [<- | Hx]; [now exists a | now apply (IH b)].
Qed.

Lemma features_app (a b : list FeatureCollection) :
  concat (map features (a ++ b))
  = concat (map features a) ++ concat (map features b).
Proof. now rewrite map_app, concat_app. Qed.

Lemma node_features path el own :
  node_collections host tc path el = Ret own ->
  forall out,
    In out (concat (map features own))
    <-> exists transform feature,
          loads_feature host path el transform feature /\
          out = transformFeature tc transform feature.
Proof.
  unfold node_collections, loads_feature. intros H out.
  destruct (loadVolume25Collection host (volume25DCollectionRep el))
    as [[collection|] | e |]; simpl in H; try discriminate.
  - destruct (getWorldTransform host path) as [t | e |]; simpl in H;
      try discriminate.
    destruct (createSelectionPredicate _) as [accepts | e |]; simpl in H;
      try discriminate.
    inversion H; subst own. clear H. simpl. rewrite app_nil_r.
    rewrite in_map_iff. split.
    + intros (feature & <- & Hin). apply filter_In in Hin as [Hin Hacc].
      exists t, feature. split; [| reflexivity].
      exists collection, accepts. repeat split; assumption.
    + intros (t' & feature & (c' & a' & Hc & Ht & Ha & Hin & Hacc) & ->).
      inversion Hc; inversion Ht; inversion Ha; subst.
      exists feature. split; [reflexivity |]. apply filter_In. now split.
  - inversion H; subst own. simpl. split; [intros [] |].
    intros (t & feature & (c' & a' & Hc & _) & _). discriminate Hc.
Qed.

Lemma gather_features {A} (f : A -> option (list FeatureCollection)) xs :
  forall cs,
    gather f xs = Some cs ->
    forall out,
      In out (concat (map features cs))
      <-> exists x c, In x xs /\ f x = Some c /\ In out (concat (map features c)).
Proof.
  induction xs as [|x xs IH]; intros cs Hg out; simpl in Hg.
  - inversion Hg; subst cs. simpl. split; [intros [] | intros (x & c & [] & _)].
  - destruct (f x) as [a|] eqn:Ea; [| discriminate].
    destruct (gather f xs) as [b|] eqn:Eb; [| discriminate].
    inversion Hg; subst cs. clear Hg.
    rewrite features_app, in_app_iff, (IH b eq_refl out). split.
    + intros [Ha | (y & c & Hy & Ey & Hout)].
      * exists x, a. repeat split; [now left | exact Ea | exact Ha].
      * exists y, c. repeat split; [now right | exact Ey | exact Hout].
    + intros (y & c & [<- | Hy] & Ey & Hout).
      * left. congruence.
      * right. now exists y, c.
Qed.

Lemma subtree_features depth :
  forall path element cs,
    subtree_collections host tc elements depth path element = Some cs ->
    forall out,
      In out (concat (map features cs))
      <-> exists p el transform feature,
            in_subtree elements depth path element p el /\
            loads_feature host p el transform feature /\
            out = transformFeature tc transform feature.
Proof.
  induction depth as [|depth IH]; intros path element cs H out; [discriminate |].
  simpl in H. destruct element as [e|]; [| discriminate].
  destruct (node_collections host tc path e) as [own | ? |] eqn:Eown;
    try discriminate.
  destruct (gather _ _) as [below|] eqn:Eg; [| discriminate].
  inversion H; subst cs. clear H.
  rewrite features_app, in_app_iff, (node_features _ _ _ Eown out),
    (gather_features _ _ _ Eg out).
  cbn [in_subtree]. split.
  - intros [(t & feature & Hl & ->) | (child & c & Hin & Hc & Hout)].
    + exists path, e, t, feature. repeat split; [now left | exact Hl].
    + apply (IH _ _ _ Hc) in Hout as (p & el & t & feature & Hs & Hl & ->).
      exists p, el, t, feature. repeat split; [| exact Hl].
      right. exists child. split; [| exact Hs].
      now apply in_rev in Hin.
  - intros (p & el & t & feature & [[-> ->] | (child & Hin & Hs)] & Hl & ->).
    + left. now exists t, feature.
    + right.
      assert (Hr : In child (rev (default [] (children e))))
        by now apply -> in_rev.
      destruct (gather_defined _ _ _ Eg child Hr) as [c Hc].
      exists child, c. repeat split; [exact Hr | exact Hc |].
      apply (IH _ _ _ Hc). now exists p, el, t, feature.
Qed.

End WalkOrder.

(** C5.  Every feature without elevation that the loader meets in the
    subtree of the requested path, at a node whose world transform has the
    vertical translation T = [transform[14]] and any vertical scale, is in
    the collection that the loader returns, transformed, with elevation
    exactly T; and nothing else is returned: each feature of the result is
    the transform of a feature met in the subtree, with elevation T when
    that feature had none. *)
Theorem elevation_absent_is_translation :
  forall host tc path got depth cs,
    getByPath host path true = Ret got ->
    subtree_collections host tc (snd got) depth path (fst got) = Some cs ->
    exists fuel0, forall fuel, (fuel0 <= fuel)%nat ->
      exists collection,
        getVolume25DForSubTree host tc fuel path = Ret (Some collection) /\
        (forall p el transform feature,
            in_subtree (snd got) depth path (fst got) p el ->
            loads_feature host p el transform feature ->
            f_elevation feature = None ->
            In (transformFeature tc transform feature) (features collection) /\
            f_elevation (transformFeature tc transform feature)
            = Some (tget transform 14)) /\
        (forall out,
            In out (features collection) ->
            exists p el transform feature,
              in_subtree (snd got) depth path (fst got) p el /\
              loads_feature host p el transform feature /\
              out = transformFeature tc transform feature /\
              (f_elevation feature = None ->
               f_elevation out = Some (tget transform 14))).
Proof.
  intros host tc path got depth cs Hgot Hs.
  destruct (subtree_walked host tc (snd got) depth path (fst got) cs Hs [] [])
    as [k E].
  exists k. intros fuel Hle.
  exists {| features := concat (map features cs) |}. split; [| split].
  - unfold getVolume25DForSubTree. rewrite Hgot. simpl.
    replace fuel with (k + (fuel - k))%nat by lia.
    change [(path, fst got)] with ([(path, fst got)] ++ []).
    rewrite E. now destruct (fuel - k)%nat.
  - intros p el transform feature Hin Hl He. split.
    + apply (subtree_features host tc (snd got) depth path (fst got) cs Hs).
      now exists p, el, transform, feature.
    + now apply elevation_absent_unscaled.
  - intros out Hout.
    apply (subtree_features host tc (snd got) depth path (fst got) cs Hs)
      in Hout as (p & el & transform & feature & Hin & Hl & ->).
    exists p, el, transform, feature. repeat split; try assumption.
    apply elevation_absent_unscaled.
Qed.

Lemma elevation_absent_is_translation_witness :
  getByPath volume_host "root" true
  = Ret (volume_store !! "urn:root", volume_store) /\
  subtree_collections volume_host keep_coordinates volume_store 1 "root"
                      (volume_store !! "urn:root")
  = Some [ {| features := map (transformFeature keep_coordinates lifted_transform)
                              [raised_feature; ground_feature] |} ] /\
  f_elevation ground_feature = None /\
  tget lifted_transform 10 = 2 /\
  tget lifted_transform 14 = 5 /\
  exists fuel0, forall fuel, (fuel0 <= fuel)%nat ->
    exists collection,
      getVolume25DForSubTree volume_host keep_coordinates fuel "root"
      = Ret (Some collection) /\
      In {| f_id := "b"; f_height := 20; f_elevation := Some 5;
            f_coordinates := [] |} (features collection).
Proof.
  split; [reflexivity | split; [reflexivity |]].
  split; [reflexivity | split; [reflexivity | split; [reflexivity |]]].
  destruct (elevation_absent_is_translation volume_host keep_coordinates "root"
              (volume_store !! "urn:root", volume_store) 1
              [ {| features := map (transformFeature keep_coordinates lifted_transform)
                                   [raised_feature; ground_feature] |} ]
              eq_refl eq_refl) as [fuel0 H].
  exists fuel0. intros fuel Hle.
  destruct (H fuel Hle) as (collection & Hload & Hmet & _).
  exists collection. split; [exact Hload |].
  refine (proj1 (Hmet "root" _ lifted_transform ground_feature _ _ eq_refl)).
  - left. split; reflexivity.
  - eexists _, _. repeat split; try reflexivity. right. now left.
Defined.

(** X1.  The loader returns the features in the order of its walk: those
    of a node first, then those of the subtrees of its children, the
    last child first.  Whenever that listing exists for the subtree, the
    loader, given enough fuel, returns exactly it. *)
Theorem loader_visits_last_child_first :
  forall host tc path got depth cs,
    getByPath host path true = Ret got ->
    subtree_collections host tc (snd got) depth path (fst got) = Some cs ->
    exists fuel0, forall fuel, (fuel0 <= fuel)%nat ->
      getVolume25DForSubTree host tc fuel path
      = Ret (Some {| features := concat (map features cs) |}).
Proof.
  intros host tc path got depth cs Hgot Hs.
  destruct (subtree_walked host tc (snd got) depth path (fst got) cs Hs [] [])
    as [k E].
  exists k. intros fuel Hle.
  unfold getVolume25DForSubTree. rewrite Hgot. simpl.
  replace fuel with (k + (fuel - k))%nat by lia.
  change [(path, fst got)] with ([(path, fst got)] ++ []).
  rewrite E. now destruct (fuel - k)%nat.
Qed.

Lemma loader_visits_last_child_first_witness :
  getByPath sibling_host "root" true
  = Ret (sibling_store !! "urn:root", sibling_store) /\
  subtree_collections sibling_host keep_coordinates sibling_store 2 "root"
                      (sibling_store !! "urn:root")
  = Some sibling_collections /\
  exists fuel0, forall fuel, (fuel0 <= fuel)%nat ->
    getVolume25DForSubTree sibling_host keep_coordinates fuel "root"
    = Ret (Some {| features :=
                     [ {| f_id := "fb"; f_height := 6; f_elevation := Some 5;
                          f_coordinates := [] |};
                       {| f_id := "fa"; f_height := 2; f_elevation := Some 5;
                          f_coordinates := [] |} ] |}).
Proof.
  split; [reflexivity | split; [vm_compute; reflexivity |]].
  apply (loader_visits_last_child_first sibling_host keep_coordinates "root"
           (sibling_store !! "urn:root", sibling_store) 2 sibling_collections);
    [reflexivity | vm_compute; reflexivity].
Defined.

(** X2.  A selection of an unknown kind makes the loader throw only on a
    node whose collection loads: with an embedded collection the walk
    stops on the error [Invalid selection: ...]; with a representation of
    another kind, which resolves to no collection, the same selection is
    never looked at and the leaf yields an empty collection. *)
Theorem invalid_selection_needs_collection :
  forall host tc path el elements sel t transform fuel,
    getByPath host path true = Ret (Some el, elements) ->
    sel_type sel = Some t -> t <> "equals" -> t <> "startsWith" ->
    getWorldTransform host path = Ret transform ->
    (forall collection,
        volume25DCollectionRep el = Some (EmbeddedJson (Some collection) (Some sel)) ->
        getVolume25DForSubTree host tc (S fuel) path
        = Throw (Error ("Invalid selection: "
                        +:+ js_to_string (JSON_stringify (js_of_selection sel))))) /\
    (forall kind,
        volume25DCollectionRep el = Some (OtherRepresentation kind (Some sel)) ->
        children el = None ->
        getVolume25DForSubTree host tc (S fuel) path
        = Ret (Some {| features := [] |})).
Proof.
  intros host tc path el elements sel t transform fuel Hgot Ht H1 H2 Htr.
  split.
  - intros collection Hrep. unfold getVolume25DForSubTree.
    rewrite Hgot. simpl. rewrite Hrep. simpl. rewrite Htr. simpl.
    rewrite Ht. apply String.eqb_neq in H1, H2. now rewrite H1, H2.
  - intros kind Hrep Hleaf. unfold getVolume25DForSubTree.
    rewrite Hgot. simpl. rewrite Hrep, Hleaf. simpl. now destruct fuel.
Qed.

Lemma invalid_selection_needs_collection_witness :
  getByPath odd_host "root" true = Ret (odd_store !! "urn:root", odd_store) /\
  getVolume25DForSubTree odd_host keep_coordinates 1 "root"
  = Throw (Error ("Invalid selection: {" +:+ quote "type" +:+ ":" +:+ quote "contains"
                  +:+ "," +:+ quote "value" +:+ ":" +:+ quote "f" +:+ "}")).
Proof.
  split; [reflexivity |].
  apply (proj1 (invalid_selection_needs_collection odd_host keep_coordinates "root"
                  (holder "urn:root" (feature_of "fa" 1) (Some odd_selection))
                  odd_store odd_selection "contains" identityTransform 0
                  eq_refl eq_refl ltac:(discriminate) ltac:(discriminate) eq_refl)
               {| features := [feature_of "fa" 1] |}).
  reflexivity.
Defined.

(** X3.  A child that refers to an element missing from the store aborts
    the loader with a TypeError once the walk reaches it; the child
    pushed last is reached right after its parent. *)
Theorem dangling_child_aborts_loader :
  forall host tc path el elements own before child fuel,
    getByPath host path true = Ret (Some el, elements) ->
    node_collections host tc path el = Ret own ->
    children el = Some (before ++ [child]) ->
    elements !! child_urn child = None ->
    getVolume25DForSubTree host tc (S (S fuel)) path
    = Throw (TypeError "Cannot read properties of undefined").
Proof.
  intros host tc path el elements own before child fuel Hgot Hown Hkids Hgone.
  unfold getVolume25DForSubTree. rewrite Hgot.
  cbn [obind fst snd].
  rewrite (walk_node host tc elements (S fuel) path el [] [] own Hown).
  rewrite Hkids.
  change (default [] (Some (before ++ [child]))) with (before ++ [child]).
  rewrite map_app, rev_app_distr. cbn [map rev app].
  rewrite Hgone. reflexivity.
Qed.

Lemma dangling_child_aborts_loader_witness :
  getByPath dangling_host "root" true
  = Ret (Some (node "urn:root" [("gone", "urn:gone")]), dangling_store) /\
  getVolume25DForSubTree dangling_host keep_coordinates 2 "root"
  = Throw (TypeError "Cannot read properties of undefined").
Proof.
  split; [reflexivity |].
  apply (dangling_child_aborts_loader dangling_host keep_coordinates "root"
           (node "urn:root" [("gone", "urn:gone")]) dangling_store []
           [] {| key := "gone"; child_urn := "urn:gone" |} 0);
    reflexivity.
Defined.

(** ** Graph-execution client: headers, failures, bodies *)

(** X4.  A request that already carries an Authorization header, in any
    letter case, leaves as it is: the provider is not asked, so even a
    provider that fails does not get in the way. *)
Theorem existing_authorization_kept :
  forall srv dynamo u i tr,
    headers_has (headers i) "Authorization" = true ->
    _fetch srv dynamo u (Some i) tr = fetch srv u (Some i) tr /\
    requests (snd (_fetch srv dynamo u (Some i) tr))
    = requests tr ++ [ {| req_url := u;
                          req_method := default "GET" (method i);
                          req_headers := headers i;
                          req_body := body i |} ].
Proof.
  intros srv dynamo u i tr H.
  assert (E : _fetch srv dynamo u (Some i) tr = fetch srv u (Some i) tr).
  { unfold _fetch. destruct (authProvider dynamo); [| reflexivity].
    now rewrite H. }
  split; [exact E |].
  rewrite E. unfold fetch. simpl. now rewrite requests_app.
Qed.

Lemma existing_authorization_kept_witness :
  headers_has (headers signed_init) "Authorization" = true /\
  requests (snd (_fetch scripted_service failing_provider "https://daas.example/x"
                        (Some signed_init) []))
  = [ {| req_url := "https://daas.example/x"; req_method := "POST";
         req_headers := [("authorization", "Basic abc")]; req_body := None |} ].
Proof.
  split; [reflexivity |].
  apply (proj2 (existing_authorization_kept scripted_service failing_provider
                  "https://daas.example/x" signed_init [] eq_refl)).
Defined.

(** X5.  When the token provider fails, every call but [serverInfo]
    rejects with the provider's error before anything is sent. *)
Theorem provider_failure_sends_nothing :
  forall srv runSync dynamo c e tr,
    authProvider dynamo = Some (Throw e) ->
    is_server_info c = false ->
    perform srv runSync dynamo c tr = (Throw e, tr).
Proof.
  intros srv runSync dynamo c e tr Hp Hc.
  destruct c as [fuel target inputs | path | target | path | ];
    try discriminate Hc;
    unfold perform, run, runAsync, folder, info, trust, nbind, _fetch;
    rewrite Hp; try reflexivity.
  destruct (negb runSync && negb (String.prefix "http://localhost" (url dynamo)));
    reflexivity.
Qed.

Lemma provider_failure_sends_nothing_witness :
  authProvider failing_provider = Some (Throw (HostError "no session")) /\
  is_server_info (CallInfo demo_target) = false /\
  perform scripted_service false failing_provider (CallInfo demo_target) []
  = (Throw (HostError "no session"), []).
Proof.
  split; [reflexivity | split; [reflexivity |]].
  apply (provider_failure_sends_nothing scripted_service false failing_provider
           (CallInfo demo_target) (HostError "no session") []);
    reflexivity.
Defined.

(** X6.  When job creation is answered with a status other than 200,
    [runAsync] throws a [FetchError] with the status text and the status
    of that answer, and sends nothing more: no upload, no trigger. *)
Theorem job_creation_failure_stops_run :
  forall srv dynamo fuel target inputs tr createJob tr1,
    _fetch srv dynamo (url dynamo +:+ "/v1/graph/job/create")
           (Some (init_of "GET" None)) tr = (Ret createJob, tr1) ->
    status createJob <> 200 ->
    runAsync srv dynamo fuel target inputs tr
    = (Throw (FetchError (statusText createJob) (status createJob)), tr1).
Proof.
  intros srv dynamo fuel target inputs tr createJob tr1 Hc Hs.
  unfold runAsync. rewrite (nbind_ret _ _ tr createJob tr1 Hc). cbv beta.
  apply Z.eqb_neq in Hs. now rewrite Hs.
Qed.

Lemma job_creation_failure_stops_run_witness :
  _fetch busy_service daas (url daas +:+ "/v1/graph/job/create")
         (Some (init_of "GET" None)) []
  = (Ret {| status := 503; statusText := "Service Unavailable"; json := Ret VNull |},
     [Fetched (plain_request "GET" "https://daas.example/v1/graph/job/create" None)]) /\
  runAsync busy_service daas 1 demo_target [] []
  = (Throw (FetchError "Service Unavailable" 503),
     [Fetched (plain_request "GET" "https://daas.example/v1/graph/job/create" None)]).
Proof.
  split; [reflexivity |].
  apply (job_creation_failure_stops_run busy_service daas 1 demo_target [] []
           {| status := 503; statusText := "Service Unavailable"; json := Ret VNull |}
           [Fetched (plain_request "GET" "https://daas.example/v1/graph/job/create"
                                   None)]);
    [reflexivity | discriminate].
Defined.

Lemma runAsync_created srv dynamo fuel target inputs tr createJob created tr1 :
  _fetch srv dynamo (url dynamo +:+ "/v1/graph/job/create")
         (Some (init_of "GET" None)) tr = (Ret createJob, tr1) ->
  status createJob = 200 ->
  json createJob = Ret created ->
  created <> VUndef -> created <> VNull ->
  runAsync srv dynamo fuel target inputs tr
  = after_creation srv dynamo fuel created target inputs tr1.
Proof.
  intros Hc Hs Hj Hu Hn.
  assert (Hprop : forall k, prop created k = Ret (opt_prop created k))
    by (intros k; destruct created; try reflexivity; congruence).
  unfold runAsync, after_creation.
  rewrite (nbind_ret _ _ tr createJob tr1 Hc).
  cbv beta. rewrite Hs. change (negb (200 =? 200)) with false. cbv iota.
  rewrite (nbind_ret _ _ tr1 created tr1) by (unfold lift; now rewrite Hj).
  cbv beta.
  rewrite (nbind_ret _ _ tr1 (opt_prop created "jobId") tr1)
    by (unfold lift; now rewrite Hprop).
  cbv beta.
  rewrite (nbind_ret _ _ tr1 (opt_prop created "uploadUrl") tr1)
    by (unfold lift; now rewrite Hprop).
  reflexivity.
Qed.

Lemma fetch_plain srv m u b tr :
  fetch srv u (Some (init_of m b)) tr
  = (srv tr (plain_request m u b), tr ++ [Fetched (plain_request m u b)]).
Proof. reflexivity. Qed.

(** X7.  When the trigger of a created job is answered with a status
    other than 200, [runAsync] throws a [FetchError] with the status text
    and the status of that answer; the loop that waits for the job is not
    entered. *)
Theorem trigger_failure_stops_run :
  forall srv dynamo fuel target inputs tr createJob created tr1 uploaded
         response tr2,
    _fetch srv dynamo (url dynamo +:+ "/v1/graph/job/create")
           (Some (init_of "GET" None)) tr = (Ret createJob, tr1) ->
    status createJob = 200 ->
    json createJob = Ret created ->
    created <> VUndef -> created <> VNull ->
    srv tr1 (upload_request created target inputs) = Ret uploaded ->
    _fetch srv dynamo
           (url dynamo +:+ "/v1/graph/job/"
            +:+ js_to_string (opt_prop created "jobId") +:+ "/run?passtoken=1")
           (Some (init_of "POST" None))
           (tr1 ++ [Fetched (upload_request created target inputs)])
    = (Ret response, tr2) ->
    status response <> 200 ->
    runAsync srv dynamo fuel target inputs tr
    = (Throw (FetchError (statusText response) (status response)), tr2).
Proof.
  intros srv dynamo fuel target inputs tr createJob created tr1 uploaded
         response tr2 Hc Hs Hj Hu Hn Hup Htrig Hst.
  rewrite (runAsync_created _ _ _ _ _ _ _ _ _ Hc Hs Hj Hu Hn).
  unfold after_creation.
  rewrite (nbind_ret _ _ tr1 uploaded
             (tr1 ++ [Fetched (upload_request created target inputs)]))
    by (rewrite fetch_plain; fold (upload_request created target inputs);
        now rewrite Hup).
  cbv beta. rewrite (nbind_ret _ _ _ response tr2 Htrig). cbv beta.
  apply Z.eqb_neq in Hst. now rewrite Hst.
Qed.

(** X8.  The answer to the upload is not read, but the upload has to
    settle: when the request itself fails, [runAsync] rejects with that
    failure and the job is never triggered. *)
Theorem upload_failure_stops_run :
  forall srv dynamo fuel target inputs tr createJob created tr1 e,
    _fetch srv dynamo (url dynamo +:+ "/v1/graph/job/create")
           (Some (init_of "GET" None)) tr = (Ret createJob, tr1) ->
    status createJob = 200 ->
    json createJob = Ret created ->
    created <> VUndef -> created <> VNull ->
    srv tr1 (upload_request created target inputs) = Throw e ->
    runAsync srv dynamo fuel target inputs tr
    = (Throw e, tr1 ++ [Fetched (upload_request created target inputs)]).
Proof.
  intros srv dynamo fuel target inputs tr createJob created tr1 e
         Hc Hs Hj Hu Hn Hup.
  rewrite (runAsync_created _ _ _ _ _ _ _ _ _ Hc Hs Hj Hu Hn).
  unfold after_creation, nbind. rewrite fetch_plain.
  fold (upload_request created target inputs). now rewrite Hup.
Qed.

Lemma trigger_failure_stops_run_witness :
  runAsync untriggered_service daas 1 demo_target [] []
  = (Throw (FetchError "Conflict" 409),
     [Fetched create_request;
      Fetched (upload_request created_j1 demo_target []);
      Fetched trigger_request]).
Proof.
  apply (trigger_failure_stops_run untriggered_service daas 1 demo_target [] []
           (ok_response created_j1) created_j1 [Fetched create_request]
           (ok_response VNull) conflict);
    first [reflexivity | discriminate].
Defined.

Lemma upload_failure_stops_run_witness :
  runAsync dropping_service daas 1 demo_target [] []
  = (Throw (TypeError "Failed to fetch"),
     [Fetched create_request; Fetched (upload_request created_j1 demo_target [])]).
Proof.
  apply (upload_failure_stops_run dropping_service daas 1 demo_target [] []
           (ok_response created_j1) created_j1 [Fetched create_request]
           (TypeError "Failed to fetch"));
    first [reflexivity | discriminate].
Defined.

(** X9.  [folder], [trust], [serverInfo] and [run] in its synchronous
    mode do not look at the status: against a service that answers every
    request with [r], each of them settles as [r.json()] does, also when
    the status of [r] is a failure. *)
Theorem status_not_checked :
  forall r runSync dynamo c tr,
    provider_ready dynamo ->
    status_unchecked runSync dynamo c = true ->
    fst (perform (fun _ _ => Ret r) runSync dynamo c tr) = json r.
Proof.
  intros r runSync dynamo c tr Hp Hc.
  assert (Hf : forall u i tr',
             fst (nbind (_fetch (fun _ _ => Ret r) dynamo u i)
                        (fun response => lift (json response)) tr') = json r).
  { intros u i tr'. unfold nbind, _fetch.
    destruct Hp as [Hp | [token Hp]]; rewrite Hp.
    - unfold fetch. simpl. now destruct (json r).
    - destruct i as [i|]; [| unfold fetch; simpl; now destruct (json r)].
      destruct (negb (headers_has (headers i) "Authorization"));
        unfold nbind, lift, fetch; simpl; now destruct (json r). }
  destruct c as [fuel target inputs | path | target | path | ];
    simpl in Hc; try discriminate Hc; unfold perform.
  - unfold run. rewrite <- negb_orb, Hc. simpl. apply Hf.
  - apply Hf.
  - apply Hf.
  - apply Hf.
Qed.

Lemma status_not_checked_witness :
  provider_ready daas /\
  status_unchecked false daas (CallFolder "C:\graphs") = true /\
  fst (perform failing_service false daas (CallFolder "C:\graphs") [])
  = Ret error_body.
Proof.
  split; [now left | split; [reflexivity |]].
  apply (status_not_checked
           {| status := 500; statusText := "Internal Server Error";
              json := Ret error_body |} false daas (CallFolder "C:\graphs") []);
    [now left | reflexivity].
Defined.

(** X10.  Once the info request is answered, [reload] ends in the loaded
    state with [data] exactly when the status is 200 and the body parses
    to [data]. *)
Theorem reload_loaded_iff :
  forall srv dynamo script tr response tr1 data,
    _fetch srv dynamo (url dynamo +:+ "/v1/graph/info")
           (Some (init_of "POST" (info_body (script_target script)))) tr
    = (Ret response, tr1) ->
    (fst (reload srv dynamo script tr) = Ret (SLoaded data)
     <-> status response = 200 /\ json response = Ret data).
Proof.
  intros srv dynamo script tr response tr1 data Hf.
  unfold reload, info. rewrite (nbind_ret _ _ tr response tr1 Hf). cbv beta.
  destruct (status response =? 200) eqn:Es.
  - apply Z.eqb_eq in Es. unfold lift. cbn [fst].
    destruct (json response) as [body | e |]; cbn [settle].
    + split; [intros H; inversion H; now split | intros [_ H]; now inversion H].
    + split; [| intros [_ H]; discriminate H].
      destruct (_ && _); discriminate.
    + split; [discriminate | intros [_ H]; discriminate H].
  - apply Z.eqb_neq in Es. split; [| intros [H _]; contradiction].
    unfold nbind, lift, nthrow, lift.
    destruct (json response) as [body | e |]; cbn [fst settle];
      try destruct (_ && _); discriminate.
Qed.

Lemma reload_loaded_iff_witness :
  _fetch graph_service daas (url daas +:+ "/v1/graph/info")
         (Some (init_of "POST" (info_body (script_target demo_script)))) []
  = (Ret (ok_response scripted_result),
     [Fetched (plain_request "POST" "https://daas.example/v1/graph/info"
                             (info_body (script_target demo_script)))]) /\
  fst (reload graph_service daas demo_script []) = Ret (SLoaded scripted_result).
Proof.
  split; [reflexivity |].
  apply (reload_loaded_iff graph_service daas demo_script []
           (ok_response scripted_result)
           [Fetched (plain_request "POST" "https://daas.example/v1/graph/info"
                                   (info_body (script_target demo_script)))]
           scripted_result eq_refl).
  split; reflexivity.
Defined.

Lemma double_backslashes_length path :
  String.length (double_backslashes path)
  = (String.length path + count_char backslash path)%nat.
Proof.
  induction path as [|c path IH]; [reflexivity |].
  simpl. destruct (Ascii.eqb c backslash); simpl; rewrite IH; lia.
Qed.

(** X11.  [folder] posts one request whose body is JSON text holding the
    path with every backslash written twice: read back, the path is
    longer than the one given by the number of its backslashes. *)
Theorem folder_doubles_backslashes :
  forall srv dynamo path tr,
    provider_ready dynamo ->
    exists request text,
      requests (snd (folder srv dynamo path tr)) = requests tr ++ [request] /\
      req_method request = "POST" /\
      req_url request = url dynamo +:+ "/v1/graph-folder/info" /\
      req_body request = Some text /\
      JSON_parse text = Ret (VObj [("path", VStr (double_backslashes path))]) /\
      String.length (double_backslashes path)
      = (String.length path + count_char backslash path)%nat.
Proof.
  intros srv dynamo path tr Hp.
  destruct (ser (VObj [("path", VStr (double_backslashes path))])) as [text|] eqn:E;
    [| discriminate E].
  pose proof (parse_stringify _ _ E) as Hparse.
  change (norm (VObj [("path", VStr (double_backslashes path))]))
    with (VObj [("path", VStr (double_backslashes path))]) in Hparse.
  assert (Hsend : exists hs,
             snd (folder srv dynamo path tr)
             = tr ++ [Fetched {| req_url := url dynamo +:+ "/v1/graph-folder/info";
                                 req_method := "POST"; req_headers := hs;
                                 req_body := Some text |}]).
  { unfold folder, nbind, _fetch. rewrite E.
    destruct Hp as [Hp | [token Hp]]; rewrite Hp; eexists;
      unfold nbind, lift, fetch; simpl;
      match goal with |- context [srv ?t ?q] => destruct (srv t q) end;
      reflexivity. }
  destruct Hsend as [hs Hsend].
  eexists _, text. rewrite Hsend, requests_app. simpl.
  repeat split; try reflexivity; [exact Hparse | apply double_backslashes_length].
Qed.

Lemma folder_doubles_backslashes_witness :
  provider_ready daas /\
  exists request text,
    requests (snd (folder failing_service daas "C:\graphs" [])) = [request] /\
    req_method request = "POST" /\
    req_url request = "https://daas.example/v1/graph-folder/info" /\
    req_body request = Some text /\
    JSON_parse text = Ret (VObj [("path", VStr "C:\\graphs")]) /\
    String.length (double_backslashes "C:\graphs") = (9 + 1)%nat.
Proof.
  split; [now left |].
  apply (folder_doubles_backslashes failing_service daas "C:\graphs" []).
  now left.
Defined.

Lemma norm_inputs inputs :
  norm (VArr (map js_of_input inputs))
  = VArr (map (fun i => norm (js_of_input i)) inputs).
Proof. rewrite norm_array, map_map. reflexivity. Qed.

(** X12.  The payload of a run (the body of the synchronous request and
    of the upload) is JSON text: read back, it holds the target, the four
    flags set to false and the inputs in order; an input whose value is
    undefined is left with its node id alone. *)
Theorem run_payload_decodes :
  forall target inputs,
    target <> VUndef ->
    (exists text,
        run_body target inputs = Some text /\
        JSON_parse text
        = Ret (VObj [("target", norm target);
                     ("ignoreInputs", VBool false);
                     ("getImage", VBool false);
                     ("getGeometry", VBool false);
                     ("getContents", VBool false);
                     ("inputs", VArr (map (fun i => norm (js_of_input i)) inputs))])) /\
    (forall id, norm (js_of_input {| nodeId := id; value := VUndef |})
                = VObj [("nodeId", VStr id)]).
Proof.
  intros target inputs Ht. split; [| reflexivity].
  unfold run_body.
  destruct (ser (VObj _)) as [text|] eqn:E; [| discriminate E].
  exists text. split; [reflexivity |].
  rewrite (parse_stringify _ _ E). f_equal.
  rewrite norm_object.
  assert (Hd : defined target = true)
    by (destruct target; [contradiction | reflexivity ..]).
  unfold present. simpl List.filter. rewrite Hd. cbn [map fst snd].
  rewrite norm_inputs. reflexivity.
Qed.

Lemma run_payload_decodes_witness :
  demo_target <> VUndef /\
  exists text,
    run_body demo_target [ {| nodeId := "n1"; value := VUndef |} ] = Some text /\
    JSON_parse text
    = Ret (VObj [("target", demo_target);
                 ("ignoreInputs", VBool false);
                 ("getImage", VBool false);
                 ("getGeometry", VBool false);
                 ("getContents", VBool false);
                 ("inputs", VArr [VObj [("nodeId", VStr "n1")]])]).
Proof.
  split; [discriminate |].
  apply (proj1 (run_payload_decodes demo_target
                  [ {| nodeId := "n1"; value := VUndef |} ] ltac:(discriminate))).
Defined.

(** ** Path resolution: what goes wrong and what always holds *)

Lemma find_key_absent (cs : list Child) k :
  (forall c, In c cs -> key c <> k) ->
  List.find (fun child => String.eqb (key child) k) cs = None.
Proof.
  induction cs as [|c cs IH]; intros H; [reflexivity |].
  simpl. destruct (String.eqb (key c) k) eqn:E.
  - apply String.eqb_eq in E. exfalso. apply (H c); [now left | exact E].
  - apply IH. intros c' Hc'. apply H. now right.
Qed.

(** X13.  Resolving a path whose last key names no child of the element
    reached so far throws [Element not found at path ...], with the whole
    path in the message. *)
Theorem unknown_key_not_found :
  forall rootUrn elements ks el k,
    Forall (fun k => slash_free k = true) ks ->
    slash_free k = true ->
    (forall path, descend elements path (elements !! rootUrn) ks = Ret (Some el)) ->
    (forall c, In c (kids el) -> key c <> k) ->
    getElementsByPath rootUrn elements (render ks +:+ "/" +:+ k)
    = Throw (Error ("Element not found at path " +:+ render ks +:+ "/" +:+ k)).
Proof.
  intros rootUrn elements ks el k Hsf Hk Hd Hnone.
  unfold render. rewrite <- extend_snoc. fold (render (ks ++ [k])).
  rewrite getElementsByPath_render
    by (apply Forall_app; split; [exact Hsf | now constructor]).
  rewrite (descend_app elements _ _ ks [k] _ (Hd _)).
  simpl. fold (kids el). now rewrite (find_key_absent (kids el) k Hnone).
Qed.

Lemma unknown_key_not_found_witness :
  getElementsByPath "urn:root" family_store "root/a/zz"
  = Throw (Error "Element not found at path root/a/zz").
Proof.
  apply (unknown_key_not_found "urn:root" family_store ["a"]
           (node "urn:a" [("a1", "urn:a1"); ("a2", "urn:a2")]) "zz").
  - repeat constructor.
  - reflexivity.
  - intros path. reflexivity.
  - intros c [<- | [<- | []]]; discriminate.
Defined.

Lemma prefix_append (a b : string) : String.prefix a (a +:+ b) = true.
Proof. apply prefix_begins. now exists b. Qed.

Lemma prefix_trans (a b c : string) :
  String.prefix a b = true -> String.prefix b c = true -> String.prefix a c = true.
Proof.
  rewrite !prefix_begins. intros [r1 ->] [r2 ->].
  exists (r1 +:+ r2). apply append_assoc.
Qed.

Lemma prefix_refl (a : string) : String.prefix a a = true.
Proof. apply prefix_begins. exists EmptyString. now rewrite append_nil_r. Qed.

Lemma push_all_Forall {A} (P : string -> Prop) (f : A -> Outcome (list string)) xs :
  (forall x sub, In x xs -> f x = Ret sub -> Forall P sub) ->
  forall acc ps,
    Forall P acc -> push_all f xs acc = Ret ps ->
    Forall P ps /\ (acc <> [] -> head ps = head acc).
Proof.
  induction xs as [|x xs IH]; intros Hf acc ps Hacc H; simpl in H.
  - inversion H; subst. now split.
  - destruct (f x) as [sub | e |] eqn:E; simpl in H; try discriminate.
    destruct (IH (fun y s Hy => Hf y s (or_intror Hy)) (acc ++ sub) ps) as [H1 H2];
      [apply Forall_app; split; [exact Hacc | apply (Hf x); [now left | exact E]]
      | exact H |].
    split; [exact H1 |]. intros Hne. rewrite H2.
    + destruct acc; [contradiction | reflexivity].
    + destruct acc; [contradiction | discriminate].
Qed.

Lemma findAllPaths_below rootUrn elements fuel :
  forall path ps,
    findAllPaths rootUrn elements fuel path = Ret ps ->
    Forall (fun p => String.prefix path p = true) ps /\ head ps = Some path.
Proof.
  induction fuel as [|fuel IH]; intros path ps H; [discriminate |].
  simpl in H.
  destruct (getElementsByPath rootUrn elements path) as [[el|] | e |];
    simpl in H; try discriminate.
  assert (Hf : forall child sub,
             In child (default [] (children el)) ->
             findAllPaths rootUrn elements fuel (path +:+ String "/" (key child))
             = Ret sub ->
             Forall (fun p => String.prefix path p = true) sub).
  { intros child sub _ Hsub. destruct (IH _ _ Hsub) as [Hall _].
    eapply List.Forall_impl; [| exact Hall].
    intros p Hp. eapply prefix_trans; [| exact Hp].
    apply (prefix_append path (String "/" (key child))). }
  assert (Hacc : Forall (fun p => String.prefix path p = true) [path])
    by (constructor; [apply prefix_refl | constructor]).
  destruct (push_all_Forall _ _ _ Hf [path] ps Hacc H) as [H1 H2].
  split; [exact H1 |]. now rewrite H2.
Qed.

(** X14.  On any element store, well formed or not, whenever
    [getAllPaths] returns, the list starts with the root path and every
    path in it begins with [root]. *)
Theorem enumeration_stays_below_root :
  forall host fuel paths,
    getAllPaths host fuel = Ret paths ->
    head paths = Some "root" /\
    forall p, In p paths -> String.prefix "root" p = true.
Proof.
  intros host fuel paths H. unfold getAllPaths in H.
  destruct (getRootUrn host) as [u | e |]; simpl in H; try discriminate.
  destruct (elements_get host u) as [elements | e |]; simpl in H;
    try discriminate.
  destruct (findAllPaths_below u elements fuel "root" paths H) as [H1 H2].
  split; [exact H2 |]. now apply List.Forall_forall.
Qed.

Lemma enumeration_stays_below_root_witness :
  getAllPaths family_host 3
  = Ret ["root"; "root/a"; "root/a/a1"; "root/a/a2";
         "root/b"; "root/b/b1"; "root/b/b2"] /\
  head ["root"; "root/a"; "root/a/a1"; "root/a/a2";
        "root/b"; "root/b/b1"; "root/b/b2"] = Some "root" /\
  forall p, In p ["root"; "root/a"; "root/a/a1"; "root/a/a2";
                  "root/b"; "root/b/b1"; "root/b/b2"] ->
            String.prefix "root" p = true.
Proof.
  split; [vm_compute; reflexivity |].
  apply (enumeration_stays_below_root family_host 3).
  vm_compute. reflexivity.
Defined.

(** ** Input materializer: all or nothing, empty selections, bundles *)

Lemma materialize_nodeId host tc fuel state urn0 input ri :
  materialize host tc fuel state urn0 input = Ret ri ->
  nodeId ri = input_id input.
Proof.
  unfold materialize.
  repeat match goal with
         | |- context [String.eqb ?a ?b] =>
             destruct (String.eqb a b); simpl;
             [ let H := fresh "H" in
               intros H; settle_binds H; now inversion H | ]
         end.
  intros H. now inversion H.
Qed.

(** X15.  The inputs are materialized all or nothing: [materialize_inputs]
    returns pairs exactly when the root URN is read and every input is
    materialized, and then there is one pair per input, in the order of
    the inputs, each under the id of its input. *)
Theorem materialize_inputs_all_or_nothing :
  forall host tc fuel state inputs ris,
    materialize_inputs host tc fuel state inputs = Ret ris <->
    exists urn0,
      getRootUrn host = Ret urn0 /\
      Forall2 (fun input ri => materialize host tc fuel state urn0 input = Ret ri)
              inputs ris /\
      map nodeId ris = map input_id inputs.
Proof.
  intros host tc fuel state inputs ris. unfold materialize_inputs. split.
  - intros H. destruct (getRootUrn host) as [urn0 | e |]; simpl in H;
      try discriminate.
    exists urn0. apply Promise_all_Forall2 in H.
    split; [reflexivity | split; [exact H |]].
    induction H as [| input ri inputs ris Hri _ IH]; [reflexivity |].
    simpl. now rewrite (materialize_nodeId _ _ _ _ _ _ _ Hri), IH.
  - intros (urn0 & Hroot & Hall & _). rewrite Hroot. simpl.
    now apply Promise_all_Forall2.
Qed.

(** X16.  With nothing held by the UI state for it, an input of one of
    the path-selection types is materialized as the empty list, on any
    host, whereas an input of type [FormaSelectGeometry] makes the
    materialization throw a TypeError. *)
Theorem unset_selection :
  forall host tc fuel state urn0 input,
    state !! input_id input = None ->
    (In (input_type input)
        ["FormaSelectElements"; "FormaSelectElement"; "SelectElements"] ->
     materialize host tc fuel state urn0 input
     = Ret {| nodeId := input_id input; value := VStr "[]" |}) /\
    (input_type input = "FormaSelectGeometry" ->
     input_name input <> "GetFormaElements" ->
     exists message,
       materialize host tc fuel state urn0 input = Throw (TypeError message)).
Proof.
  intros host tc fuel state urn0 input Hunset. split.
  - intros Htype. unfold materialize. rewrite Hunset.
    destruct Htype as [<- | [<- | [<- | []]]]; reflexivity.
  - intros Htype Hname. unfold materialize. rewrite Hunset, Htype.
    apply String.eqb_neq in Hname. simpl. rewrite Hname. simpl.
    destruct (String.eqb (input_name input) "Triangles"); simpl;
      eexists; reflexivity.
Qed.

Lemma unset_selection_witness :
  ui_state !! "n5" = None /\
  materialize bare_host keep_coordinates 1 ui_state "urn:root"
              {| input_id := "n5"; input_name := "Sites";
                 input_type := "SelectElements" |}
  = Ret {| nodeId := "n5"; value := VStr "[]" |}.
Proof.
  split; [vm_compute; reflexivity |].
  apply (proj1 (unset_selection bare_host keep_coordinates 1 ui_state "urn:root"
                  {| input_id := "n5"; input_name := "Sites";
                     input_type := "SelectElements" |}
                  ltac:(vm_compute; reflexivity))).
  right. right. now left.
Defined.

Lemma loader_returns_collection host tc fuel path r :
  getVolume25DForSubTree host tc fuel path = Ret r -> r <> None.
Proof.
  unfold getVolume25DForSubTree. intros H.
  destruct (getByPath host path true) as [got | e |]; simpl in H; try discriminate.
  destruct (walk _ _ _ _ _ _) as [cs | e |]; simpl in H; try discriminate.
  inversion H. discriminate.
Qed.

Lemma bundles_aligned {P E T F V : Type}
      (Pe : P -> E -> Prop) (Pt : P -> T -> Prop) (Pf : P -> F -> Prop)
      (Pv : P -> V -> Prop) (mk : option E -> option T -> option F -> option V -> PathBundle)
      (Q : P -> PathBundle -> Prop) :
  (forall p e t f v, Pe p e -> Pt p t -> Pf p f -> Pv p v ->
                     Q p (mk (Some e) (Some t) (Some f) (Some v))) ->
  forall paths es ts fs vs,
    Forall2 Pe paths es -> Forall2 Pt paths ts ->
    Forall2 Pf paths fs -> Forall2 Pv paths vs ->
    Forall2 Q paths
            (imap (fun index _ => mk (es !! index) (ts !! index)
                                     (fs !! index) (vs !! index)) paths).
Proof.
  intros HQ paths. induction paths as [|p paths IH]; intros es ts fs vs He Ht Hf Hv.
  - constructor.
  - inversion He as [| ? e ? es' He1 He2]; subst.
    inversion Ht as [| ? t ? ts' Ht1 Ht2]; subst.
    inversion Hf as [| ? f ? fs' Hf1 Hf2]; subst.
    inversion Hv as [| ? v ? vs' Hv1 Hv2]; subst.
    rewrite imap_cons. constructor.
    + now apply HQ.
    + exact (IH es' ts' fs' vs' He2 Ht2 Hf2 Hv2).
Qed.

(** X17.  [readElementsByPaths] returns one bundle per path, in the
    order of the paths, each made of what the host answers for that very
    path; its volume collection is always there, also for an element
    without volumes, while element, triangles and footprints may be
    undefined. *)
Theorem bundles_follow_paths :
  forall host tc fuel paths bundles,
    readElementsByPaths host tc fuel paths = Ret bundles ->
    Forall2 (bundle_of host tc fuel) paths bundles.
Proof.
  intros host tc fuel paths bundles H. unfold readElementsByPaths in H.
  destruct (Promise_all _ _ paths) as [es | e |] eqn:Ee; simpl in H;
    try discriminate.
  destruct (Promise_all _ (fun path => getTriangles host None path) paths)
    as [ts | e |] eqn:Et; simpl in H; try discriminate.
  destruct (Promise_all _ (fun path => getFootprint host None path) paths)
    as [fs | e |] eqn:Ef; simpl in H; try discriminate.
  destruct (Promise_all _ (getVolume25DForSubTree host tc fuel) paths)
    as [vs | e |] eqn:Ev; simpl in H; try discriminate.
  inversion H; subst bundles. clear H.
  apply Promise_all_Forall2 in Ee, Et, Ef, Ev.
  refine (bundles_aligned _ _ _ _
            (fun e t f v => {| b_element := mjoin e; b_triangles := mjoin t;
                               b_footprints := mjoin f;
                               b_volume25DCollection := mjoin v |})
            (bundle_of host tc fuel) _ paths es ts fs vs Ee Et Ef Ev).
  intros p e t f v He Ht Hf Hv. unfold bundle_of. simpl.
  repeat split; try assumption.
  - destruct (getByPath host p false) as [got | ? |]; simpl in He;
      try discriminate.
    exists got. split; [reflexivity | now inversion He].
  - now apply (loader_returns_collection host tc fuel p).
Qed.

Lemma bundles_follow_paths_witness :
  readElementsByPaths bare_host keep_coordinates 1 ["root"]
  = Ret [ {| b_element := Some (leaf "urn:root"); b_triangles := None;
             b_footprints := None;
             b_volume25DCollection := Some {| features := [] |} |} ] /\
  Forall2 (bundle_of bare_host keep_coordinates 1) ["root"]
          [ {| b_element := Some (leaf "urn:root"); b_triangles := None;
               b_footprints := None;
               b_volume25DCollection := Some {| features := [] |} |} ].
Proof.
  split; [reflexivity |].
  apply (bundles_follow_paths bare_host keep_coordinates 1). reflexivity.
Defined.

(** ** Default values and running the graph *)

Lemma default_values_lookup isSelect isGet inputs :
  forall state k,
    default_values isSelect isGet inputs state !! k
    = match last (List.filter (stores_default isSelect isGet k) inputs) with
      | Some input => Some (default_value input)
      | None => state !! k
      end.
Proof.
  induction inputs as [|input inputs IH]; intros state k; [reflexivity |].
  simpl. unfold stores_default at 1.
  destruct (isSelect input || isGet input); simpl; [apply IH |].
  destruct (String.eqb (declared_value input) ""); simpl; [apply IH |].
  rewrite IH.
  destruct (String.eqb (input_id (declared input)) k) eqn:E.
  - apply String.eqb_eq in E. rewrite last_cons.
    destruct (last _); [reflexivity |]. subst k. now rewrite lookup_insert_eq.
  - apply String.eqb_neq in E. now rewrite lookup_insert_ne.
Qed.

(** X18.  The default state holds a value under an id exactly when some
    declared input with that id is neither a select nor a get input and
    declares a non-empty value; the value kept is that of the last such
    declaration. *)
Theorem default_is_last_declaration :
  forall isSelect isGet inputs k,
    getDefaultValues isSelect isGet (Some inputs) !! k
    = default_value <$> last (List.filter (stores_default isSelect isGet k) inputs).
Proof.
  intros isSelect isGet inputs k. unfold getDefaultValues.
  rewrite default_values_lookup. now destruct (last _).
Qed.

Lemma split_head sep s :
  exists h t,
    split sep s = h :: t /\
    count_char sep h = 0%nat /\
    (s = h \/ exists rest, s = h +:+ String sep rest).
Proof.
  induction s as [|c s (h & t & E & Hc & Hs)].
  - exists EmptyString, []. repeat split. now left.
  - simpl. destruct (Ascii.eqb c sep) eqn:Ec.
    + apply Ascii.eqb_eq in Ec. subst c.
      exists EmptyString, (split sep s). repeat split. right. now exists s.
    + rewrite E. exists (String c h), t. split; [reflexivity | split].
      * simpl. now rewrite Ec, Hc.
      * destruct Hs as [-> | [rest ->]]; [now left | right; now exists rest].
Qed.

(** X19.  The default of a drop-down input is the part of the declared
    value before its first colon: it holds no colon, and the declared
    value is either that part or that part followed by a colon and more. *)
Theorem dropdown_default_before_colon :
  forall input,
    In (input_type (declared input)) ["DSDropDownBase"; "CustomSelection"] ->
    exists d,
      default_value input = VStr d /\
      count_char ":" d = 0%nat /\
      (declared_value input = d \/
       exists rest, declared_value input = d +:+ ":" +:+ rest).
Proof.
  intros input Htype. unfold default_value.
  destruct (split_head ":" (declared_value input)) as (h & t & E & Hc & Hs).
  exists h. rewrite E.
  destruct Htype as [<- | [<- | []]]; simpl; repeat split; assumption.
Qed.

Lemma dropdown_default_before_colon_witness :
  default_value (declare "n7" "Unit" "DSDropDownBase" "Meters:0") = VStr "Meters" /\
  exists d,
    default_value (declare "n7" "Unit" "DSDropDownBase" "Meters:0") = VStr d /\
    count_char ":" d = 0%nat /\
    ("Meters:0" = d \/ exists rest, "Meters:0" = d +:+ ":" +:+ rest).
Proof.
  split; [reflexivity |].
  apply (dropdown_default_before_colon (declare "n7" "Unit" "DSDropDownBase" "Meters:0")).
  now left.
Defined.

Example defaults_of_declarations :
  let state :=
    getDefaultValues selects_by_type gets_by_type
      (Some [declare "n1" "Toggle" "boolean" "True";
             declare "n7" "Unit" "DSDropDownBase" "Meters:0";
             declare "n8" "Sites" "FormaSelectElements" "[]";
             declare "n9" "Note" "string" "";
             declare "n7" "Unit" "DSDropDownBase" "Feet:1"]) in
  state !! "n1" = Some (VBool false) /\
  state !! "n7" = Some (VStr "Feet") /\
  state !! "n8" = None /\
  state !! "n9" = None.
Proof. vm_compute. repeat split. Qed.

(** X20.  No partial run: when the materialization of some input
    throws, every input having settled, [onRun] sends no request at all;
    it ends in the error state with the exception of one of the failing
    inputs (the one that the host lets settle first), which is handed to
    [captureException] once. *)
Theorem failed_input_sends_nothing :
  forall host tc fuel srv runSync dynamo code state script result tr
         urn0 input e0,
    getRootUrn host = Ret urn0 ->
    In input (graph_inputs code) ->
    materialize host tc fuel state urn0 input = Throw e0 ->
    Forall (fun i => materialize host tc fuel state urn0 i <> OutOfFuel)
           (graph_inputs code) ->
    exists e failed,
      onRun host tc fuel srv runSync dynamo (Some code) state script result tr
      = ({| report_result := RunError e; captured := [e] |}, tr) /\
      In failed (graph_inputs code) /\
      materialize host tc fuel state urn0 failed = Throw e.
Proof.
  intros host tc fuel srv runSync dynamo code state script result tr
         urn0 input e0 Hroot Hin Hx Hs.
  destruct (Promise_all_rejects (settles_first host)
              (materialize host tc fuel state urn0) (graph_inputs code)
              input e0 Hin Hx Hs) as [e He].
  destruct (Promise_all_Throw _ _ _ _ He) as (failed & Hf & Ef).
  exists e, failed. split; [| split; assumption].
  unfold onRun, materialize_inputs. rewrite Hroot. simpl. now rewrite He.
Qed.

Lemma failed_input_sends_nothing_witness :
  getRootUrn (refusing_host 1) = Ret "urn:root" /\
  materialize (refusing_host 1) keep_coordinates 1 racing_state "urn:root"
              triangles_input
  = Throw (HostError "no triangles") /\
  exists e failed,
    onRun (refusing_host 1) keep_coordinates 1 scripted_service false daas
          (Some racing_graph) racing_state demo_script RunInit []
    = ({| report_result := RunError e; captured := [e] |}, []) /\
    In failed (graph_inputs racing_graph) /\
    materialize (refusing_host 1) keep_coordinates 1 racing_state "urn:root"
                failed = Throw e.
Proof.
  split; [reflexivity | split; [reflexivity |]].
  apply (failed_input_sends_nothing (refusing_host 1) keep_coordinates 1
           scripted_service false daas racing_graph racing_state demo_script
           RunInit [] "urn:root" triangles_input (HostError "no triangles")).
  - reflexivity.
  - now left.
  - reflexivity.
  - repeat constructor; discriminate.
Defined.

(** Which exception it is depends on the host: of two failing inputs,
    the later one gives the error when its read is refused sooner. *)
Example later_failure_may_settle_first :
  fst (onRun (refusing_host 0) keep_coordinates 1 scripted_service false daas
             (Some racing_graph) racing_state demo_script RunInit [])
  = {| report_result := RunError (HostError "no triangles");
       captured := [HostError "no triangles"] |} /\
  fst (onRun (refusing_host 1) keep_coordinates 1 scripted_service false daas
             (Some racing_graph) racing_state demo_script RunInit [])
  = {| report_result := RunError (HostError "no project");
       captured := [HostError "no project"] |}.
Proof. split; reflexivity. Qed.
